(** * nordmacpy: the connection supervisor of [connection.py]

    A shallow embedding of the OpenVPN connection supervisor: the output
    watcher ([StreamWatcher]), the command runner ([_run_cmd], [_sudo_cmd]),
    the network probes, the escalating stopper ([stop_process]), the cleanup
    routine ([_best_effort_cleanup]) and the supervisor itself ([open_vpn],
    [close_vpn]); and of what surrounds it: the config helpers of
    [connection.py] and [list_configs.py] ([VpnConfig], the listings per
    country) and, of [vpn_manager.py], the paths, the history of
    connections, [disconnect] and the choice of a random server.

    Modelling conventions.
    - Python [float] seconds are integers in milliseconds ([Z]):
      [timeout_s = 25.0] is [25000], [time.sleep(0.05)] is [sleep 50].
    - Python [str] is [string]; [int] is [Z]; [Optional[T]] is [option T].
    - The operating system is a [World]: a monotonic clock, an append-only
      trace of the calls made so far, oracles that answer every external
      call (command runs, TCP connects, the behaviour of the launched
      child), and the state of the child process.  Theorems quantify over
      every [World], hence over every behaviour of the environment.
    - Exceptions and blocking calls are explicit: a computation [M A] ends
      in [Ok], in [Exc] (a Python exception propagates), in [Hang] (the
      call [proc.wait()] without timeout never returns) or in [OutOfFuel]
      (a polling loop of the model ran out of iterations; proved
      unreachable for the fuel [open_vpn] uses).
    - Console output ([print]) is not part of the world and is left out;
      the [verbose] flags are kept where they change which commands run.
    - Assumptions on the environment: [subprocess.Popen] starts the child
      (a missing [openvpn] shows as an early exit of [sudo]); the captured
      output of a command is text, as [text=True] asks; the commands the
      cleanup runs act on the operating system, not on the status of the
      child as [Popen] records it; asynchronous interrupts
      ([KeyboardInterrupt]) are not considered; strings are ASCII text.
    - The folders of config files are seen through [ConfigDirs]: what
      [os.listdir] answers for each of the two folders, a list of names
      or an exception.  The directory of the package is a parameter
      ([here]), paths are POSIX paths, and the modules sit in one
      directory, as in the repository.  A [dict] is an association list
      in insertion order; a [set] of configs is a list without
      duplicates, used through membership only; [random.choice] takes
      the index that the generator draws as an argument, so statements
      about every draw quantify over it.
    - The watcher thread is seen through the instants at which it has
      finished consuming each line and the end of the stream; these
      instants are part of the child's [Behaviour] and are arbitrary, so
      every lag of the thread is covered. *)

From Stdlib Require Import ZArith List String Ascii Bool Lia.
From Stdlib Require Import DecimalString Permutation.
Import ListNotations.
Local Open Scope string_scope.
Local Open Scope list_scope.
Local Open Scope Z_scope.

(** ** Python primitives *)

Module Py.

(** [l[start:]] with Python's treatment of negative and out-of-range
    indices.  Note that [l[-0:]] is [l[0:]], the whole list. *)
Definition slice_from {A : Type} (start : Z) (l : list A) : list A :=
  let n := Z.of_nat (List.length l) in
  let i := if start <? 0 then Z.max 0 (n + start) else Z.min start n in
  skipn (Z.to_nat i) l.

(** [needle in hay] on strings. *)
Fixpoint contains (needle hay : string) : bool :=
  String.prefix needle hay
  || match hay with
     | EmptyString => false
     | String _ rest => contains needle rest
     end.

(** [sep.join(l)] with [sep = ""]. *)
Definition join (l : list string) : string := String.concat "" l.

(** [str(n)] for an [int]. *)
Definition str (n : Z) : string := NilZero.string_of_int (Z.to_int n).

Definition lower_ascii (c : ascii) : ascii :=
  let n := nat_of_ascii c in
  if ((65 <=? n) && (n <=? 90))%nat then ascii_of_nat (n + 32) else c.

(** [s.lower()] on ASCII text. *)
Fixpoint lower (s : string) : string :=
  match s with
  | EmptyString => EmptyString
  | String c rest => String (lower_ascii c) (lower rest)
  end.

(** Characters matched by [\s] and by [\d] in ASCII text. *)
Definition is_space (c : ascii) : bool :=
  let n := nat_of_ascii c in
  (((9 <=? n) && (n <=? 13)) || ((28 <=? n) && (n <=? 32)))%nat.

Definition is_digit (c : ascii) : bool :=
  let n := nat_of_ascii c in ((48 <=? n) && (n <=? 57))%nat.

Fixpoint drop_spaces (s : string) : string :=
  match s with
  | String c rest => if is_space c then drop_spaces rest else s
  | EmptyString => s
  end.

(** [s] with its prefix [p] removed, when [p] is a prefix of [s]. *)
Fixpoint strip_prefix (p s : string) : option string :=
  match p, s with
  | EmptyString, _ => Some s
  | String a p', String b s' =>
      if Ascii.eqb a b then strip_prefix p' s' else None
  | String _ _, EmptyString => None
  end.

(** [s.rstrip()] and [s.strip()] on ASCII text. *)
Fixpoint rstrip (s : string) : string :=
  match s with
  | EmptyString => EmptyString
  | String c rest =>
      match rstrip rest with
      | EmptyString => if is_space c then EmptyString else String c EmptyString
      | r => String c r
      end
  end.

Definition strip (s : string) : string := rstrip (drop_spaces s).

End Py.

(** ** Models *)

(** A [subprocess.Popen] handle: the child is identified by its pid; its
    state lives in the [World]. *)
Definition Popen := Z.

Record OpenVpnResult := mkResult {
  ok : bool;
  proc : option Popen;
  reason : string
}.

(** ** Stream watcher *)

Record StreamWatcher := mkWatcher {
  needle : string;
  verbose : bool;
  keep_last_n : Z;
  lines : list string;
  init_event : bool;   (* the [threading.Event] set when the needle is seen *)
  exit_event : bool    (* the [threading.Event] set when the stream ends *)
}.

Module Watcher.

(** [StreamWatcher.__init__]. *)
Definition new (needle : string) (verbose : bool) (keep_last_n : Z)
  : StreamWatcher :=
  mkWatcher needle verbose keep_last_n [] false false.

(** [StreamWatcher.tail]. *)
Definition tail (sw : StreamWatcher) : string :=
  Py.join (Py.slice_from (- keep_last_n sw) (lines sw)).

(** The block of [run] that holds the lock: append the line, then trim
    when the buffer is longer than [2 * keep_last_n]. *)
Definition locked_append (line : string) (sw : StreamWatcher)
  : StreamWatcher :=
  let ls := lines sw ++ [line] in
  let ls' :=
    if Z.of_nat (List.length ls) >? keep_last_n sw * 2
    then Py.slice_from (- keep_last_n sw) ls
    else ls in
  mkWatcher (needle sw) (verbose sw) (keep_last_n sw) ls'
            (init_event sw) (exit_event sw).

(** Whether the locked block trims on this line. *)
Definition trims (line : string) (sw : StreamWatcher) : bool :=
  Z.of_nat (List.length (lines sw ++ [line])) >? keep_last_n sw * 2.

(** The rest of the loop body: set [init_event] when the needle occurs. *)
Definition signal_init (line : string) (sw : StreamWatcher)
  : StreamWatcher :=
  if Py.contains (needle sw) line
  then mkWatcher (needle sw) (verbose sw) (keep_last_n sw) (lines sw)
                 true (exit_event sw)
  else sw.

(** One iteration of the [for] loop of [run]. *)
Definition run_line (line : string) (sw : StreamWatcher) : StreamWatcher :=
  signal_init line (locked_append line sw).

(** The [for] loop: [iter(readline, "")] stops at the first empty read. *)
Fixpoint run_lines (stream : list string) (sw : StreamWatcher)
  : StreamWatcher :=
  match stream with
  | [] => sw
  | line :: rest =>
      if String.eqb line "" then sw else run_lines rest (run_line line sw)
  end.

(** The [finally] block. *)
Definition set_exit (sw : StreamWatcher) : StreamWatcher :=
  mkWatcher (needle sw) (verbose sw) (keep_last_n sw) (lines sw)
            (init_event sw) true.

(** [StreamWatcher.run] on a stream that ends. *)
Definition run (stream : list string) (sw : StreamWatcher) : StreamWatcher :=
  set_exit (run_lines stream sw).

(** The states another thread can observe under the lock while the
    watcher consumes [stream]: the state after each completed locked
    block, oldest first. *)
Fixpoint observations (stream : list string) (sw : StreamWatcher)
  : list StreamWatcher :=
  match stream with
  | [] => []
  | line :: rest =>
      if String.eqb line "" then []
      else locked_append line sw :: observations rest (run_line line sw)
  end.

End Watcher.

(** ** The environment *)

Inductive Signal := SIGINT | SIGTERM | SIGKILL.

(** The exception classes the code distinguishes: [subprocess.TimeoutExpired]
    (with the output captured so far), [RuntimeError], and any other
    subclass of [Exception].  Each carries its message, [str(e)]. *)
Inductive Exn :=
| TimeoutExpired (msg : string) (stdout stderr : option string)
| RuntimeError (msg : string)
| OtherException (msg : string).

Definition exn_str (e : Exn) : string :=
  match e with
  | TimeoutExpired msg _ _ => msg
  | RuntimeError msg => msg
  | OtherException msg => msg
  end.

(** What [subprocess.run] does: it completes with a return code and the
    captured [stdout], or it raises. *)
Inductive RunOutcome :=
| Completed (returncode : Z) (stdout : option string)
| Raises (e : Exn).

(** Every call that leaves the process is recorded. *)
Inductive Event :=
| EvRun (argv : list string) (timeout : Z)      (* subprocess.run *)
| EvConnect (host : string) (port : Z) (timeout : Z) (* socket.create_connection *)
| EvPopen (argv : list string)                   (* subprocess.Popen *)
| EvWatcherStart                                 (* watcher.start() *)
| EvIsSet                                        (* init_event.is_set() *)
| EvTail                                         (* watcher.tail() *)
| EvPoll                                         (* proc.poll() *)
| EvWait (timeout : option Z)                    (* proc.wait(...) *)
| EvKillpg (sig : Signal)                        (* os.killpg *)
| EvSendSignal (sig : Signal)                    (* proc.send_signal / terminate / kill *)
| EvMonotonic                                    (* time.monotonic() *)
| EvSleep (ms : Z).                              (* time.sleep *)

(** How the launched child behaves.  Delays are relative to the launch.
    [output] lists the lines the child writes, each with the instant at
    which the watcher thread has finished consuming it; [eof] is the
    instant at which the watcher sees the end of the stream. *)
Record Behaviour := mkBehaviour {
  exits : option (Z * Z);              (* exits by itself: delay, status *)
  reacts : Signal -> option (Z * Z);   (* a delivered signal ends it: delay, status *)
  killpg_raises : Signal -> bool;      (* os.killpg raises *)
  send_signal_raises : Signal -> bool; (* proc.send_signal raises *)
  output : list (Z * string);
  eof : option Z
}.

Record Child := mkChild {
  behaviour : Behaviour;
  pid : Popen;
  launched : option Z;        (* the launch instant, once launched *)
  exit_at : option (Z * Z);   (* instant and status of its exit, once settled *)
  returncode : option Z       (* [Popen.returncode] *)
}.

Record World := mkWorld {
  now : Z;                                       (* the monotonic clock, ms *)
  trace : list Event;                            (* newest first *)
  run_oracle : nat -> list string -> Z -> RunOutcome * Z; (* outcome, duration *)
  runs : nat;
  connect_oracle : nat -> string -> Z -> Z -> bool * Z;   (* connected, duration *)
  connects : nat;
  which_sudo : option string;                    (* shutil.which("sudo") *)
  os_nt : bool;                                  (* os.name == "nt" *)
  child : Child;
  watcher : option StreamWatcher                 (* the started watcher *)
}.

Definition set_now (t : Z) (w : World) : World :=
  mkWorld t (trace w) (run_oracle w) (runs w) (connect_oracle w) (connects w)
          (which_sudo w) (os_nt w) (child w) (watcher w).

Definition log (e : Event) (w : World) : World :=
  mkWorld (now w) (e :: trace w) (run_oracle w) (runs w) (connect_oracle w)
          (connects w) (which_sudo w) (os_nt w) (child w) (watcher w).

Definition set_runs (n : nat) (w : World) : World :=
  mkWorld (now w) (trace w) (run_oracle w) n (connect_oracle w) (connects w)
          (which_sudo w) (os_nt w) (child w) (watcher w).

Definition set_connects (n : nat) (w : World) : World :=
  mkWorld (now w) (trace w) (run_oracle w) (runs w) (connect_oracle w) n
          (which_sudo w) (os_nt w) (child w) (watcher w).

Definition set_child (c : Child) (w : World) : World :=
  mkWorld (now w) (trace w) (run_oracle w) (runs w) (connect_oracle w)
          (connects w) (which_sudo w) (os_nt w) c (watcher w).

Definition set_watcher (sw : option StreamWatcher) (w : World) : World :=
  mkWorld (now w) (trace w) (run_oracle w) (runs w) (connect_oracle w)
          (connects w) (which_sudo w) (os_nt w) (child w) sw.

(** Time only moves forward. *)
Definition advance (d : Z) (w : World) : World := set_now (now w + Z.max 0 d) w.

(** ** Computations *)

Inductive Out (A : Type) :=
| Ok (a : A) (w : World)
| Exc (e : Exn) (w : World)
| Hang
| OutOfFuel.
Arguments Ok {A} a w.
Arguments Exc {A} e w.
Arguments Hang {A}.
Arguments OutOfFuel {A}.

Definition M (A : Type) := World -> Out A.

Definition ret {A} (a : A) : M A := fun w => Ok a w.

Definition bind {A B} (m : M A) (k : A -> M B) : M B :=
  fun w =>
    match m w with
    | Ok a w' => k a w'
    | Exc e w' => Exc e w'
    | Hang => Hang
    | OutOfFuel => OutOfFuel
    end.

Definition raise {A} (e : Exn) : M A := fun w => Exc e w.

(** [try: m  except ...: handler e]; the handler answers [None] for an
    exception no [except] clause matches. *)
Definition try_except {A} (m : M A) (handler : Exn -> option (M A)) : M A :=
  fun w =>
    match m w with
    | Exc e w' =>
        match handler e with
        | Some h => h w'
        | None => Exc e w'
        end
    | o => o
    end.

Declare Scope monad_scope.
Delimit Scope monad_scope with monad.
Notation "x <- m ;; k" := (bind m (fun x => k))
  (at level 61, m at next level, right associativity) : monad_scope.
Notation "m ;; k" := (bind m (fun _ => k))
  (at level 61, right associativity) : monad_scope.
Local Open Scope monad_scope.

(** ** Primitives of the environment *)

Module OS.

(** The exit status of the child if it has exited by instant [t]. *)
Definition exited_by (t : Z) (c : Child) : option Z :=
  match exit_at c with
  | Some (te, rc) => if te <=? t then Some rc else None
  | None => None
  end.

Definition set_returncode (rc : option Z) (c : Child) : Child :=
  mkChild (behaviour c) (pid c) (launched c) (exit_at c) rc.

Definition set_exit_at (e : option (Z * Z)) (c : Child) : Child :=
  mkChild (behaviour c) (pid c) (launched c) e (returncode c).

(** A signal reaches the child at instant [t]. *)
Definition deliver (sig : Signal) (t : Z) (c : Child) : Child :=
  match exited_by t c with
  | Some _ => c
  | None =>
      match reacts (behaviour c) sig with
      | None => c
      | Some (d, rc) =>
          let te := t + Z.max 0 d in
          match exit_at c with
          | Some (te0, _) =>
              if te0 <=? te then c else set_exit_at (Some (te, rc)) c
          | None => set_exit_at (Some (te, rc)) c
          end
      end
  end.

(** [time.monotonic()]. *)
Definition monotonic : M Z :=
  fun w => Ok (now w) (log EvMonotonic w).

(** [time.sleep(ms)]. *)
Definition sleep (ms : Z) : M unit :=
  fun w => Ok tt (advance ms (log (EvSleep ms) w)).

(** [shutil.which("sudo")]. *)
Definition which_sudo : M (option string) :=
  fun w => Ok (which_sudo w) w.

(** [os.name == "nt"]. *)
Definition is_nt : M bool :=
  fun w => Ok (os_nt w) w.

(** A polling loop of the model that ran out of iterations. *)
Definition out_of_fuel {A} : M A := fun _ => OutOfFuel.

(** [subprocess.run(argv, stdout=PIPE, stderr=STDOUT, text=True,
    timeout=timeout)]. *)
Definition subprocess_run (argv : list string) (timeout : Z)
  : M (Z * option string) :=
  fun w =>
    let '(o, d) := run_oracle w (runs w) argv timeout in
    let w' := advance d (set_runs (S (runs w)) (log (EvRun argv timeout) w)) in
    match o with
    | Completed rc out => Ok (rc, out) w'
    | Raises e => Exc e w'
    end.

(** [socket.create_connection((host, port), timeout=timeout)], closed at
    once by the [with] block. *)
Definition create_connection (host : string) (port : Z) (timeout : Z)
  : M unit :=
  fun w =>
    let '(b, d) := connect_oracle w (connects w) host port timeout in
    let w' := advance d (set_connects (S (connects w))
                           (log (EvConnect host port timeout) w)) in
    if b then Ok tt w' else Exc (OtherException "connect failed") w'.

(** [subprocess.Popen(argv, ..., start_new_session=True)]. *)
Definition popen (argv : list string) : M Popen :=
  fun w =>
    let c := child w in
    let e := match exits (behaviour c) with
             | Some (d, rc) => Some (now w + Z.max 0 d, rc)
             | None => None
             end in
    Ok (pid c)
       (set_child (mkChild (behaviour c) (pid c) (Some (now w)) e None)
                  (log (EvPopen argv) w)).

(** [proc.poll()]. *)
Definition poll (p : Popen) : M (option Z) :=
  fun w =>
    let w1 := log EvPoll w in
    let c := child w in
    match returncode c with
    | Some rc => Ok (Some rc) w1
    | None =>
        match exited_by (now w) c with
        | Some rc => Ok (Some rc) (set_child (set_returncode (Some rc) c) w1)
        | None => Ok None w1
        end
    end.

(** [proc.wait(timeout=t)]: raises [TimeoutExpired] when the child is
    still running after [t]. *)
Definition wait_timeout (p : Popen) (t : Z) : M Z :=
  fun w =>
    let w1 := log (EvWait (Some t)) w in
    let c := child w in
    let expired := Exc (TimeoutExpired "timed out" None None) (advance t w1) in
    match returncode c with
    | Some rc => Ok rc w1
    | None =>
        match exit_at c with
        | Some (te, rc) =>
            if te <=? now w + Z.max 0 t
            then Ok rc (set_child (set_returncode (Some rc) c)
                                  (set_now (Z.max (now w) te) w1))
            else expired
        | None => expired
        end
    end.

(** [proc.wait()]: blocks until the child exits. *)
Definition wait (p : Popen) : M Z :=
  fun w =>
    let w1 := log (EvWait None) w in
    let c := child w in
    match returncode c with
    | Some rc => Ok rc w1
    | None =>
        match exit_at c with
        | Some (te, rc) =>
            Ok rc (set_child (set_returncode (Some rc) c)
                             (set_now (Z.max (now w) te) w1))
        | None => Hang
        end
    end.

(** [os.killpg(proc.pid, sig)]. *)
Definition killpg (p : Popen) (sig : Signal) : M unit :=
  fun w =>
    let w1 := log (EvKillpg sig) w in
    if killpg_raises (behaviour (child w)) sig
    then Exc (OtherException "killpg failed") w1
    else Ok tt (set_child (deliver sig (now w) (child w)) w1).

(** [proc.send_signal(sig)]; [proc.terminate()] and [proc.kill()] are
    [send_signal] with [SIGTERM] and [SIGKILL].  It polls first and does
    nothing for a child that was reaped. *)
Definition send_signal (p : Popen) (sig : Signal) : M unit :=
  fun w =>
    let w1 := log (EvSendSignal sig) w in
    let c := child w in
    match returncode c, exited_by (now w) c with
    | Some _, _ => Ok tt w1
    | None, Some rc => Ok tt (set_child (set_returncode (Some rc) c) w1)
    | None, None =>
        if send_signal_raises (behaviour c) sig
        then Exc (OtherException "send_signal failed") w1
        else Ok tt (set_child (deliver sig (now w) c) w1)
    end.

(** The lines the watcher thread has consumed by now. *)
Fixpoint consumed (elapsed : Z) (out : list (Z * string)) : list string :=
  match out with
  | [] => []
  | (t, line) :: rest =>
      if t <=? elapsed then line :: consumed elapsed rest else []
  end.

(** The state of the watcher thread as another thread sees it now. *)
Definition watcher_now (w : World) : option StreamWatcher :=
  match watcher w, launched (child w) with
  | Some sw0, Some t0 =>
      let elapsed := now w - t0 in
      let out := output (behaviour (child w)) in
      let seen := consumed elapsed out in
      let ended :=
        match eof (behaviour (child w)) with
        | Some te => (te <=? elapsed) && (List.length seen =? List.length out)%nat
        | None => false
        end in
      Some (if ended then Watcher.run seen sw0 else Watcher.run_lines seen sw0)
  | _, _ => None
  end.

(** [StreamWatcher(proc.stdout, needle, init_event=..., exit_event=...,
    verbose=verbose)] followed by [watcher.start()]. *)
Definition watcher_start (needle : string) (verbose : bool) : M unit :=
  fun w =>
    Ok tt (set_watcher (Some (Watcher.new needle verbose 300))
                       (log EvWatcherStart w)).

(** [init_event.is_set()]. *)
Definition is_set : M bool :=
  fun w =>
    Ok (match watcher_now w with
        | Some sw => init_event sw
        | None => false
        end) (log EvIsSet w).

(** [watcher.tail()]. *)
Definition tail : M string :=
  fun w =>
    Ok (match watcher_now w with
        | Some sw => Watcher.tail sw
        | None => ""
        end) (log EvTail w).

End OS.

(** ** Logging + command runner *)

Definition nl : string := String "010"%char "".
Definition dquote : string := String "034"%char "".

Definition or_empty (o : option string) : string :=
  match o with
  | Some s => s
  | None => ""
  end.

Definition _looks_like_sudo_tty_problem (out : string) : bool :=
  let t := Py.lower out in
  Py.contains "a terminal is required to read the password" t
  || Py.contains "a password is required" t
  || (Py.contains "sudo:" t && Py.contains "password" t)
  || Py.contains "sorry, you must have a tty" t.

Definition sudo_hint : string :=
  (nl ++ "Likely cause: sudo is prompting but Python has no TTY." ++ nl
   ++ "Fix: use sudo -n and add the exact command to visudo NOPASSWD." ++ nl)%string.

(** [_run_cmd(cmd, timeout_s=, check=, label=, print_cmd=, verbose=)]. *)
Definition _run_cmd (cmd : list string) (timeout_s : Z) (check : bool)
    (label : string) (print_cmd verbose : bool) : M (Z * string) :=
  try_except
    (p <- OS.subprocess_run cmd timeout_s ;;
     let '(returncode, stdout) := p in
     let out := or_empty stdout in
     if check && negb (returncode =? 0)
     then
       let extra := if _looks_like_sudo_tty_problem out then sudo_hint else "" in
       raise (RuntimeError
                (label ++ " failed rc=" ++ Py.str returncode ++ extra ++ nl ++ out)%string)
     else ret (returncode, out))
    (fun e =>
       match e with
       | TimeoutExpired _ stdout stderr =>
           Some (let out := (or_empty stdout ++ or_empty stderr
                             ++ nl ++ "[TIMEOUT]" ++ nl)%string in
                 if check
                 then raise (RuntimeError (label ++ " timed out" ++ nl ++ out)%string)
                 else ret (124, out))
       | _ =>
           Some (let out := ("[EXCEPTION] " ++ exn_str e ++ nl)%string in
                 if check then raise e else ret (127, out))
       end).

(** [_sudo_cmd(cmd, timeout_s=, check=, label=, verbose=)]. *)
Definition _sudo_cmd (cmd : list string) (timeout_s : Z) (check : bool)
    (label : string) (verbose : bool) : M (Z * string) :=
  found <- OS.which_sudo ;;
  let sudo := match found with
              | Some path => if String.eqb path "" then "sudo" else path
              | None => "sudo"
              end in
  _run_cmd (sudo :: "-n" :: cmd) timeout_s check label true verbose.

(** ** Network probes / snapshots *)

Definition _tcp_connect_ok (host : string) (port : Z) (timeout_s : Z) : M bool :=
  try_except
    (OS.create_connection host port timeout_s ;; ret true)
    (fun _ => Some (ret false)).

(** [re.search(r"interface:\s+utun\d+", out)] succeeds. *)
Definition utun_here (s : string) : bool :=
  match Py.strip_prefix "interface:" s with
  | Some (String c rest) =>
      Py.is_space c
      && match Py.strip_prefix "utun" (Py.drop_spaces rest) with
         | Some (String d _) => Py.is_digit d
         | _ => false
         end
  | _ => false
  end.

Fixpoint search_utun (out : string) : bool :=
  utun_here out
  || match out with
     | EmptyString => false
     | String _ rest => search_utun rest
     end.

Definition _route_uses_utun (ip : string) (verbose : bool) : M bool :=
  p <- _run_cmd ["route"; "-n"; "get"; ip] 3000 false "route-get" false verbose ;;
  let '(rc, out) := p in
  if negb (rc =? 0) then ret false else ret (search_utun out).

(** [f"{elapsed:.2f}"] for an elapsed time in milliseconds: seconds with two
    decimals, rounded to the nearest hundredth (ties to even). *)
Definition round_cs (ms : Z) : Z :=
  let q := ms / 10 in
  let r := ms mod 10 in
  if (5 <? r) || ((r =? 5) && Z.odd q) then q + 1 else q.

Definition fmt_2f (ms : Z) : string :=
  let cs := round_cs (Z.abs ms) in
  let frac := cs mod 100 in
  let sign := if ms <? 0 then "-" else "" in
  let pad := if frac <? 10 then "0" else "" in
  (sign ++ Py.str (cs / 100) ++ "." ++ pad ++ Py.str frac)%string.

Definition tests : list (string * Z) :=
  [("api.ipify.org", 443); ("1.1.1.1", 443)].

(** [f"tcp-connect-failed {host}:{port} after {elapsed:.2f}s"]. *)
Definition connect_failed (host : string) (port elapsed : Z) : string :=
  ("tcp-connect-failed " ++ host ++ ":" ++ Py.str port
   ++ " after " ++ fmt_2f elapsed ++ "s")%string.

(** The [for host, port in tests] loop of [_internet_probe_ok]. *)
Fixpoint probe_targets (targets : list (string * Z)) (timeout_s start : Z)
  : M (bool * string) :=
  match targets with
  | [] => ret (true, "probe-ok")
  | (host, port) :: rest =>
      ok <- _tcp_connect_ok host port (Z.min 3000 timeout_s) ;;
      if negb ok
      then
        t <- OS.monotonic ;;
        let elapsed := t - start in
        ret (false, connect_failed host port elapsed)
      else probe_targets rest timeout_s start
  end.

Definition _internet_probe_ok (timeout_s : Z) (require_vpn_route verbose : bool)
  : M (bool * string) :=
  routed <- (if require_vpn_route
             then _route_uses_utun "1.1.1.1" verbose
             else ret true) ;;
  if negb routed
  then ret (false, "route-to-1.1.1.1-not-utun")
  else
    start <- OS.monotonic ;;
    probe_targets tests timeout_s start.

Definition _snapshot (label : string) (verbose : bool) : M unit :=
  _run_cmd ["netstat"; "-rn"; "-f"; "inet"] 3000 false "netstat" verbose verbose ;;
  _run_cmd ["scutil"; "--proxy"] 3000 false "scutil-proxy" verbose verbose ;;
  _run_cmd ["scutil"; "--dns"] 3000 false "scutil-dns" verbose verbose ;;
  ret tt.

(** The [re.search] of [_get_public_ip]: the key [ip] in double quotes,
    optional whitespace, a colon, optional whitespace, then a non-empty
    value in double quotes; the value is the captured group. *)
Fixpoint until_quote (s : string) : string * string :=
  match s with
  | EmptyString => (EmptyString, EmptyString)
  | String c rest =>
      if Ascii.eqb c "034"%char then (EmptyString, s)
      else let '(g, r) := until_quote rest in (String c g, r)
  end.

Definition ip_here (s : string) : option string :=
  match Py.strip_prefix (dquote ++ "ip" ++ dquote)%string s with
  | Some r1 =>
      match Py.strip_prefix ":" (Py.drop_spaces r1) with
      | Some r2 =>
          match Py.strip_prefix dquote (Py.drop_spaces r2) with
          | Some r3 =>
              match until_quote r3 with
              | (String c g, String _ _) => Some (String c g)
              | _ => None
              end
          | None => None
          end
      | None => None
      end
  | None => None
  end.

Fixpoint search_ip (out : string) : option string :=
  match ip_here out with
  | Some g => Some g
  | None =>
      match out with
      | EmptyString => None
      | String _ rest => search_ip rest
      end
  end.

Definition _get_public_ip (verbose : bool) : M string :=
  p <- _run_cmd ["curl"; "-sS"; "--noproxy"; "*"; "https://api.ipify.org?format=json"]
                8000 false "ipify" false verbose ;;
  let '(rc, out) := p in
  match search_ip out with
  | Some ip => ret ip
  | None => ret (Py.strip out)
  end.

(** ** Process controls *)

Definition _send_signal_to_process_group (p : Popen) (sig : Signal) : M unit :=
  nt <- OS.is_nt ;;
  if nt then OS.send_signal p sig else OS.killpg p sig.

(** [try: _send_signal_to_process_group(proc, sig)
     except Exception: try: proc.send_signal(sig) except Exception: pass]. *)
Definition signal_best_effort (p : Popen) (sig : Signal) : M unit :=
  try_except
    (_send_signal_to_process_group p sig)
    (fun _ => Some (try_except (OS.send_signal p sig)
                               (fun _ => Some (ret tt)))).

(** [try: return proc.wait(timeout=grace) except TimeoutExpired: pass];
    [None] when the [except] clause was taken. *)
Definition wait_or_pass (p : Popen) (grace : Z) : M (option Z) :=
  try_except
    (rc <- OS.wait_timeout p grace ;; ret (Some rc))
    (fun e =>
       match e with
       | TimeoutExpired _ _ _ => Some (ret None)
       | _ => None
       end).

Definition stop_process (p : Popen) (sigint_grace_s sigterm_grace_s : Z) : M Z :=
  rc <- OS.poll p ;;
  match rc with
  | Some rc => ret rc
  | None =>
      signal_best_effort p SIGINT ;;
      r <- wait_or_pass p sigint_grace_s ;;
      match r with
      | Some rc => ret rc
      | None =>
          signal_best_effort p SIGTERM ;;
          r <- wait_or_pass p sigterm_grace_s ;;
          match r with
          | Some rc => ret rc
          | None =>
              signal_best_effort p SIGKILL ;;
              OS.wait p
          end
      end
  end.

(** ** Cleanup *)

Definition _delete_def1_routes (verbose : bool) : M unit :=
  _sudo_cmd ["route"; "-n"; "delete"; "-inet"; "0.0.0.0/1"] 3000 false
            "cleanup-route-0/1" verbose ;;
  _sudo_cmd ["route"; "-n"; "delete"; "-inet"; "128.0.0.0/1"] 3000 false
            "cleanup-route-128/1" verbose ;;
  ret tt.

Definition _flush_dns (verbose : bool) : M unit :=
  _sudo_cmd ["dscacheutil"; "-flushcache"] 5000 false "cleanup-dnsflush" verbose ;;
  _sudo_cmd ["killall"; "-HUP"; "mDNSResponder"] 5000 false "cleanup-mdns" verbose ;;
  ret tt.

Definition _kill_openvpn (verbose : bool) : M unit :=
  _sudo_cmd ["pkill"; "-TERM"; "openvpn"] 3000 false "cleanup-pkill-term" verbose ;;
  OS.sleep 200 ;;
  _sudo_cmd ["pkill"; "-KILL"; "openvpn"] 3000 false "cleanup-pkill-kill" verbose ;;
  ret tt.

Definition _best_effort_cleanup (verbose : bool) : M (bool * string) :=
  try_except
    (_kill_openvpn verbose ;;
     _flush_dns verbose ;;
     _delete_def1_routes verbose ;;
     OS.sleep 300 ;;
     (if verbose then _snapshot "post-cleanup" verbose else ret tt) ;;
     ret (true, "cleanup-ok"))
    (fun e =>
       match e with
       | RuntimeError msg => Some (ret (false, ("cleanup-failed: " ++ msg)%string))
       | _ => None
       end).

(** ** OpenVPN runner *)

Definition tail_label : string := (nl ++ "TAIL:" ++ nl)%string.

(** How one turn of a polling loop ends. *)
Inductive Turn :=
| Continue                       (* falls through to the next turn *)
| Break                          (* [break] *)
| Return (r : OpenVpnResult).    (* [return r] *)

(** The body of the [while True] loop of [open_vpn]. *)
Definition wait_init_body (p : Popen) (deadline : Z) : M Turn :=
  seen <- OS.is_set ;;
  if seen then ret Break
  else
    rc <- OS.poll p ;;
    match rc with
    | Some rc =>
        tail <- OS.tail ;;
        _best_effort_cleanup false ;;
        ret (Return (mkResult false None
               ("openvpn-exited-early rc=" ++ Py.str rc ++ tail_label ++ tail)%string))
    | None =>
        t <- OS.monotonic ;;
        if t >=? deadline
        then
          tail <- OS.tail ;;
          final_rc <- stop_process p 5000 3000 ;;
          _best_effort_cleanup false ;;
          ret (Return (mkResult false None
                 ("timeout-waiting-init final_rc=" ++ Py.str final_rc
                  ++ tail_label ++ tail)%string))
        else
          OS.sleep 50 ;;
          ret Continue
    end.

(** The [while True] loop; [None] when it was left by [break], [Some r]
    when it returned [r]. *)
Fixpoint wait_init (fuel : nat) (p : Popen) (deadline : Z)
  : M (option OpenVpnResult) :=
  match fuel with
  | O => OS.out_of_fuel
  | S fuel' =>
      turn <- wait_init_body p deadline ;;
      match turn with
      | Continue => wait_init fuel' p deadline
      | Break => ret None
      | Return r => ret (Some r)
      end
  end.

(** The body of the [while time.monotonic() < probe_deadline] loop:
    [inl r] when it returns [r], [inr reason] when it falls through with
    [last_reason = reason]. *)
Definition probe_body (p : Popen) (probe_deadline : Z) (verbose : bool)
  : M (OpenVpnResult + string) :=
  rc <- OS.poll p ;;
  match rc with
  | Some rc =>
      tail <- OS.tail ;;
      _best_effort_cleanup false ;;
      ret (inl (mkResult false None
             ("died-during-probe rc=" ++ Py.str rc ++ tail_label ++ tail)%string))
  | None =>
      t <- OS.monotonic ;;
      r <- _internet_probe_ok (Z.min 5000 (probe_deadline - t)) true verbose ;;
      let '(ok, reason) := r in
      if ok
      then
        _get_public_ip verbose ;;
        ret (inl (mkResult true (Some p) "initialized+probe-ok"))
      else
        OS.sleep 250 ;;
        ret (inr reason)
  end.

(** The probe loop; [inl r] when it returned [r], [inr last_reason] when
    its condition became false. *)
Fixpoint probe_loop (fuel : nat) (p : Popen) (probe_deadline : Z)
    (verbose : bool) (last_reason : string) : M (OpenVpnResult + string) :=
  match fuel with
  | O => OS.out_of_fuel
  | S fuel' =>
      t <- OS.monotonic ;;
      if t <? probe_deadline
      then
        turn <- probe_body p probe_deadline verbose ;;
        match turn with
        | inl r => ret (inl r)
        | inr reason => probe_loop fuel' p probe_deadline verbose reason
        end
      else ret (inr last_reason)
  end.

(** Iterations that suffice for a polling loop that sleeps [interval]
    milliseconds per turn until [timeout] has passed. *)
Definition turns (timeout interval : Z) : nat :=
  Z.to_nat (timeout / interval) + 2.

Definition openvpn_argv (ovpn_path auth_path : string)
    (extra_openvpn_args : list string) : list string :=
  ["sudo"; "-n"; "openvpn"; "--config"; ovpn_path; "--auth-user-pass";
   auth_path; "--auth-nocache"; "--verb"; "3"; "--ping"; "10";
   "--ping-restart"; "30"] ++ extra_openvpn_args.

(** [open_vpn] from the launch on: the part after the pre-flight cleanup. *)
Definition supervise (ovpn_path auth_path : string) (timeout_s : Z)
    (needle : string) (extra_openvpn_args : list string)
    (verbose post_init_probe : bool) (probe_timeout_s : Z)
  : M OpenVpnResult :=
  let argv := openvpn_argv ovpn_path auth_path extra_openvpn_args in
  p <- OS.popen argv ;;
  OS.watcher_start needle verbose ;;
  t0 <- OS.monotonic ;;
  let deadline := t0 + timeout_s in
  left <- wait_init (turns timeout_s 50) p deadline ;;
  match left with
  | Some r => ret r
  | None =>
      rc <- OS.poll p ;;
      match rc with
      | Some rc =>
          tail <- OS.tail ;;
          _best_effort_cleanup false ;;
          ret (mkResult false None
                 ("exited-after-init rc=" ++ Py.str rc ++ tail_label ++ tail)%string)
      | None =>
          if post_init_probe
          then
            t1 <- OS.monotonic ;;
            let probe_deadline := t1 + probe_timeout_s in
            probed <- probe_loop (turns probe_timeout_s 250) p probe_deadline
                                 verbose "probe-not-run" ;;
            match probed with
            | inl r => ret r
            | inr last_reason =>
                tail <- OS.tail ;;
                final_rc <- stop_process p 5000 3000 ;;
                _best_effort_cleanup false ;;
                (if verbose then _snapshot "probe-failed" verbose else ret tt) ;;
                ret (mkResult false None
                       ("init-seen-but-probe-failed: " ++ last_reason
                        ++ "; stopped rc=" ++ Py.str final_rc
                        ++ tail_label ++ tail)%string)
            end
          else ret (mkResult true (Some p) "initialized")
      end
  end.

Definition open_vpn (ovpn_path auth_path : string) (timeout_s : Z)
    (needle : string) (extra_openvpn_args : option (list string))
    (verbose pre_cleanup post_init_probe : bool) (probe_timeout_s : Z)
  : M OpenVpnResult :=
  let extra_openvpn_args :=
    match extra_openvpn_args with
    | Some (x :: l) => x :: l
    | _ => []
    end in
  _get_public_ip verbose ;;
  pre <- (if pre_cleanup then _best_effort_cleanup verbose
          else ret (true, "")) ;;
  let '(ok, reason) := pre in
  if negb ok
  then
    (if verbose then _snapshot "cleanup-failed" verbose else ret tt) ;;
    ret (mkResult false None reason)
  else
    supervise ovpn_path auth_path timeout_s needle extra_openvpn_args
              verbose post_init_probe probe_timeout_s.

Definition close_vpn (p : Popen) (verbose : bool) : M Z :=
  rc <- stop_process p 5000 3000 ;;
  _best_effort_cleanup verbose ;;
  ret rc.

(** ** Notions used in the statements *)

(** What [init_event.is_set()], [watcher.tail()] and [proc.poll()] answer
    in a world. *)
Definition seen (w : World) : bool :=
  match OS.watcher_now w with
  | Some sw => init_event sw
  | None => false
  end.

Definition tail_now (w : World) : string :=
  match OS.watcher_now w with
  | Some sw => Watcher.tail sw
  | None => ""
  end.

Definition status (w : World) : option Z :=
  match returncode (child w) with
  | Some rc => Some rc
  | None => OS.exited_by (now w) (child w)
  end.

(** The world after [proc.poll()]. *)
Definition polled (w : World) : World :=
  match returncode (child w), OS.exited_by (now w) (child w) with
  | None, Some rc =>
      set_child (OS.set_returncode (Some rc) (child w)) (log EvPoll w)
  | _, _ => log EvPoll w
  end.

(** The world after [time.sleep(ms)]. *)
Definition slept (ms : Z) (w : World) : World :=
  advance ms (log (EvSleep ms) w).

(** The world after one [subprocess.run], and what [_run_cmd] without
    [check] answers for it. *)
Definition ran (cmd : list string) (t : Z) (w : World) : World :=
  advance (snd (run_oracle w (runs w) cmd t))
          (set_runs (S (runs w)) (log (EvRun cmd t) w)).

Definition run_answer (cmd : list string) (t : Z) (w : World) : Z * string :=
  match fst (run_oracle w (runs w) cmd t) with
  | Completed rc out => (rc, or_empty out)
  | Raises (TimeoutExpired _ out err) =>
      (124, (or_empty out ++ or_empty err ++ nl ++ "[TIMEOUT]" ++ nl)%string)
  | Raises e => (127, ("[EXCEPTION] " ++ exn_str e ++ nl)%string)
  end.

Definition sudo_path (w : World) : string :=
  match which_sudo w with
  | Some path => if String.eqb path "" then "sudo" else path
  | None => "sudo"
  end.

Definition sudo_ran (cmd : list string) (t : Z) (w : World) : World :=
  ran (sudo_path w :: "-n" :: cmd) t w.

(** The world after [_snapshot] and after [_best_effort_cleanup]. *)
Definition snapshotted (w : World) : World :=
  ran ["scutil"; "--dns"] 3000
    (ran ["scutil"; "--proxy"] 3000
       (ran ["netstat"; "-rn"; "-f"; "inet"] 3000 w)).

Definition swept (w : World) : World :=
  slept 300
    (sudo_ran ["route"; "-n"; "delete"; "-inet"; "128.0.0.0/1"] 3000
    (sudo_ran ["route"; "-n"; "delete"; "-inet"; "0.0.0.0/1"] 3000
    (sudo_ran ["killall"; "-HUP"; "mDNSResponder"] 5000
    (sudo_ran ["dscacheutil"; "-flushcache"] 5000
    (sudo_ran ["pkill"; "-KILL"; "openvpn"] 3000
    (slept 200
    (sudo_ran ["pkill"; "-TERM"; "openvpn"] 3000 w))))))).

Definition cleaned (verbose : bool) (w : World) : World :=
  if verbose then snapshotted (swept w) else swept w.

(** The calls of one quiet cleanup, newest first. *)
Definition cleanup_events (sudo : string) : list Event :=
  [ EvSleep 300;
    EvRun [sudo; "-n"; "route"; "-n"; "delete"; "-inet"; "128.0.0.0/1"] 3000;
    EvRun [sudo; "-n"; "route"; "-n"; "delete"; "-inet"; "0.0.0.0/1"] 3000;
    EvRun [sudo; "-n"; "killall"; "-HUP"; "mDNSResponder"] 5000;
    EvRun [sudo; "-n"; "dscacheutil"; "-flushcache"] 5000;
    EvRun [sudo; "-n"; "pkill"; "-KILL"; "openvpn"] 3000;
    EvSleep 200;
    EvRun [sudo; "-n"; "pkill"; "-TERM"; "openvpn"] 3000 ].

(** The recorded status agrees with the operating system: a child with a
    return code has exited. *)
Definition consistent (w : World) : Prop :=
  forall rc, returncode (child w) = Some rc ->
             OS.exited_by (now w) (child w) = Some rc.

(** What every call but [Popen] and [watcher.start()] leaves alone. *)
Record frame (w w' : World) : Prop := mkFrame {
  fr_nt : os_nt w' = os_nt w;
  fr_sudo : which_sudo w' = which_sudo w;
  fr_watcher : watcher w' = watcher w;
  fr_beh : behaviour (child w') = behaviour (child w);
  fr_pid : pid (child w') = pid (child w);
  fr_launched : launched (child w') = launched (child w);
  fr_now : now w <= now w';
  fr_rc : forall rc, returncode (child w) = Some rc ->
                     returncode (child w') = Some rc;
  fr_consistent : consistent w -> consistent w';
  fr_trace : exists d, trace w' = d ++ trace w
}.

(** [SIGKILL] can reach the child and ends it. *)
Definition kill_effective (w : World) : bool :=
  let b := behaviour (child w) in
  match reacts b SIGKILL with
  | None => false
  | Some _ =>
      if os_nt w then negb (send_signal_raises b SIGKILL)
      else negb (killpg_raises b SIGKILL) || negb (send_signal_raises b SIGKILL)
  end.

Definition Signal_eqb (a b : Signal) : bool :=
  match a, b with
  | SIGINT, SIGINT | SIGTERM, SIGTERM | SIGKILL, SIGKILL => true
  | _, _ => false
  end.

(** The calls of one best-effort delivery of [sig], oldest first: the
    group signal or the direct one, then possibly the direct fallback. *)
Definition after_attempt (sig : Signal) (l : list Event) : option (list Event) :=
  match l with
  | EvKillpg s :: EvSendSignal s' :: rest =>
      if Signal_eqb s sig && Signal_eqb s' sig then Some rest else None
  | EvSendSignal s :: EvSendSignal s' :: rest =>
      if Signal_eqb s sig && Signal_eqb s' sig then Some rest else None
  | EvKillpg s :: rest => if Signal_eqb s sig then Some rest else None
  | EvSendSignal s :: rest => if Signal_eqb s sig then Some rest else None
  | _ => None
  end.

(** The calls of an escalation, oldest first: [SIGINT] and a wait of
    [g1]; if that timed out [SIGTERM] and a wait of [g2]; if that timed
    out [SIGKILL] and an unbounded wait. *)
Definition ladder (g1 g2 : Z) (l : list Event) : bool :=
  match after_attempt SIGINT l with
  | Some [EvWait (Some t)] => t =? g1
  | Some (EvWait (Some t) :: l1) =>
      (t =? g1)
      && match after_attempt SIGTERM l1 with
         | Some [EvWait (Some t')] => t' =? g2
         | Some (EvWait (Some t') :: l2) =>
             (t' =? g2)
             && match after_attempt SIGKILL l2 with
                | Some [EvWait None] => true
                | _ => false
                end
         | _ => false
         end
  | _ => false
  end.

(** The calls of one best-effort delivery of [sig], as a predicate. *)
Definition attempts (sig : Signal) (a : list Event) : Prop :=
  a = [EvKillpg sig] \/ a = [EvKillpg sig; EvSendSignal sig]
  \/ a = [EvSendSignal sig] \/ a = [EvSendSignal sig; EvSendSignal sig].

(** The world at the deadline check of a turn of the init loop, and at
    the call of the stopper when the deadline has passed. *)
Definition checked (w : World) : World :=
  log EvMonotonic (polled (log EvIsSet w)).

(** A failed attempt has been cleared away: the child is reaped and the
    last calls made are those of a cleanup, followed at most by the
    commands of a snapshot. *)
Definition is_run (e : Event) : bool :=
  match e with
  | EvRun _ _ => true
  | _ => false
  end.

Definition cleanup_last (w : World) : Prop :=
  exists post pre,
    trace w = post ++ cleanup_events (sudo_path w) ++ pre
    /\ forallb is_run post = true.

Definition reaped (w : World) : Prop :=
  exists rc, returncode (child w) = Some rc
             /\ OS.exited_by (now w) (child w) = Some rc.

Definition cleared (r : OpenVpnResult) (w : World) : Prop :=
  ok r = false /\ proc r = None /\ reaped w /\ cleanup_last w.

(** The world after one [socket.create_connection], and whether it
    connected. *)
Definition connected (host : string) (port t : Z) (w : World) : World :=
  advance (snd (connect_oracle w (connects w) host port t))
          (set_connects (S (connects w)) (log (EvConnect host port t) w)).

Definition connect_ok (host : string) (port t : Z) (w : World) : bool :=
  fst (connect_oracle w (connects w) host port t).

(** Whether [route -n get ip] succeeds and names a [utun] interface. *)
Definition route_cmd (ip : string) : list string := ["route"; "-n"; "get"; ip].

Definition route_ok (ip : string) (w : World) : bool :=
  let '(rc, out) := run_answer (route_cmd ip) 3000 w in
  (rc =? 0) && search_utun out.

Definition curl_cmd : list string :=
  ["curl"; "-sS"; "--noproxy"; "*"; "https://api.ipify.org?format=json"].

(** The world after [subprocess.Popen(argv)] and after the watcher was
    started. *)
Definition spawned (argv : list string) (w : World) : World :=
  let c := child w in
  let e := match exits (behaviour c) with
           | Some (d, rc) => Some (now w + Z.max 0 d, rc)
           | None => None
           end in
  set_child (mkChild (behaviour c) (pid c) (Some (now w)) e None)
            (log (EvPopen argv) w).

Definition watching (needle : string) (verbose : bool) (w : World) : World :=
  set_watcher (Some (Watcher.new needle verbose 300)) (log EvWatcherStart w).

(** The tags a reason of [open_vpn] begins with. *)
Definition reason_tags : list string :=
  [ "openvpn-exited-early rc="; "timeout-waiting-init final_rc=";
    "exited-after-init rc="; "died-during-probe rc=";
    "init-seen-but-probe-failed: "; "initialized" ].

Definition known_tag (reason : string) : bool :=
  existsb (fun tag => String.prefix tag reason) reason_tags.

(** ** Concrete worlds *)

(** An environment in which every command succeeds silently and every
    connection is made, both in no time. *)
Definition quiet_run : nat -> list string -> Z -> RunOutcome * Z :=
  fun _ _ _ => (Completed 0 (Some ""), 0).

Definition quiet_connect : nat -> string -> Z -> Z -> bool * Z :=
  fun _ _ _ _ => (true, 0).

(** The world before a connect attempt whose child will behave as [b]. *)
Definition world_of (b : Behaviour) : World :=
  mkWorld 0 [] quiet_run 0 quiet_connect 0 (Some "/usr/bin/sudo") false
          (mkChild b 4242 None None None) None.

Definition marker : string := "Initialization Sequence Completed".

(** The same world once the child is launched and watched. *)
Definition supervised (b : Behaviour) : World :=
  watching marker false (spawned [] (world_of b)).

(** A child that exits with status 1 at once, having written nothing,
    and whose output stream is never seen to end. *)
Definition dies_at_once : Behaviour :=
  mkBehaviour (Some (0, 1)) (fun _ => None) (fun _ => false) (fun _ => false)
              [] None.

(** A child that writes the marker line and exits with status 0, both at
    once. *)
Definition ready_then_dead : Behaviour :=
  mkBehaviour (Some (0, 0)) (fun _ => None) (fun _ => false) (fun _ => false)
              [(0, (marker ++ nl)%string)] (Some 0).

(** ** Independence from the end of the stream *)

(** The same world, but with the watcher seeing the end of the stream at
    [e] (or never, for [None]): the only thing [exit_event] depends on. *)
Definition eof_child (e : option Z) (c : Child) : Child :=
  let b := behaviour c in
  mkChild (mkBehaviour (exits b) (reacts b) (killpg_raises b)
                       (send_signal_raises b) (output b) e)
          (pid c) (launched c) (exit_at c) (returncode c).

Definition with_eof (e : option Z) (w : World) : World :=
  set_child (eof_child e (child w)) w.

Definition lift_out {A} (f : World -> World) (o : Out A) : Out A :=
  match o with
  | Ok a w => Ok a (f w)
  | Exc e w => Exc e (f w)
  | Hang => Hang
  | OutOfFuel => OutOfFuel
  end.

(** A computation that makes the same calls and gives the same answer
    whenever the end of the stream is seen. *)
Definition eof_blind {A} (m : M A) : Prop :=
  forall e w, m (with_eof e w) = lift_out (with_eof e) (m w).

Definition handler_blind {A} (h : Exn -> option (M A)) : Prop :=
  forall x, match h x with
            | Some hx => eof_blind hx
            | None => True
            end.

(** The scenarios of the specification. *)
Definition utun_run : nat -> list string -> Z -> RunOutcome * Z :=
  fun _ _ _ => (Completed 0 (Some "  interface: utun4"), 0).

Definition world_with (run : nat -> list string -> Z -> RunOutcome * Z)
    (b : Behaviour) : World :=
  mkWorld 0 [] run 0 quiet_connect 0 (Some "/usr/bin/sudo") false
          (mkChild b 4242 None None None) None.

Definition yields_to_sigint (sig : Signal) : option (Z * Z) :=
  match sig with
  | SIGINT => Some (100, 0)
  | _ => None
  end.

(** A: the marker appears after 2 s and the child keeps running. *)
Definition ready_at_2s : Behaviour :=
  mkBehaviour None yields_to_sigint (fun _ => false) (fun _ => false)
              [(2000, (marker ++ nl)%string)] None.

(** B: the child writes a line, then exits with status 1 after 1 s. *)
Definition dies_at_1s : Behaviour :=
  mkBehaviour (Some (1000, 1)) (fun _ => None) (fun _ => false)
              (fun _ => false) [(500, ("auth failed" ++ nl)%string)] (Some 1000).

(** C: the marker never appears. *)
Definition never_ready : Behaviour :=
  mkBehaviour None yields_to_sigint (fun _ => false) (fun _ => false)
              [(500, ("connecting" ++ nl)%string)] None.

Definition outcome (o : Out OpenVpnResult) : option OpenVpnResult :=
  match o with
  | Ok r _ => Some r
  | _ => None
  end.

(** A child whose output stream ends at once (the watcher sets [exited]
    at once) but which keeps running and never writes the marker. *)
Definition closes_stream_early : Behaviour :=
  mkBehaviour None yields_to_sigint (fun _ => false) (fun _ => false)
              [] (Some 0).

(** ** Printing of commands *)

(** Characters matched by [\w] in ASCII text, and those the class
    [[^\w@%+=:,./-]] of [shlex_quote] does not match. *)
Definition is_word (c : ascii) : bool :=
  let n := nat_of_ascii c in
  (((48 <=? n) && (n <=? 57)) || ((65 <=? n) && (n <=? 90))
   || ((97 <=? n) && (n <=? 122)) || (n =? 95))%nat.

Definition is_safe (c : ascii) : bool :=
  is_word c
  || existsb (Ascii.eqb c)
       ["@"; "%"; "+"; "="; ":"; ","; "."; "/"; "-"]%char.

Fixpoint all_safe (s : string) : bool :=
  match s with
  | EmptyString => true
  | String c rest => is_safe c && all_safe rest
  end.

Definition squote : string := String "039"%char "".

(** [s.replace("'", "'\"'\"'")]. *)
Fixpoint replace_squote (s : string) : string :=
  match s with
  | EmptyString => EmptyString
  | String c rest =>
      if Ascii.eqb c "039"%char
      then (squote ++ dquote ++ squote ++ dquote ++ squote
            ++ replace_squote rest)%string
      else String c (replace_squote rest)
  end.

Definition shlex_quote (s : string) : string :=
  if String.eqb s "" then (squote ++ squote)%string
  else if negb (all_safe s) then (squote ++ replace_squote s ++ squote)%string
  else s.

Definition _cmd_str (cmd : list string) : string :=
  String.concat " " (map shlex_quote cmd).

(** ** What the regular expressions match *)

Fixpoint all_space (s : string) : bool :=
  match s with
  | EmptyString => true
  | String c rest => Py.is_space c && all_space rest
  end.

Fixpoint no_dquote (s : string) : bool :=
  match s with
  | EmptyString => true
  | String c rest => negb (Ascii.eqb c "034"%char) && no_dquote rest
  end.

(** A text with a match of [interface:\s+utun\d+]. *)
Definition utun_line (out : string) : Prop :=
  exists pre ws d rest,
    out = (pre ++ "interface:" ++ ws ++ "utun" ++ String d rest)%string
    /\ ws <> "" /\ all_space ws = true /\ Py.is_digit d = true.

(** The answer of ipify: the key [ip] and its value, both in double
    quotes, with optional whitespace around the colon. *)
Definition ip_json (pre ws1 ws2 ip post : string) : string :=
  (pre ++ (dquote ++ "ip" ++ dquote) ++ ws1 ++ ":" ++ ws2
   ++ dquote ++ ip ++ dquote ++ post)%string.

Definition ipify_run : nat -> list string -> Z -> RunOutcome * Z :=
  fun _ _ _ => (Completed 0 (Some (ip_json "{" "" "" "203.0.113.7" "}")), 0).

(** ** Calls that leave the child alone *)

(** Calls other than a launch, a signal and a wait. *)
Definition calm (e : Event) : bool :=
  match e with
  | EvPopen _ | EvKillpg _ | EvSendSignal _ | EvWait _ => false
  | _ => true
  end.

(** From [w] to [w'] the record of the child and the watcher are
    untouched and only calm calls were made. *)
Record still (w w' : World) : Prop := mkStill {
  st_child : child w' = child w;
  st_watcher : watcher w' = watcher w;
  st_now : now w <= now w';
  st_trace : exists d, trace w' = d ++ trace w /\ forallb calm d = true
}.

(** [extra_openvpn_args or []]. *)
Definition given_args (extra : option (list string)) : list string :=
  match extra with
  | Some (x :: l) => x :: l
  | _ => []
  end.

(** At [w] the route to 1.1.1.1 uses a [utun] interface and, right after
    that check, both targets accept a connection within [t]. *)
Definition probe_passed (w : World) (t : Z) : Prop :=
  let w0 := ran (route_cmd "1.1.1.1") 3000 w in
  let w1 := connected "api.ipify.org" 443 t (log EvMonotonic w0) in
  route_ok "1.1.1.1" w = true
  /\ connect_ok "api.ipify.org" 443 t (log EvMonotonic w0) = true
  /\ connect_ok "1.1.1.1" 443 t w1 = true.

(** * Configuration files: [connection.py], [list_configs.py] *)

(** Exceptions of the pure helpers, and results that may raise. *)
Inductive PyErr :=
| ValueError (msg : string)
| OSError (msg : string)
| IndexError (msg : string).

Definition Res (A : Type) : Type := (A + PyErr)%type.

(** [re.split(r"\d+", s)[0]]: the text before the first digit. *)
Fixpoint before_digit (s : string) : string :=
  match s with
  | EmptyString => EmptyString
  | String c rest => if Py.is_digit c then EmptyString
                     else String c (before_digit rest)
  end.

Fixpoint has_digit (s : string) : bool :=
  match s with
  | EmptyString => false
  | String c rest => Py.is_digit c || has_digit rest
  end.

(** A [dict] whose values are lists, in insertion order. *)
Fixpoint lookup {A} (k : string) (d : list (string * A)) : option A :=
  match d with
  | [] => None
  | (k', v) :: rest => if String.eqb k' k then Some v else lookup k rest
  end.

(** [out.setdefault(key, []).append(x)]. *)
Fixpoint setdefault_append {A} (key : string) (x : A)
    (out : list (string * list A)) : list (string * list A) :=
  match out with
  | [] => [(key, [x])]
  | (k, xs) :: rest =>
      if String.eqb k key then (k, xs ++ [x]) :: rest
      else (k, xs) :: setdefault_append key x rest
  end.

(** The loop [for config in configs: out.setdefault(country, []).append(config)]. *)
Definition group_by {A} (key : A -> string) (configs : list A)
  : list (string * list A) :=
  fold_left (fun out x => setdefault_append (key x) x out) configs [].

(** What [os.listdir] answers for the two folders of the bundle. *)
Record ConfigDirs := mkDirs {
  ovpn_tcp : Res (list string);
  ovpn_udp : Res (list string)
}.

Module Connection.

(** [connection.get_vpn_configs]. *)
Definition get_vpn_configs (dirs : ConfigDirs) (only_tcp only_udp : bool)
  : Res (list string) :=
  if only_tcp && only_udp
  then inr (ValueError "only_tcp and only_udp cannot be True at the same time")
  else
    match ovpn_tcp dirs with
    | inr e => inr e
    | inl tcp_files =>
        match ovpn_udp dirs with
        | inr e => inr e
        | inl udp_files =>
            if only_tcp then inl tcp_files
            else if only_udp then inl udp_files
            else inl (tcp_files ++ udp_files)
        end
    end.

(** [connection.get_vpn_configs_per_country]. *)
Definition get_vpn_configs_per_country (dirs : ConfigDirs)
    (only_tcp only_udp : bool) : Res (list (string * list string)) :=
  match get_vpn_configs dirs only_tcp only_udp with
  | inr e => inr e
  | inl configs => inl (group_by before_digit configs)
  end.

End Connection.

(** ** [list_configs.py] *)

Inductive ConnectionType := TCP | UDP.

Definition value (t : ConnectionType) : string :=
  match t with
  | TCP => "tcp"
  | UDP => "udp"
  end.

Record VpnConfig := mkConfig {
  server_id : string;
  connection_type : ConnectionType
}.

(** [self.name], set by [__post_init__]. *)
Definition name (c : VpnConfig) : string :=
  (server_id c ++ ".nordvpn.com." ++ value (connection_type c))%string.

(** The property [country]. *)
Definition country (c : VpnConfig) : string := before_digit (name c).

(** [s.split(".")[0]]. *)
Fixpoint before_dot (s : string) : string :=
  match s with
  | EmptyString => EmptyString
  | String c rest => if Ascii.eqb c "." then EmptyString
                     else String c (before_dot rest)
  end.

(** [s.endswith(suffix)]. *)
Fixpoint endswith (s suffix : string) : bool :=
  String.eqb s suffix
  || match s with
     | EmptyString => false
     | String _ rest => endswith rest suffix
     end.

(** [VpnConfig.from_name]. *)
Definition from_name (n : string) : Res VpnConfig :=
  if negb (endswith n ".nordvpn.com.tcp") && negb (endswith n ".nordvpn.com.udp")
  then inr (ValueError
              ("Invalid name: " ++ n
               ++ ". Must look like: ad1.nordvpn.com.tcp, us1013.nordvpn.com.udp, etc.")%string)
  else inl (mkConfig (before_dot n)
                     (if Py.contains "tcp" n then TCP else UDP)).

(** [VpnConfig.from_file_name]. *)
Definition from_file_name (file_name : string) : VpnConfig :=
  mkConfig (before_dot file_name)
           (if Py.contains "tcp" file_name then TCP else UDP).

(** Equality of two configs, as the dataclass defines it. *)
Definition ConnectionType_eqb (a b : ConnectionType) : bool :=
  match a, b with
  | TCP, TCP | UDP, UDP => true
  | _, _ => false
  end.

Definition config_eqb (a b : VpnConfig) : bool :=
  String.eqb (server_id a) (server_id b)
  && ConnectionType_eqb (connection_type a) (connection_type b).

Fixpoint no_dot (s : string) : bool :=
  match s with
  | EmptyString => true
  | String c rest => negb (Ascii.eqb c ".") && no_dot rest
  end.

(** ** Paths *)

Fixpoint has_slash (s : string) : bool :=
  match s with
  | EmptyString => false
  | String c rest => Ascii.eqb c "/" || has_slash rest
  end.

(** [os.path.join(a, b)] on POSIX; with more components it is applied
    from left to right. *)
Definition join2 (a b : string) : string :=
  if String.prefix "/" b then b
  else if String.eqb a "" || endswith a "/" then (a ++ b)%string
  else (a ++ "/" ++ b)%string.

(** [os.path.basename(p)]: the text after the last slash. *)
Fixpoint basename (p : string) : string :=
  match p with
  | EmptyString => EmptyString
  | String c rest =>
      if has_slash rest then basename rest
      else if Ascii.eqb c "/" then rest
      else p
  end.

(** The property [file_path]; [here] is
    [os.path.dirname(os.path.abspath(__file__))], the same directory for
    all modules of the package. *)
Definition file_path (here : string) (c : VpnConfig) : string :=
  join2 (join2 (join2 here "configs")
               ("ovpn_" ++ value (connection_type c))%string)
        (name c ++ ".ovpn")%string.

Module ListConfigs.

Definition _get_vpn_config_paths (dirs : ConfigDirs) (only_tcp only_udp : bool)
  : Res (list string) :=
  if only_tcp && only_udp
  then inr (ValueError "only_tcp and only_udp cannot be True at the same time")
  else
    match ovpn_tcp dirs with
    | inr e => inr e
    | inl tcp_files =>
        match ovpn_udp dirs with
        | inr e => inr e
        | inl udp_files =>
            if only_tcp then inl tcp_files
            else if only_udp then inl udp_files
            else inl (tcp_files ++ udp_files)
        end
    end.

Definition get_vpn_configs (dirs : ConfigDirs) (only_tcp only_udp : bool)
  : Res (list VpnConfig) :=
  match _get_vpn_config_paths dirs only_tcp only_udp with
  | inr e => inr e
  | inl paths => inl (map (fun path => from_file_name (basename path)) paths)
  end.

Definition get_vpn_configs_per_country (dirs : ConfigDirs)
    (only_tcp only_udp : bool) : Res (list (string * list VpnConfig)) :=
  match get_vpn_configs dirs only_tcp only_udp with
  | inr e => inr e
  | inl configs => inl (group_by country configs)
  end.

End ListConfigs.

(** [random.choice(seq)]; [i] is the number the generator draws. *)
Definition choice {A} (i : nat) (seq : list A) : Res A :=
  match seq with
  | [] => inr (IndexError "Cannot choose from an empty sequence")
  | x :: _ => inl (nth (i mod List.length seq) seq x)
  end.

(** [connection.get_random_vpn_config]; [coin] and [pick] are the two
    draws of the generator. *)
Definition get_random_vpn_config (here : string) (dirs : ConfigDirs)
    (only_tcp only_udp : bool) (coin pick : nat) : Res string :=
  if only_tcp && only_udp
  then inr (ValueError "only_tcp and only_udp cannot be True at the same time")
  else
    let dir_path := join2 here "configs" in
    let tcp_dir := join2 dir_path "ovpn_tcp" in
    let udp_dir := join2 dir_path "ovpn_udp" in
    match ovpn_tcp dirs with
    | inr e => inr e
    | inl tcp_configs =>
        match ovpn_udp dirs with
        | inr e => inr e
        | inl udp_configs =>
            let use_tcp :=
              if only_tcp then true
              else if only_udp then false
              else nth (coin mod 2) [true; false] true in
            let folder := if use_tcp then tcp_dir else udp_dir in
            match choice pick (if use_tcp then tcp_configs else udp_configs) with
            | inr e => inr e
            | inl cfg => inl (join2 folder cfg)
            end
        end
    end.

(** ** [vpn_manager.py] *)

Definition config_eq_dec (a b : VpnConfig) : {a = b} + {a <> b}.
Proof.
  decide equality; [decide equality | apply string_dec].
Defined.

(** A [set] of configs, as far as membership goes. *)
Definition set_of (l : list VpnConfig) : list VpnConfig := nodup config_eq_dec l.

Definition mem_config (c : VpnConfig) (l : list VpnConfig) : bool :=
  existsb (config_eqb c) l.

Definition mem_str (x : string) (l : list string) : bool :=
  existsb (String.eqb x) l.

Module VpnManagerUtilities.

Definition get_ovpn_path (here server_id : string)
    (connection_type : ConnectionType) : string :=
  let folder := match connection_type with
                | TCP => "ovpn_tcp"
                | UDP => "ovpn_udp"
                end in
  let dir_path := join2 here "configs" in
  let fname := (server_id ++ ".nordvpn.com." ++ value connection_type
                ++ ".ovpn")%string in
  join2 (join2 dir_path folder) fname.

(** [except (FileNotFoundError, OSError)]: both are [OSError]s. *)
Definition config_files_are_present (dirs : ConfigDirs) : Res bool :=
  match ovpn_tcp dirs with
  | inr (OSError _) => inl false
  | inr e => inr e
  | inl tcp_files =>
      match ovpn_udp dirs with
      | inr (OSError _) => inl false
      | inr e => inr e
      | inl udp_files =>
          inl ((0 <? List.length tcp_files)%nat
               && (0 <? List.length udp_files)%nat)
      end
  end.

End VpnManagerUtilities.

Module VpnConnectionsHistory.

(** The [deque(maxlen=100)], oldest entry first. *)
Definition maxlen : nat := 100.

Definition t := list VpnConfig.

Definition init : t := [].

(** [self.history.append(config)]: a full deque drops its oldest entry. *)
Definition add (config : VpnConfig) (history : t) : t :=
  if (maxlen <=? List.length history)%nat then tl history ++ [config]
  else history ++ [config].

Definition get_history (last_n : Z) (history : t) : Res (list VpnConfig) :=
  if last_n <=? 0
  then inr (ValueError "last_n cannot be less than or equal to 0")
  else if last_n >? Z.of_nat maxlen
  then inr (ValueError ("last_n cannot be greater than "
                        ++ Py.str (Z.of_nat maxlen))%string)
  else inl (set_of (Py.slice_from (- last_n) history)).

End VpnConnectionsHistory.

Module VpnManager.

(** [VpnManager.disconnect], on the field [self.proc]; the result is the
    new value of the field. *)
Definition disconnect (proc : option Popen) : M (option Popen) :=
  match proc with
  | Some p => (close_vpn p false ;; ret None)%monad
  | None => ret None
  end.

Definition rbind {A B} (r : Res A) (k : A -> Res B) : Res B :=
  match r with
  | inl a => k a
  | inr e => inr e
  end.

(** [[VpnConfig.from_name(name) if isinstance(name, str) else name
      for name in hosts]]. *)
Fixpoint parse_hosts (hosts : list (string + VpnConfig)) : Res (list VpnConfig) :=
  match hosts with
  | [] => inl []
  | h :: rest =>
      rbind (match h with
             | inl n => from_name n
             | inr c => inl c
             end) (fun c =>
      rbind (parse_hosts rest) (fun cs => inl (c :: cs)))
  end.

(** [VpnManager._connect_to_random_vpn] up to the choice of the server:
    the available servers, the five filters, the check that a server is
    left, and [random.choice].  [pick] is the draw of the generator. *)
Definition choose_server (dirs : ConfigDirs) (history : VpnConnectionsHistory.t)
    (country_blacklist country_whitelist : option (list string))
    (host_blacklist host_whitelist : option (list (string + VpnConfig)))
    (only_tcp only_udp : bool) (avoid_last_n_servers : Z) (pick : nat)
  : Res VpnConfig :=
  rbind (ListConfigs.get_vpn_configs dirs only_tcp only_udp) (fun configs =>
  let configs :=
    match country_blacklist with
    | Some bl => filter (fun config => negb (mem_str (country config) bl)) configs
    | None => configs
    end in
  let configs :=
    match country_whitelist with
    | Some wl => filter (fun config => mem_str (country config) wl) configs
    | None => configs
    end in
  rbind (match host_blacklist with
         | Some hosts =>
             rbind (parse_hosts hosts) (fun hosts =>
             inl (filter (fun config => negb (mem_config config (set_of hosts)))
                         configs))
         | None => inl configs
         end) (fun configs =>
  rbind (match host_whitelist with
         | Some hosts =>
             rbind (parse_hosts hosts) (fun hosts =>
             inl (filter (fun config => mem_config config (set_of hosts))
                         configs))
         | None => inl configs
         end) (fun configs =>
  rbind (if avoid_last_n_servers >? 0
         then rbind (VpnConnectionsHistory.get_history avoid_last_n_servers history)
                    (fun recent =>
              inl (filter (fun config => negb (mem_config config recent)) configs))
         else inl configs) (fun configs =>
  if (List.length configs =? 0)%nat
  then inr (ValueError "No available servers found")
  else choice pick configs)))).

End VpnManager.

(** The last [k] elements of a list. *)
Definition lastn {A} (k : nat) (l : list A) : list A :=
  skipn (List.length l - k) l.

(** The history after the configs [added], oldest first, were added to a
    new history. *)
Definition history_after (added : list VpnConfig) : VpnConnectionsHistory.t :=
  fold_left (fun h c => VpnConnectionsHistory.add c h) added
            VpnConnectionsHistory.init.

(** A file name as the bundle has them: a digit before the first dot and
    no slash. *)
Definition plain (file : string) : bool :=
  has_digit (before_dot file) && negb (has_slash file).

(** How a grouping of files becomes a grouping of configs. *)
Definition parse_groups (d : list (string * list string))
  : list (string * list VpnConfig) :=
  map (fun g => (fst g, map (fun f => from_file_name (basename f)) (snd g))) d.

(** A dictionary [d] groups the list [l] by [key]: a key is mapped to the
    elements with that key, in their order in [l], and only keys that
    occur are present; the keys are distinct and nothing is lost or
    repeated. *)
Definition partitions {A} (key : A -> string) (l : list A)
    (d : list (string * list A)) : Prop :=
  (forall k,
     lookup k d
     = match filter (fun x => String.eqb (key x) k) l with
       | [] => None
       | g => Some g
       end)
  /\ NoDup (map fst d)
  /\ Permutation (List.concat (map snd d)) l.

(** The blocks of the server selection, one per filter. *)
Definition drop_countries (bl : option (list string)) (configs : list VpnConfig)
  : list VpnConfig :=
  match bl with
  | Some bl => filter (fun config => negb (mem_str (country config) bl)) configs
  | None => configs
  end.

Definition keep_countries (wl : option (list string)) (configs : list VpnConfig)
  : list VpnConfig :=
  match wl with
  | Some wl => filter (fun config => mem_str (country config) wl) configs
  | None => configs
  end.

Definition drop_hosts (hb : option (list (string + VpnConfig)))
    (configs : list VpnConfig) : Res (list VpnConfig) :=
  match hb with
  | Some hosts =>
      VpnManager.rbind (VpnManager.parse_hosts hosts) (fun hosts =>
      inl (filter (fun config => negb (mem_config config (set_of hosts))) configs))
  | None => inl configs
  end.

Definition keep_hosts (hw : option (list (string + VpnConfig)))
    (configs : list VpnConfig) : Res (list VpnConfig) :=
  match hw with
  | Some hosts =>
      VpnManager.rbind (VpnManager.parse_hosts hosts) (fun hosts =>
      inl (filter (fun config => mem_config config (set_of hosts)) configs))
  | None => inl configs
  end.

Definition drop_recent (avoid_last_n_servers : Z)
    (history : VpnConnectionsHistory.t) (configs : list VpnConfig)
  : Res (list VpnConfig) :=
  if avoid_last_n_servers >? 0
  then VpnManager.rbind
         (VpnConnectionsHistory.get_history avoid_last_n_servers history)
         (fun recent =>
            inl (filter (fun config => negb (mem_config config recent)) configs))
  else inl configs.

(** The servers the selection may return: listed, of a country that is
    not black-listed and is white-listed, not a black-listed host and a
    white-listed one (the lists of hosts being well formed), and not among
    the last [avoid] entries of the history. *)
Definition eligible (dirs : ConfigDirs) (history : VpnConnectionsHistory.t)
    (country_blacklist country_whitelist : option (list string))
    (host_blacklist host_whitelist : option (list (string + VpnConfig)))
    (only_tcp only_udp : bool) (avoid : Z) (c : VpnConfig) : Prop :=
  (exists configs,
     ListConfigs.get_vpn_configs dirs only_tcp only_udp = inl configs
     /\ In c configs)
  /\ (forall bl, country_blacklist = Some bl -> ~ In (country c) bl)
  /\ (forall wl, country_whitelist = Some wl -> In (country c) wl)
  /\ (forall hosts, host_blacklist = Some hosts ->
        exists parsed, VpnManager.parse_hosts hosts = inl parsed
                       /\ ~ In c parsed)
  /\ (forall hosts, host_whitelist = Some hosts ->
        exists parsed, VpnManager.parse_hosts hosts = inl parsed
                       /\ In c parsed)
  /\ (0 < avoid -> avoid <= 100 /\ ~ In c (Py.slice_from (- avoid) history)).

(** The lines that [iter(self.stream.readline, "")] yields: those before
    the first empty read. *)
Fixpoint read_lines (stream : list string) : list string :=
  match stream with
  | [] => []
  | line :: rest =>
      if String.eqb line "" then [] else line :: read_lines rest
  end.

(** From [w] to [w'] the child is the same launch, the clock did not go
    back and calls were only added; [calmly] when all of them are calm. *)
Definition later (w w' : World) : Prop :=
  launched (child w') = launched (child w)
  /\ now w <= now w'
  /\ exists d, trace w' = d ++ trace w.

Definition calmly (w w' : World) : Prop :=
  launched (child w') = launched (child w)
  /\ now w <= now w'
  /\ exists d, trace w' = d ++ trace w /\ forallb calm d = true.

(** The result [r] reports, under [tag], the exit status that the handle
    holds in [w]. *)
Definition died (tag : string) (r : OpenVpnResult) (w : World) : Prop :=
  exists rc tl,
    reason r = (tag ++ Py.str rc ++ tail_label ++ tl)%string
    /\ returncode (child w) = Some rc.

(** A call that sends [sig], to the group or to the child. *)
Definition signals (sig : Signal) (e : Event) : bool :=
  match e with
  | EvKillpg s | EvSendSignal s => Signal_eqb s sig
  | _ => false
  end.

(** A child that ignores [SIGINT] and ends 100 ms after [SIGTERM]. *)
Definition stubborn : Behaviour :=
  mkBehaviour None
              (fun sig => match sig with
                          | SIGTERM => Some (100, 15)
                          | _ => None
                          end)
              (fun _ => false) (fun _ => false) [] None.

(** * Properties *)

Example str_neg : Py.str (-9) = "-9".
Proof. reflexivity. Qed.

Example slice_last2 : Py.slice_from (-2) [1; 2; 3] = [2; 3].
Proof. reflexivity. Qed.

Example slice_minus_zero : Py.slice_from (- 0) [1; 2; 3] = [1; 2; 3].
Proof. reflexivity. Qed.

Example fmt_2f_1234 : fmt_2f 1234 = "1.23".
Proof. reflexivity. Qed.

Example scenario_a :
  outcome (open_vpn "c.ovpn" "pass.txt" 25000 marker None false true true 8000
             (world_with utun_run ready_at_2s))
  = Some (mkResult true (Some 4242) "initialized+probe-ok").
Proof. vm_compute. reflexivity. Qed.

Example scenario_b :
  outcome (open_vpn "c.ovpn" "pass.txt" 25000 marker None false true true 8000
             (world_with quiet_run dies_at_1s))
  = Some (mkResult false None
            ("openvpn-exited-early rc=1" ++ tail_label ++ "auth failed" ++ nl)%string).
Proof. vm_compute. reflexivity. Qed.

Example scenario_c :
  outcome (open_vpn "c.ovpn" "pass.txt" 5000 marker None false true true 8000
             (world_with quiet_run never_ready))
  = Some (mkResult false None
            ("timeout-waiting-init final_rc=0" ++ tail_label
             ++ "connecting" ++ nl)%string).
Proof. vm_compute. reflexivity. Qed.

Example scenario_d :
  outcome (open_vpn "c.ovpn" "pass.txt" 25000 marker None false true true 2000
             (world_with quiet_run ready_at_2s))
  = Some (mkResult false None
            ("init-seen-but-probe-failed: route-to-1.1.1.1-not-utun; stopped rc=0"
             ++ tail_label ++ marker ++ nl)%string).
Proof. vm_compute. reflexivity. Qed.

(** ** The monad *)

Lemma bind_ok {A B} (m : M A) (k : A -> M B) w a w' :
  m w = Ok a w' -> bind m k w = k a w'.
Proof. intros H. unfold bind. now rewrite H. Qed.

Lemma bind_ok_inv {A B} (m : M A) (k : A -> M B) w b w' :
  bind m k w = Ok b w' -> exists a w1, m w = Ok a w1 /\ k a w1 = Ok b w'.
Proof.
  unfold bind. destruct (m w) as [a w1| | |]; try discriminate.
  intros H. now exists a, w1.
Qed.

(** ** The command runner *)

Lemma run_cmd_unchecked cmd t label pc v w :
  _run_cmd cmd t false label pc v w = Ok (run_answer cmd t w) (ran cmd t w).
Proof.
  unfold _run_cmd, try_except, bind, OS.subprocess_run, run_answer, ran.
  destruct (run_oracle w (runs w) cmd t) as [o d]. cbn [fst snd].
  destruct o as [rc out|e]; cbn.
  - reflexivity.
  - destruct e; reflexivity.
Qed.

Lemma sudo_cmd_unchecked cmd t label v w :
  _sudo_cmd cmd t false label v w = Ok (run_answer (sudo_path w :: "-n" :: cmd) t w) (sudo_ran cmd t w).
Proof.
  unfold _sudo_cmd, bind, OS.which_sudo. fold (sudo_path w).
  apply run_cmd_unchecked.
Qed.

Lemma sleep_ok ms w : OS.sleep ms w = Ok tt (slept ms w).
Proof. reflexivity. Qed.

Ltac run_binds :=
  unfold bind, ret;
  repeat first [ rewrite sudo_cmd_unchecked | rewrite run_cmd_unchecked
               | rewrite sleep_ok | progress cbn beta iota ].

Lemma snapshot_ok label v w : _snapshot label v w = Ok tt (snapshotted w).
Proof. unfold _snapshot. run_binds. reflexivity. Qed.

Lemma best_effort_cleanup_ok v w :
  _best_effort_cleanup v w = Ok (true, "cleanup-ok") (cleaned v w).
Proof.
  unfold _best_effort_cleanup, try_except, _kill_openvpn, _flush_dns,
    _delete_def1_routes, cleaned, swept.
  run_binds.
  destruct v.
  - rewrite snapshot_ok. reflexivity.
  - reflexivity.
Qed.

(** ** Frame facts *)

Lemma frame_refl w : frame w w.
Proof. constructor; auto; try lia. now exists []. Qed.

Lemma frame_trans w1 w2 w3 : frame w1 w2 -> frame w2 w3 -> frame w1 w3.
Proof.
  intros [] []. constructor; try congruence; try lia; auto.
  destruct fr_trace0 as [d1 E1], fr_trace1 as [d2 E2].
  exists (d2 ++ d1). now rewrite E2, E1, app_assoc.
Qed.

Lemma exited_by_mono t t' c rc :
  OS.exited_by t c = Some rc -> t <= t' -> OS.exited_by t' c = Some rc.
Proof.
  unfold OS.exited_by. destruct (exit_at c) as [[te r]|]; try discriminate.
  destruct (te <=? t) eqn:E; try discriminate. intros [= ->] H.
  apply Z.leb_le in E. replace (te <=? t') with true; auto.
  symmetry. apply Z.leb_le. lia.
Qed.

Lemma frame_log e w : frame w (log e w).
Proof. constructor; auto; cbn; try lia. now exists [e]. Qed.

Lemma frame_advance d w : frame w (advance d w).
Proof.
  constructor; auto; cbn; try lia.
  - unfold consistent. cbn. intros H rc E. eapply exited_by_mono; eauto. lia.
  - now exists [].
Qed.

Lemma frame_slept ms w : frame w (slept ms w).
Proof. eapply frame_trans; [apply frame_log | apply frame_advance]. Qed.

Lemma frame_ran cmd t w : frame w (ran cmd t w).
Proof.
  unfold ran. set (d := snd _). clearbody d.
  constructor; auto; cbn; try lia.
  - unfold consistent. cbn. intros H rc E. eapply exited_by_mono; eauto. lia.
  - now exists [EvRun cmd t].
Qed.

Lemma frame_sudo_ran cmd t w : frame w (sudo_ran cmd t w).
Proof. apply frame_ran. Qed.

Lemma frame_snapshotted w : frame w (snapshotted w).
Proof. unfold snapshotted. repeat (eapply frame_trans; [|apply frame_ran]). apply frame_refl. Qed.

Lemma frame_swept w : frame w (swept w).
Proof.
  unfold swept.
  eapply frame_trans; [|apply frame_slept].
  do 5 (eapply frame_trans; [|apply frame_sudo_ran]).
  eapply frame_trans; [|apply frame_slept].
  apply frame_sudo_ran.
Qed.

Lemma frame_cleaned v w : frame w (cleaned v w).
Proof.
  unfold cleaned. destruct v.
  - eapply frame_trans; [apply frame_swept | apply frame_snapshotted].
  - apply frame_swept.
Qed.

Lemma frame_polled w : frame w (polled w).
Proof.
  unfold polled. destruct (returncode (child w)) eqn:R.
  - apply frame_log.
  - destruct (OS.exited_by (now w) (child w)) eqn:E.
    + constructor; auto; cbn; try lia.
      * congruence.
      * unfold consistent. cbn. intros _ rc [= <-]. exact E.
      * now exists [EvPoll].
    + apply frame_log.
Qed.

Lemma trace_swept w : trace (swept w) = cleanup_events (sudo_path w) ++ trace w.
Proof. reflexivity. Qed.

Lemma child_swept w : child (swept w) = child w.
Proof. reflexivity. Qed.

Lemma child_cleaned v w : child (cleaned v w) = child w.
Proof. destruct v; reflexivity. Qed.

(** ** Primitives as equations *)

Lemma poll_ok p w : OS.poll p w = Ok (status w) (polled w).
Proof.
  unfold OS.poll, status, polled.
  destruct (returncode (child w)); auto.
  destruct (OS.exited_by (now w) (child w)); auto.
Qed.

Lemma is_set_ok w : OS.is_set w = Ok (seen w) (log EvIsSet w).
Proof. reflexivity. Qed.

Lemma tail_ok w : OS.tail w = Ok (tail_now w) (log EvTail w).
Proof. reflexivity. Qed.

Lemma monotonic_ok w : OS.monotonic w = Ok (now w) (log EvMonotonic w).
Proof. reflexivity. Qed.

Lemma status_polled w : status (polled w) = status w.
Proof.
  unfold status, polled.
  destruct (returncode (child w)) eqn:R; cbn; rewrite ?R; auto.
  destruct (OS.exited_by (now w) (child w)) eqn:E; cbn; rewrite ?R, ?E; auto.
Qed.

Lemma returncode_polled w rc :
  status w = Some rc -> returncode (child (polled w)) = Some rc.
Proof.
  unfold status, polled.
  destruct (returncode (child w)) eqn:R.
  - intros H. cbn. congruence.
  - destruct (OS.exited_by (now w) (child w)) eqn:E; intros H; cbn; congruence.
Qed.

(** ** The escalating stopper *)

Ltac conjs := repeat match goal with |- _ /\ _ => split end.

Lemma deliver_fields sig t c :
  behaviour (OS.deliver sig t c) = behaviour c
  /\ pid (OS.deliver sig t c) = pid c
  /\ launched (OS.deliver sig t c) = launched c
  /\ returncode (OS.deliver sig t c) = returncode c.
Proof.
  unfold OS.deliver.
  destruct (OS.exited_by t c); auto.
  destruct (reacts (behaviour c) sig) as [[d rc]|]; auto.
  destruct (exit_at c) as [[te0 r0]|]; auto.
  destruct (te0 <=? t + Z.max 0 d); auto.
Qed.

Lemma deliver_exit_kept sig t c :
  exit_at c <> None -> exit_at (OS.deliver sig t c) <> None.
Proof.
  unfold OS.deliver.
  destruct (OS.exited_by t c); auto.
  destruct (reacts (behaviour c) sig) as [[d rc]|]; auto.
  destruct (exit_at c) as [[te0 r0]|] eqn:E; try easy.
  destruct (te0 <=? t + Z.max 0 d); cbn; [now rewrite E | easy].
Qed.

Lemma deliver_reacts sig t c :
  reacts (behaviour c) sig <> None -> exit_at (OS.deliver sig t c) <> None.
Proof.
  unfold OS.deliver, OS.exited_by. intros H.
  destruct (reacts (behaviour c) sig) as [[d rc]|]; [|easy].
  destruct (exit_at c) as [[te0 r0]|] eqn:E.
  - destruct (te0 <=? t); [congruence|].
    destruct (te0 <=? t + Z.max 0 d); cbn; congruence.
  - cbn. congruence.
Qed.

Lemma deliver_exited sig t c rc :
  OS.exited_by t c = Some rc -> OS.deliver sig t c = c.
Proof. unfold OS.deliver. now intros ->. Qed.

Lemma frame_delivered sig e w :
  frame w (set_child (OS.deliver sig (now w) (child w)) (log e w)).
Proof.
  destruct (deliver_fields sig (now w) (child w)) as (B & P & L & R).
  constructor; cbn; auto; try lia.
  - congruence.
  - unfold consistent. cbn. intros H rc E. rewrite R in E.
    specialize (H rc E). now rewrite (deliver_exited _ _ _ _ H).
  - now exists [e].
Qed.

Lemma killpg_spec p sig w :
  match OS.killpg p sig w with
  | Ok _ w' =>
      killpg_raises (behaviour (child w)) sig = false
      /\ w' = set_child (OS.deliver sig (now w) (child w)) (log (EvKillpg sig) w)
  | Exc _ w' =>
      killpg_raises (behaviour (child w)) sig = true
      /\ w' = log (EvKillpg sig) w
  | _ => False
  end.
Proof. unfold OS.killpg. destruct (killpg_raises _ sig); auto. Qed.

(** What [proc.send_signal] leaves behind. *)
Lemma send_signal_spec p sig w :
  match OS.send_signal p sig w with
  | Ok _ w' =>
      frame w w' /\ now w' = now w
      /\ trace w' = EvSendSignal sig :: trace w
      /\ (exit_at (child w) <> None -> exit_at (child w') <> None)
      /\ (send_signal_raises (behaviour (child w)) sig = false ->
          reacts (behaviour (child w)) sig <> None ->
          returncode (child w') <> None \/ exit_at (child w') <> None)
  | Exc _ w' =>
      w' = log (EvSendSignal sig) w
      /\ send_signal_raises (behaviour (child w)) sig = true
  | _ => False
  end.
Proof.
  unfold OS.send_signal.
  destruct (returncode (child w)) as [rc|] eqn:R.
  - conjs; auto using frame_log. intros _ _. left. cbn. congruence.
  - destruct (OS.exited_by (now w) (child w)) as [rc|] eqn:E.
    + conjs; cbn; auto.
      * pose proof (frame_polled w) as F. unfold polled in F.
        rewrite R, E in F.
        destruct F. constructor; cbn in *; auto.
        destruct fr_trace0 as [d Hd]. now exists [EvSendSignal sig].
      * intros _ _. left. easy.
    + destruct (send_signal_raises (behaviour (child w)) sig) eqn:S.
      * auto.
      * conjs; cbn; auto using frame_delivered, deliver_exit_kept.
        intros _ H. right. now apply deliver_reacts.
Qed.

Lemma signal_best_effort_spec p sig w :
  exists w', signal_best_effort p sig w = Ok tt w'
    /\ frame w w' /\ now w' = now w
    /\ (exists a, attempts sig a /\ trace w' = rev a ++ trace w)
    /\ (exit_at (child w) <> None -> exit_at (child w') <> None)
    /\ (sig = SIGKILL -> kill_effective w = true ->
        returncode (child w') <> None \/ exit_at (child w') <> None).
Proof.
  unfold signal_best_effort, try_except, _send_signal_to_process_group, bind,
    OS.is_nt, kill_effective.
  destruct (os_nt w) eqn:NT.
  - (* nt: send_signal, then send_signal again if it raised *)
    pose proof (send_signal_spec p sig w) as H1.
    destruct (OS.send_signal p sig w) as [[] w1|e w1| |]; try contradiction.
    + destruct H1 as (F & N & T & X & K).
      exists w1. conjs; auto.
      * exists [EvSendSignal sig]. split; [unfold attempts; auto|exact T].
      * intros -> HK. apply K.
        -- destruct (reacts _ SIGKILL); try discriminate.
           now destruct (send_signal_raises _ SIGKILL).
        -- now destruct (reacts _ SIGKILL).
    + destruct H1 as (-> & S1).
      pose proof (send_signal_spec p sig (log (EvSendSignal sig) w)) as H2.
      destruct (OS.send_signal p sig (log (EvSendSignal sig) w))
        as [[] w2|e2 w2| |]; try contradiction.
      * destruct H2 as (F & N & T & X & K).
        exists w2. conjs; auto.
        -- eapply frame_trans; [apply frame_log | exact F].
        -- exists [EvSendSignal sig; EvSendSignal sig].
           split; [unfold attempts; auto|exact T].
        -- intros -> HK. cbn in S1. rewrite S1 in HK.
           destruct (reacts _ SIGKILL); discriminate.
      * destruct H2 as (-> & S2).
        exists (log (EvSendSignal sig) (log (EvSendSignal sig) w)).
        conjs; auto.
        -- eapply frame_trans; apply frame_log.
        -- exists [EvSendSignal sig; EvSendSignal sig].
           split; [unfold attempts; auto|reflexivity].
        -- intros -> HK. cbn in S1. rewrite S1 in HK.
           destruct (reacts _ SIGKILL); discriminate.
  - (* posix: killpg, then send_signal if it raised *)
    pose proof (killpg_spec p sig w) as H1.
    destruct (OS.killpg p sig w) as [[] w1|e w1| |]; try contradiction.
    + destruct H1 as (K1 & ->).
      eexists. conjs; auto using frame_delivered.
      * exists [EvKillpg sig]. split; [unfold attempts; auto|reflexivity].
      * cbn. apply deliver_exit_kept.
      * intros -> HK. right. cbn. apply deliver_reacts.
        now destruct (reacts _ SIGKILL).
    + destruct H1 as (K1 & ->).
      pose proof (send_signal_spec p sig (log (EvKillpg sig) w)) as H2.
      destruct (OS.send_signal p sig (log (EvKillpg sig) w))
        as [[] w2|e2 w2| |]; try contradiction.
      * destruct H2 as (F & N & T & X & K).
        exists w2. conjs; auto.
        -- eapply frame_trans; [apply frame_log | exact F].
        -- exists [EvKillpg sig; EvSendSignal sig].
           split; [unfold attempts; auto|exact T].
        -- intros -> HK. cbn in K. rewrite K1 in HK. cbn in HK.
           destruct (reacts _ SIGKILL); try discriminate.
           apply K; [|easy].
           now destruct (send_signal_raises _ SIGKILL).
      * destruct H2 as (-> & S2).
        exists (log (EvSendSignal sig) (log (EvKillpg sig) w)).
        conjs; auto.
        -- eapply frame_trans; apply frame_log.
        -- exists [EvKillpg sig; EvSendSignal sig].
           split; [unfold attempts; auto|reflexivity].
        -- intros -> HK. cbn in S2. rewrite K1, S2 in HK.
           destruct (reacts _ SIGKILL); discriminate.
Qed.

Lemma wait_or_pass_spec p g w :
  exists r w', wait_or_pass p g w = Ok r w'
    /\ frame w w'
    /\ trace w' = EvWait (Some g) :: trace w
    /\ exit_at (child w') = exit_at (child w)
    /\ match r with
       | Some rc => returncode (child w') = Some rc
       | None => returncode (child w') = None
       end.
Proof.
  unfold wait_or_pass, try_except, bind, OS.wait_timeout, ret.
  destruct (returncode (child w)) as [rc|] eqn:R.
  - exists (Some rc). eexists. conjs; auto using frame_log.
  - assert (Expired : frame w (advance g (log (EvWait (Some g)) w))).
    { eapply frame_trans; [apply frame_log | apply frame_advance]. }
    destruct (exit_at (child w)) as [[te rc]|] eqn:X.
    + destruct (te <=? now w + Z.max 0 g) eqn:L.
      * exists (Some rc). eexists. conjs; auto.
        constructor; cbn; auto; try lia.
        -- congruence.
        -- unfold consistent, OS.exited_by. cbn. rewrite X.
           intros _ r [= <-].
           replace (te <=? Z.max (now w) te) with true; auto.
           symmetry. apply Z.leb_le. lia.
        -- now exists [EvWait (Some g)].
      * exists None. eexists. conjs; auto.
    + exists None. eexists. conjs; auto.
Qed.

Lemma wait_spec p w :
  match OS.wait p w with
  | Ok rc w' =>
      frame w w' /\ trace w' = EvWait None :: trace w
      /\ returncode (child w') = Some rc
  | Hang => returncode (child w) = None /\ exit_at (child w) = None
  | _ => False
  end.
Proof.
  unfold OS.wait.
  destruct (returncode (child w)) as [rc|] eqn:R.
  - conjs; auto using frame_log.
  - destruct (exit_at (child w)) as [[te rc]|] eqn:X; auto.
    conjs; auto.
    constructor; cbn; auto; try lia.
    + congruence.
    + unfold consistent, OS.exited_by. cbn. rewrite X.
      intros _ r [= <-].
      replace (te <=? Z.max (now w) te) with true; auto.
      symmetry. apply Z.leb_le. lia.
    + now exists [EvWait None].
Qed.

Lemma kill_effective_frame w w' :
  frame w w' -> kill_effective w' = kill_effective w.
Proof. intros []. unfold kill_effective. now rewrite fr_beh0, fr_nt0. Qed.

Ltac norm_lists :=
  repeat first [ progress cbn [rev app] | rewrite rev_app_distr
               | rewrite rev_involutive | rewrite <- app_assoc ].

Lemma ladder_one g1 g2 a1 :
  attempts SIGINT a1 -> ladder g1 g2 (a1 ++ [EvWait (Some g1)]) = true.
Proof.
  intros [->|[->|[->| ->]]]; cbn; apply Z.eqb_refl.
Qed.

Lemma ladder_two g1 g2 a1 a2 :
  attempts SIGINT a1 -> attempts SIGTERM a2 ->
  ladder g1 g2 (a1 ++ EvWait (Some g1) :: a2 ++ [EvWait (Some g2)]) = true.
Proof.
  intros [->|[->|[->| ->]]] [->|[->|[->| ->]]]; cbn;
    now rewrite !Z.eqb_refl.
Qed.

Lemma ladder_three g1 g2 a1 a2 a3 :
  attempts SIGINT a1 -> attempts SIGTERM a2 -> attempts SIGKILL a3 ->
  ladder g1 g2 (a1 ++ EvWait (Some g1) :: a2 ++ EvWait (Some g2)
                   :: a3 ++ [EvWait None]) = true.
Proof.
  intros [->|[->|[->| ->]]] [->|[->|[->| ->]]] [->|[->|[->| ->]]]; cbn;
    now rewrite !Z.eqb_refl.
Qed.

(** The stopper, in full: a reaped child, the calls it made, and when it
    blocks for ever. *)
Lemma stop_process_spec p g1 g2 w :
  match stop_process p g1 g2 w with
  | Ok rc w' =>
      frame w w'
      /\ returncode (child w') = Some rc
      /\ match status w with
         | Some rc0 => rc = rc0 /\ w' = polled w
         | None =>
             exists d, trace w' = d ++ EvPoll :: trace w
                       /\ ladder g1 g2 (rev d) = true
         end
  | Hang => status w = None /\ kill_effective w = false
  | _ => False
  end.
Proof.
  unfold stop_process.
  rewrite (bind_ok _ _ _ _ _ (poll_ok p w)).
  destruct (status w) as [rc0|] eqn:S.
  { unfold ret. conjs; auto using frame_polled, returncode_polled. }
  pose proof (frame_polled w) as F0.
  assert (T0 : trace (polled w) = EvPoll :: trace w).
  { unfold polled. destruct (returncode (child w));
      destruct (OS.exited_by (now w) (child w)); reflexivity. }
  destruct (signal_best_effort_spec p SIGINT (polled w))
    as (w1 & E1 & F1 & _ & (a1 & A1 & T1) & _ & _).
  rewrite (bind_ok _ _ _ _ _ E1).
  destruct (wait_or_pass_spec p g1 w1) as (r1 & w2 & E2 & F2 & T2 & _ & R2).
  rewrite (bind_ok _ _ _ _ _ E2).
  assert (F02 : frame w w2) by eauto using frame_trans.
  destruct r1 as [rc|].
  { unfold ret. conjs; auto.
    exists (EvWait (Some g1) :: rev a1). split.
    - now rewrite T2, T1, T0.
    - norm_lists. now apply ladder_one. }
  destruct (signal_best_effort_spec p SIGTERM w2)
    as (w3 & E3 & F3 & _ & (a2 & A2 & T3) & _ & _).
  rewrite (bind_ok _ _ _ _ _ E3).
  destruct (wait_or_pass_spec p g2 w3) as (r2 & w4 & E4 & F4 & T4 & _ & R4).
  rewrite (bind_ok _ _ _ _ _ E4).
  assert (F04 : frame w w4) by eauto using frame_trans.
  destruct r2 as [rc|].
  { unfold ret. conjs; auto.
    exists (EvWait (Some g2) :: rev a2 ++ EvWait (Some g1) :: rev a1). split.
    - rewrite T4, T3, T2, T1, T0. now norm_lists.
    - norm_lists. now apply ladder_two. }
  destruct (signal_best_effort_spec p SIGKILL w4)
    as (w5 & E5 & F5 & _ & (a3 & A3 & T5) & _ & K5).
  rewrite (bind_ok _ _ _ _ _ E5).
  pose proof (wait_spec p w5) as W.
  destruct (OS.wait p w5) as [rc w6| | |]; try contradiction.
  - destruct W as (F6 & T6 & R6). conjs; eauto using frame_trans.
    exists (EvWait None :: rev a3 ++ EvWait (Some g2) :: rev a2
              ++ EvWait (Some g1) :: rev a1). split.
    + rewrite T6, T5, T4, T3, T2, T1, T0. now norm_lists.
    + norm_lists. now apply ladder_three.
  - destruct W as (R5 & X5). split; auto.
    rewrite <- (kill_effective_frame w w4 F04).
    destruct (kill_effective w4) eqn:K; auto.
    destruct (K5 eq_refl eq_refl); congruence.
Qed.

(** ** Reasons *)

Lemma prefix_app a x : String.prefix a (a ++ x)%string = true.
Proof.
  induction a as [|c a IH]; cbn.
  - now destruct x.
  - destruct (ascii_dec c c); [exact IH | congruence].
Qed.

Lemma known_tag_app tag x :
  In tag reason_tags -> known_tag (tag ++ x)%string = true.
Proof.
  intros H. unfold known_tag. apply existsb_exists.
  exists tag. split; auto using prefix_app.
Qed.

Ltac tag_known := apply known_tag_app; cbn; tauto.

Lemma known_tag_not_cleanup s :
  known_tag s = true -> String.prefix "cleanup-failed" s = false.
Proof.
  destruct s as [|c s]; [reflexivity|].
  unfold known_tag. cbn [existsb reason_tags String.prefix].
  destruct (ascii_dec "c"%char c) as [<-|N]; [|reflexivity].
  cbn. discriminate.
Qed.

(** ** The init loop *)

Lemma watcher_now_log e w : OS.watcher_now (log e w) = OS.watcher_now w.
Proof. reflexivity. Qed.

Lemma watcher_now_polled w : OS.watcher_now (polled w) = OS.watcher_now w.
Proof.
  unfold polled. destruct (returncode (child w)); auto.
  destruct (OS.exited_by (now w) (child w)); auto.
Qed.

Lemma tail_now_polled w : tail_now (polled w) = tail_now w.
Proof. unfold tail_now. now rewrite watcher_now_polled. Qed.

Lemma now_polled w : now (polled w) = now w.
Proof.
  unfold polled. destruct (returncode (child w)); auto.
  destruct (OS.exited_by (now w) (child w)); auto.
Qed.

Lemma trace_polled w : trace (polled w) = EvPoll :: trace w.
Proof.
  unfold polled. destruct (returncode (child w)); auto.
  destruct (OS.exited_by (now w) (child w)); auto.
Qed.

Lemma sudo_path_frame w w' : frame w w' -> sudo_path w' = sudo_path w.
Proof. intros []. unfold sudo_path. now rewrite fr_sudo0. Qed.

(** One turn of the init loop, case by case. *)
Lemma wait_init_body_eq p d w :
  wait_init_body p d w =
    if seen w then Ok Break (log EvIsSet w)
    else
      match status w with
      | Some rc =>
          Ok (Return (mkResult false None
                ("openvpn-exited-early rc=" ++ Py.str rc ++ tail_label ++ tail_now w)%string))
             (swept (log EvTail (polled (log EvIsSet w))))
      | None =>
          if now w >=? d
          then
            match stop_process p 5000 3000 (log EvTail (checked w)) with
            | Ok final_rc w2 =>
                Ok (Return (mkResult false None
                      ("timeout-waiting-init final_rc=" ++ Py.str final_rc
                       ++ tail_label ++ tail_now w)%string))
                   (swept w2)
            | Exc e w2 => Exc e w2
            | Hang => Hang
            | OutOfFuel => OutOfFuel
            end
          else Ok Continue (slept 50 (checked w))
      end.
Proof.
  unfold wait_init_body.
  rewrite (bind_ok _ _ _ _ _ (is_set_ok w)).
  destruct (seen w); [reflexivity|].
  rewrite (bind_ok _ _ _ _ _ (poll_ok p _)).
  change (status (log EvIsSet w)) with (status w).
  destruct (status w) as [rc|] eqn:S.
  - rewrite (bind_ok _ _ _ _ _ (tail_ok _)).
    rewrite (bind_ok _ _ _ _ _ (best_effort_cleanup_ok false _)).
    unfold ret. now rewrite tail_now_polled.
  - rewrite (bind_ok _ _ _ _ _ (monotonic_ok _)).
    rewrite now_polled. change (now (log EvIsSet w)) with (now w).
    destruct (now w >=? d).
    + rewrite (bind_ok _ _ _ _ _ (tail_ok _)).
      change (tail_now (log EvMonotonic (polled (log EvIsSet w))))
        with (tail_now (polled (log EvIsSet w))).
      rewrite tail_now_polled. change (tail_now (log EvIsSet w)) with (tail_now w).
      unfold bind at 1. fold (checked w).
      destruct (stop_process p 5000 3000 (log EvTail (checked w))); auto.
      rewrite (bind_ok _ _ _ _ _ (best_effort_cleanup_ok false _)).
      reflexivity.
    + rewrite (bind_ok _ _ _ _ _ (sleep_ok _ _)). reflexivity.
Qed.

Lemma frame_checked w : frame w (checked w).
Proof.
  unfold checked.
  eapply frame_trans; [apply frame_log|].
  eapply frame_trans; [apply frame_polled|apply frame_log].
Qed.

Lemma cleanup_last_swept w : cleanup_last (swept w).
Proof.
  exists [], (trace w). split; reflexivity.
Qed.

Lemma reaped_frame w w' rc :
  consistent w' -> returncode (child w) = Some rc -> frame w w' -> reaped w'.
Proof.
  intros C R F. exists rc. split.
  - now apply (fr_rc _ _ F).
  - apply C. now apply (fr_rc _ _ F).
Qed.

Lemma frame_turn_start w : frame w (log EvTail (polled (log EvIsSet w))).
Proof.
  eapply frame_trans; [apply frame_log|].
  eapply frame_trans; [apply frame_polled|apply frame_log].
Qed.

Lemma swept_cleared w0 w rc reason :
  consistent w0 -> frame w0 w -> returncode (child w) = Some rc ->
  cleared (mkResult false None reason) (swept w).
Proof.
  intros C F R. unfold cleared. conjs; auto using cleanup_last_swept.
  eapply reaped_frame; [|exact R|apply frame_swept].
  apply (fr_consistent _ _ (frame_swept w)). now apply (fr_consistent _ _ F).
Qed.

(** The init loop returns with the fuel [open_vpn] gives it, and what it
    returns. *)
Lemma wait_init_spec fuel p d : forall w,
  consistent w ->
  d - now w <= 50 * (Z.of_nat fuel - 1) -> (1 <= fuel)%nat ->
  match wait_init fuel p d w with
  | Ok None w' => frame w w'
  | Ok (Some r) w' =>
      frame w w' /\ cleared r w' /\ known_tag (reason r) = true
  | Hang => kill_effective w = false
  | _ => False
  end.
Proof.
  induction fuel as [|fuel IH]; intros w C Hd H1; [lia|].
  cbn [wait_init]. unfold bind at 1. rewrite wait_init_body_eq.
  destruct (seen w).
  { unfold ret. apply frame_log. }
  destruct (status w) as [rc|] eqn:St.
  { unfold ret. conjs.
    - eapply frame_trans; [apply frame_turn_start | apply frame_swept].
    - apply (swept_cleared w _ rc); [exact C | apply frame_turn_start |].
      change (returncode (child (polled (log EvIsSet w))) = Some rc).
      apply returncode_polled. exact St.
    - cbn [reason]. tag_known. }
  destruct (now w >=? d) eqn:D.
  - pose proof (stop_process_spec p 5000 3000 (log EvTail (checked w))) as SP.
    assert (F : frame w (log EvTail (checked w))).
    { eapply frame_trans; [apply frame_checked | apply frame_log]. }
    destruct (stop_process p 5000 3000 (log EvTail (checked w)))
      as [final_rc w2| | |]; try contradiction.
    + destruct SP as (F2 & R2 & _). unfold ret. conjs.
      * eapply frame_trans; [|apply frame_swept]. eapply frame_trans; eauto.
      * eapply swept_cleared; [exact C | | exact R2].
        eapply frame_trans; eauto.
      * cbn [reason]. tag_known.
    + destruct SP as (_ & K). now rewrite <- (kill_effective_frame _ _ F).
  - assert (F : frame w (slept 50 (checked w))).
    { eapply frame_trans; [apply frame_checked | apply frame_slept]. }
    assert (N : now (slept 50 (checked w)) = now w + 50).
    { unfold slept, checked. cbn. now rewrite now_polled. }
    assert (L : now w < d).
    { destruct (Z.geb_spec (now w) d); [discriminate | lia]. }
    specialize (IH (slept 50 (checked w))).
    destruct (wait_init fuel p d (slept 50 (checked w))) as [[r|] w'| | |].
    + destruct IH as (F' & CL & TG); try lia.
      * now apply (fr_consistent _ _ F).
      * conjs; auto. eapply frame_trans; eauto.
    + eapply frame_trans; [exact F|]. apply IH; try lia.
      now apply (fr_consistent _ _ F).
    + apply IH; try lia. now apply (fr_consistent _ _ F).
    + rewrite <- (kill_effective_frame _ _ F). apply IH; try lia.
      now apply (fr_consistent _ _ F).
    + apply IH; try lia. now apply (fr_consistent _ _ F).
Qed.

(** ** The probes *)

Lemma frame_connected host port t w : frame w (connected host port t w).
Proof.
  unfold connected. set (d := snd _). clearbody d.
  constructor; auto; cbn; try lia.
  - unfold consistent. cbn. intros H rc E. eapply exited_by_mono; eauto. lia.
  - now exists [EvConnect host port t].
Qed.

Lemma tcp_connect_ok_eq host port t w :
  _tcp_connect_ok host port t w
  = Ok (connect_ok host port t w) (connected host port t w).
Proof.
  unfold _tcp_connect_ok, try_except, bind, OS.create_connection, connect_ok,
    connected.
  destruct (connect_oracle w (connects w) host port t) as [b d]. cbn.
  destruct b; reflexivity.
Qed.

Lemma route_uses_utun_eq ip v w :
  _route_uses_utun ip v w = Ok (route_ok ip w) (ran (route_cmd ip) 3000 w).
Proof.
  unfold _route_uses_utun, route_ok, route_cmd.
  rewrite (bind_ok _ _ _ _ _ (run_cmd_unchecked _ _ _ _ _ _)).
  destruct (run_answer _ 3000 w) as [rc out].
  destruct (rc =? 0); reflexivity.
Qed.

Lemma get_public_ip_ok v w :
  exists ip, _get_public_ip v w = Ok ip (ran curl_cmd 8000 w).
Proof.
  unfold _get_public_ip.
  rewrite (bind_ok _ _ _ _ _ (run_cmd_unchecked _ _ _ _ _ _)).
  destruct (run_answer _ 8000 w) as [rc out].
  destruct (search_ip out); eexists; reflexivity.
Qed.

(** The probe, case by case. *)
Lemma internet_probe_eq timeout require v w :
  _internet_probe_ok timeout require v w =
    if require && negb (route_ok "1.1.1.1" w)
    then Ok (false, "route-to-1.1.1.1-not-utun") (ran (route_cmd "1.1.1.1") 3000 w)
    else
      let t := Z.min 3000 timeout in
      let w0 := if require then ran (route_cmd "1.1.1.1") 3000 w else w in
      let w1 := connected "api.ipify.org" 443 t (log EvMonotonic w0) in
      if negb (connect_ok "api.ipify.org" 443 t (log EvMonotonic w0))
      then Ok (false, connect_failed "api.ipify.org" 443 (now w1 - now w0))
              (log EvMonotonic w1)
      else
        let w2 := connected "1.1.1.1" 443 t w1 in
        if negb (connect_ok "1.1.1.1" 443 t w1)
        then Ok (false, connect_failed "1.1.1.1" 443 (now w2 - now w0))
                (log EvMonotonic w2)
        else Ok (true, "probe-ok") w2.
Proof.
  unfold _internet_probe_ok.
  destruct require; cbn [andb].
  - rewrite (bind_ok _ _ _ _ _ (route_uses_utun_eq _ _ _)).
    destruct (route_ok "1.1.1.1" w); cbn [negb]; [|reflexivity].
    rewrite (bind_ok _ _ _ _ _ (monotonic_ok _)).
    cbn [probe_targets tests].
    rewrite (bind_ok _ _ _ _ _ (tcp_connect_ok_eq _ _ _ _)).
    destruct (connect_ok "api.ipify.org" 443 _ _); cbn [negb].
    + rewrite (bind_ok _ _ _ _ _ (tcp_connect_ok_eq _ _ _ _)).
      destruct (connect_ok "1.1.1.1" 443 _ _); cbn [negb]; reflexivity.
    + reflexivity.
  - unfold ret at 1. unfold bind at 1. cbn [negb].
    rewrite (bind_ok _ _ _ _ _ (monotonic_ok _)).
    cbn [probe_targets tests].
    rewrite (bind_ok _ _ _ _ _ (tcp_connect_ok_eq _ _ _ _)).
    destruct (connect_ok "api.ipify.org" 443 _ _); cbn [negb].
    + rewrite (bind_ok _ _ _ _ _ (tcp_connect_ok_eq _ _ _ _)).
      destruct (connect_ok "1.1.1.1" 443 _ _); cbn [negb]; reflexivity.
    + reflexivity.
Qed.

Lemma internet_probe_frame timeout require v w :
  exists r w', _internet_probe_ok timeout require v w = Ok r w' /\ frame w w'.
Proof.
  rewrite internet_probe_eq.
  assert (F0 : frame w (if require then ran (route_cmd "1.1.1.1") 3000 w else w)).
  { destruct require; auto using frame_ran, frame_refl. }
  set (w0 := if require then _ else w) in *. clearbody w0.
  destruct (require && negb (route_ok "1.1.1.1" w)).
  { eexists _, _. split; [reflexivity | apply frame_ran]. }
  cbv zeta.
  assert (F1 : frame w (connected "api.ipify.org" 443 (Z.min 3000 timeout)
                          (log EvMonotonic w0))).
  { eapply frame_trans; [exact F0|].
    eapply frame_trans; [apply frame_log | apply frame_connected]. }
  destruct (negb (connect_ok "api.ipify.org" 443 _ _)).
  { eexists _, _. split; [reflexivity|].
    eapply frame_trans; [exact F1 | apply frame_log]. }
  destruct (negb (connect_ok "1.1.1.1" 443 _ _)).
  { eexists _, _. split; [reflexivity|].
    eapply frame_trans; [exact F1|].
    eapply frame_trans; [apply frame_connected | apply frame_log]. }
  eexists _, _. split; [reflexivity|].
  eapply frame_trans; [exact F1 | apply frame_connected].
Qed.

(** ** The probe loop *)

Lemma probe_body_spec p d v w :
  consistent w ->
  match probe_body p d v w with
  | Ok (inl r) w' =>
      frame w w' /\ known_tag (reason r) = true
      /\ ((ok r = true /\ proc r = Some p) \/ cleared r w')
  | Ok (inr _) w' => frame w w' /\ now w + 250 <= now w'
  | _ => False
  end.
Proof.
  intros C. unfold probe_body.
  rewrite (bind_ok _ _ _ _ _ (poll_ok p w)).
  destruct (status w) as [rc|] eqn:St.
  - rewrite (bind_ok _ _ _ _ _ (tail_ok _)).
    rewrite (bind_ok _ _ _ _ _ (best_effort_cleanup_ok false _)).
    unfold ret, cleaned.
    assert (F : frame w (log EvTail (polled w))).
    { eapply frame_trans; [apply frame_polled | apply frame_log]. }
    conjs.
    + eapply frame_trans; [exact F | apply frame_swept].
    + cbn [reason]. tag_known.
    + right. apply (swept_cleared w _ rc); auto.
      change (returncode (child (polled w)) = Some rc).
      now apply returncode_polled.
  - rewrite (bind_ok _ _ _ _ _ (monotonic_ok _)).
    set (w1 := log EvMonotonic (polled w)).
    assert (F1 : frame w w1).
    { eapply frame_trans; [apply frame_polled | apply frame_log]. }
    destruct (internet_probe_frame (Z.min 5000 (d - now (polled w))) true v w1)
      as ([b reason] & w2 & E & F2).
    rewrite (bind_ok _ _ _ _ _ E).
    destruct b.
    + destruct (get_public_ip_ok v w2) as (ip & G).
      rewrite (bind_ok _ _ _ _ _ G). unfold ret. conjs.
      * eapply frame_trans; [exact F1|].
        eapply frame_trans; [exact F2 | apply frame_ran].
      * reflexivity.
      * left. now split.
    + rewrite (bind_ok _ _ _ _ _ (sleep_ok _ _)). unfold ret. split.
      * eapply frame_trans; [exact F1|].
        eapply frame_trans; [exact F2 | apply frame_slept].
      * pose proof (fr_now _ _ F1). pose proof (fr_now _ _ F2).
        unfold slept, advance. cbn. lia.
Qed.

Lemma probe_loop_spec fuel p d v : forall last w,
  consistent w ->
  d - now w <= 250 * (Z.of_nat fuel - 1) -> (1 <= fuel)%nat ->
  match probe_loop fuel p d v last w with
  | Ok (inl r) w' =>
      frame w w' /\ known_tag (reason r) = true
      /\ ((ok r = true /\ proc r = Some p) \/ cleared r w')
  | Ok (inr _) w' => frame w w'
  | _ => False
  end.
Proof.
  induction fuel as [|fuel IH]; intros last w C Hd H1; [lia|].
  cbn [probe_loop].
  rewrite (bind_ok _ _ _ _ _ (monotonic_ok _)).
  destruct (Z.ltb_spec (now w) d) as [L|L].
  - set (w1 := log EvMonotonic w).
    assert (F1 : frame w w1) by apply frame_log.
    pose proof (probe_body_spec p d v w1 (fr_consistent _ _ F1 C)) as B.
    unfold bind at 1.
    destruct (probe_body p d v w1) as [[r|reason] w2| | |]; try contradiction.
    + unfold ret. destruct B as (F2 & TG & R). conjs; auto.
      eapply frame_trans; eauto.
    + destruct B as (F2 & N).
      assert (F : frame w w2) by (eapply frame_trans; eauto).
      change (now w1) with (now w) in N.
      specialize (IH reason w2 (fr_consistent _ _ F C)).
      destruct (probe_loop fuel p d v reason w2) as [[r|r] w3| | |];
        try (apply IH; lia).
      * destruct IH as (F3 & TG & R); try lia. conjs; auto.
        eapply frame_trans; eauto.
      * eapply frame_trans; [exact F|]. apply IH; lia.
  - unfold ret. apply frame_log.
Qed.

(** ** The supervisor *)

Lemma popen_ok argv w : OS.popen argv w = Ok (pid (child w)) (spawned argv w).
Proof. reflexivity. Qed.

Lemma watcher_start_ok needle v w :
  OS.watcher_start needle v w = Ok tt (watching needle v w).
Proof. reflexivity. Qed.

Lemma cleanup_last_snapshotted w : cleanup_last (snapshotted (swept w)).
Proof.
  exists [EvRun ["scutil"; "--dns"] 3000; EvRun ["scutil"; "--proxy"] 3000;
          EvRun ["netstat"; "-rn"; "-f"; "inet"] 3000], (trace w).
  split; reflexivity.
Qed.

Lemma turns_50 t d w :
  d = now w + t ->
  d - now w <= 50 * (Z.of_nat (turns t 50) - 1) /\ (1 <= turns t 50)%nat.
Proof. intros ->. unfold turns. Z.div_mod_to_equations. lia. Qed.

Lemma turns_250 t d w :
  d = now w + t ->
  d - now w <= 250 * (Z.of_nat (turns t 250) - 1) /\ (1 <= turns t 250)%nat.
Proof. intros ->. unfold turns. Z.div_mod_to_equations. lia. Qed.

Lemma supervise_spec ovpn auth timeout needle extra v probe ptimeout w :
  match supervise ovpn auth timeout needle extra v probe ptimeout w with
  | Ok r w' =>
      known_tag (reason r) = true
      /\ ((ok r = true /\ proc r = Some (pid (child w))) \/ cleared r w')
  | Hang => kill_effective w = false
  | _ => False
  end.
Proof.
  unfold supervise. cbv zeta.
  set (argv := openvpn_argv ovpn auth extra).
  rewrite (bind_ok _ _ _ _ _ (popen_ok argv w)).
  rewrite (bind_ok _ _ _ _ _ (watcher_start_ok _ _ _)).
  rewrite (bind_ok _ _ _ _ _ (monotonic_ok _)).
  set (w3 := log EvMonotonic (watching needle v (spawned argv w))).
  set (p := pid (child w)).
  assert (C3 : consistent w3) by (unfold consistent; cbn; discriminate).
  assert (K3 : kill_effective w3 = kill_effective w) by reflexivity.
  change (now (watching needle v (spawned argv w))) with (now w3).
  destruct (turns_50 timeout (now w3 + timeout) w3 eq_refl) as (T1 & T2).
  pose proof (wait_init_spec (turns timeout 50) p (now w3 + timeout) w3
                C3 T1 T2) as WI.
  clear T1 T2.
  unfold bind at 1.
  destruct (wait_init (turns timeout 50) p (now w3 + timeout) w3)
    as [[r|] w4| | |].
  - unfold ret. split; [apply WI | right; apply WI].
  - assert (F4 : frame w3 w4) by apply WI.
    clear WI.
    rewrite (bind_ok _ _ _ _ _ (poll_ok p w4)).
    destruct (status w4) as [rc|] eqn:St.
    + rewrite (bind_ok _ _ _ _ _ (tail_ok _)).
      rewrite (bind_ok _ _ _ _ _ (best_effort_cleanup_ok false _)).
      unfold ret, cleaned. split; [cbn [reason]; tag_known | right].
      apply (swept_cleared w3 _ rc); auto.
      * eapply frame_trans; [exact F4|].
        eapply frame_trans; [apply frame_polled | apply frame_log].
      * change (returncode (child (polled w4)) = Some rc).
        now apply returncode_polled.
    + destruct probe; [|unfold ret; split; [reflexivity | left; now split]].
      rewrite (bind_ok _ _ _ _ _ (monotonic_ok _)).
      set (w5 := log EvMonotonic (polled w4)).
      assert (F5 : frame w3 w5).
      { eapply frame_trans; [exact F4|].
        eapply frame_trans; [apply frame_polled | apply frame_log]. }
      change (now (polled w4)) with (now w5).
      destruct (turns_250 ptimeout (now w5 + ptimeout) w5 eq_refl) as (T1 & T2).
      pose proof (probe_loop_spec (turns ptimeout 250) p (now w5 + ptimeout) v
                    "probe-not-run" w5 (fr_consistent _ _ F5 C3) T1 T2) as PL.
      clear T1 T2.
      unfold bind at 1.
      destruct (probe_loop (turns ptimeout 250) p (now w5 + ptimeout) v
                  "probe-not-run" w5) as [[r|last] w6| | |];
        try contradiction.
      * unfold ret. apply PL.
      * assert (F6 : frame w3 w6).
        { eapply frame_trans; [exact F5|]. apply PL. }
        clear PL.
        rewrite (bind_ok _ _ _ _ _ (tail_ok _)).
        set (w7 := log EvTail w6).
        assert (F7 : frame w3 w7).
        { eapply frame_trans; [exact F6 | apply frame_log]. }
        pose proof (stop_process_spec p 5000 3000 w7) as SP.
        unfold bind at 1.
        destruct (stop_process p 5000 3000 w7) as [final_rc w8| | |];
          try contradiction.
        -- destruct SP as (F8 & R8 & _).
           rewrite (bind_ok _ _ _ _ _ (best_effort_cleanup_ok false _)).
           unfold cleaned.
           assert (F38 : frame w3 w8) by (eapply frame_trans; eauto).
           pose proof (swept_cleared w3 w8 final_rc "" C3 F38 R8)
             as (_ & _ & RP & CL).
           destruct v.
           ++ rewrite (bind_ok _ _ _ _ _ (snapshot_ok _ _ _)).
              unfold ret. split; [cbn [reason]; tag_known | right].
              unfold cleared. conjs; auto.
              ** destruct RP as (rc & R & _).
                 apply (reaped_frame (swept w8) _ rc); auto.
                 --- apply (fr_consistent _ _ (frame_snapshotted _)).
                     apply (fr_consistent _ _ (frame_swept _)).
                     now apply (fr_consistent _ _ F38).
                 --- apply frame_snapshotted.
              ** apply cleanup_last_snapshotted.
           ++ unfold ret at 1. unfold bind at 1. unfold ret.
              split; [cbn [reason]; tag_known | right].
              unfold cleared. conjs; auto.
        -- destruct SP as (_ & K). rewrite <- K3.
           now rewrite <- (kill_effective_frame _ _ F7).
  - contradiction WI.
  - rewrite <- K3. apply WI.
  - contradiction WI.
Qed.

(** * The claims *)


(** C2. [stop_process] on a child that has already exited returns its
    exit status at once: the only call made is the [poll], no signal is
    sent.  Otherwise it sends [SIGINT] and waits [sigint_grace_s], then
    [SIGTERM] and waits [sigterm_grace_s], then [SIGKILL] and waits without
    bound, stopping at the first wait that sees the child exit.  Whenever
    it returns, the child has exited: a later [proc.poll()] answers the
    returned status, and in a world whose recorded status agrees with the
    operating system the child has exited by then.  It raises nothing, and
    blocks for ever only on a running child that [SIGKILL] does not end. *)
Theorem stop_process_returns_after_exit p sigint_grace_s sigterm_grace_s w :
  match stop_process p sigint_grace_s sigterm_grace_s w with
  | Ok rc w' =>
      OS.poll p w' = Ok (Some rc) (log EvPoll w')
      /\ (consistent w -> OS.exited_by (now w') (child w') = Some rc)
      /\ match status w with
         | Some rc0 =>
             rc = rc0 /\ w' = polled w /\ trace w' = EvPoll :: trace w
         | None =>
             exists calls,
               trace w' = calls ++ EvPoll :: trace w
               /\ ladder sigint_grace_s sigterm_grace_s (rev calls) = true
         end
  | Hang => status w = None /\ kill_effective w = false
  | Exc _ _ | OutOfFuel => False
  end.
Proof.
  pose proof (stop_process_spec p sigint_grace_s sigterm_grace_s w) as SP.
  destruct (stop_process p sigint_grace_s sigterm_grace_s w)
    as [rc w'| | |]; auto.
  destruct SP as (F & R & T). conjs.
  - rewrite poll_ok. unfold status, polled. now rewrite R.
  - intros C. now apply (fr_consistent _ _ F C).
  - destruct (status w) as [rc0|]; auto.
    destruct T as (-> & ->). auto using trace_polled.
Qed.




Lemma status_checked w : status (log EvTail (checked w)) = status w.
Proof.
  unfold checked.
  change (status (polled (log EvIsSet w)) = status w).
  now rewrite status_polled.
Qed.



(** ** What the supervisor reads of the watcher *)

Lemma blind_ret {A} (a : A) : eof_blind (ret a).
Proof. intros e w. reflexivity. Qed.

Lemma blind_raise {A} (x : Exn) : eof_blind (@raise A x).
Proof. intros e w. reflexivity. Qed.

Lemma blind_out_of_fuel {A} : eof_blind (@OS.out_of_fuel A).
Proof. intros e w. reflexivity. Qed.

Lemma blind_bind {A B} (m : M A) (k : A -> M B) :
  eof_blind m -> (forall a, eof_blind (k a)) -> eof_blind (bind m k).
Proof.
  intros Hm Hk e w. unfold bind. rewrite Hm.
  destruct (m w); cbn; auto. apply Hk.
Qed.

Lemma blind_try_except {A} (m : M A) h :
  eof_blind m -> handler_blind h -> eof_blind (try_except m h).
Proof.
  intros Hm Hh e w. unfold try_except. rewrite Hm.
  destruct (m w) as [a w1|x w1| |]; cbn; auto.
  specialize (Hh x). destruct (h x); auto.
Qed.

Lemma exited_by_eof e t c : OS.exited_by t (eof_child e c) = OS.exited_by t c.
Proof. reflexivity. Qed.

Lemma deliver_eof e sig t c :
  OS.deliver sig t (eof_child e c) = eof_child e (OS.deliver sig t c).
Proof.
  unfold OS.deliver. rewrite exited_by_eof.
  destruct (OS.exited_by t c); auto. cbn.
  destruct (reacts (behaviour c) sig) as [[d rc]|]; auto.
  destruct (exit_at c) as [[te0 r0]|]; auto.
  destruct (te0 <=? t + Z.max 0 d); auto.
Qed.

Lemma blind_monotonic : eof_blind OS.monotonic.
Proof. intros e w. reflexivity. Qed.

Lemma blind_sleep ms : eof_blind (OS.sleep ms).
Proof. intros e w. reflexivity. Qed.

Lemma blind_which_sudo : eof_blind OS.which_sudo.
Proof. intros e w. reflexivity. Qed.

Lemma blind_is_nt : eof_blind OS.is_nt.
Proof. intros e w. reflexivity. Qed.

Lemma blind_subprocess_run argv t : eof_blind (OS.subprocess_run argv t).
Proof.
  intros e w. unfold OS.subprocess_run. cbn.
  destruct (run_oracle w (runs w) argv t) as [[rc out|x] d]; reflexivity.
Qed.

Lemma blind_create_connection host port t :
  eof_blind (OS.create_connection host port t).
Proof.
  intros e w. unfold OS.create_connection. cbn.
  destruct (connect_oracle w (connects w) host port t) as [[|] d]; reflexivity.
Qed.

Lemma blind_popen argv : eof_blind (OS.popen argv).
Proof. intros e w. reflexivity. Qed.

Lemma blind_watcher_start n v : eof_blind (OS.watcher_start n v).
Proof. intros e w. reflexivity. Qed.

Lemma blind_poll p : eof_blind (OS.poll p).
Proof.
  intros e w. unfold OS.poll. cbn.
  destruct (returncode (child w)); auto.
  rewrite exited_by_eof.
  destruct (OS.exited_by (now w) (child w)); reflexivity.
Qed.

Lemma blind_wait_timeout p t : eof_blind (OS.wait_timeout p t).
Proof.
  intros e w. unfold OS.wait_timeout. cbn.
  destruct (returncode (child w)); auto.
  destruct (exit_at (child w)) as [[te rc]|]; auto.
  destruct (te <=? now w + Z.max 0 t); reflexivity.
Qed.

Lemma blind_wait p : eof_blind (OS.wait p).
Proof.
  intros e w. unfold OS.wait. cbn.
  destruct (returncode (child w)); auto.
  destruct (exit_at (child w)) as [[te rc]|]; reflexivity.
Qed.

Lemma blind_killpg p sig : eof_blind (OS.killpg p sig).
Proof.
  intros e w. unfold OS.killpg. cbn.
  destruct (killpg_raises (behaviour (child w)) sig); auto.
  cbn. unfold with_eof. cbn. now rewrite deliver_eof.
Qed.

Lemma blind_send_signal p sig : eof_blind (OS.send_signal p sig).
Proof.
  intros e w. unfold OS.send_signal. cbn.
  destruct (returncode (child w)); auto.
  rewrite exited_by_eof.
  destruct (OS.exited_by (now w) (child w)); auto.
  destruct (send_signal_raises (behaviour (child w)) sig); auto.
  cbn. unfold with_eof. cbn. now rewrite deliver_eof.
Qed.

(** The end of the stream changes [exit_event] and nothing else of what
    the watcher shows. *)
Lemma watcher_now_eof e w :
  match OS.watcher_now (with_eof e w), OS.watcher_now w with
  | Some sw', Some sw =>
      init_event sw' = init_event sw /\ Watcher.tail sw' = Watcher.tail sw
  | None, None => True
  | _, _ => False
  end.
Proof.
  unfold OS.watcher_now. cbn.
  destruct (watcher w) as [sw0|]; auto.
  destruct (launched (child w)) as [t0|]; auto.
  destruct e as [te|];
    destruct (eof (behaviour (child w))) as [te'|];
    repeat match goal with
           | |- context [if ?b then _ else _] => destruct b
           end; auto.
Qed.

Lemma blind_is_set : eof_blind OS.is_set.
Proof.
  intros e w. unfold OS.is_set.
  pose proof (watcher_now_eof e w) as H.
  destruct (OS.watcher_now (with_eof e w)), (OS.watcher_now w);
    try contradiction; cbn; auto.
  destruct H as (-> & _). reflexivity.
Qed.

Lemma blind_tail : eof_blind OS.tail.
Proof.
  intros e w. unfold OS.tail.
  pose proof (watcher_now_eof e w) as H.
  destruct (OS.watcher_now (with_eof e w)), (OS.watcher_now w);
    try contradiction; cbn; auto.
  destruct H as (_ & ->). reflexivity.
Qed.

Create HintDb blind.
#[local] Hint Resolve blind_ret blind_raise blind_out_of_fuel blind_monotonic
  blind_sleep blind_which_sudo blind_is_nt blind_subprocess_run
  blind_create_connection blind_popen blind_watcher_start blind_poll
  blind_wait_timeout blind_wait blind_killpg blind_send_signal blind_is_set
  blind_tail : blind.

Ltac blind :=
  repeat first
    [ solve [auto with blind]
    | apply blind_bind; [|intros ?]
    | apply blind_try_except; [|intros ?]
    | progress cbv zeta
    | match goal with
      | |- eof_blind (match ?x with _ => _ end) => destruct x
      | |- match (match ?x with _ => _ end) with _ => _ end => destruct x
      | |- match Some _ with _ => _ end => cbv beta iota
      | |- True => exact I
      end ].

Lemma blind_run_cmd cmd t check label pc v :
  eof_blind (_run_cmd cmd t check label pc v).
Proof. unfold _run_cmd. blind. Qed.

#[local] Hint Resolve blind_run_cmd : blind.

Lemma blind_sudo_cmd cmd t check label v :
  eof_blind (_sudo_cmd cmd t check label v).
Proof. unfold _sudo_cmd. blind. Qed.

#[local] Hint Resolve blind_sudo_cmd : blind.

Lemma blind_snapshot label v : eof_blind (_snapshot label v).
Proof. unfold _snapshot. blind. Qed.

#[local] Hint Resolve blind_snapshot : blind.

Lemma blind_cleanup v : eof_blind (_best_effort_cleanup v).
Proof.
  unfold _best_effort_cleanup, _kill_openvpn, _flush_dns, _delete_def1_routes.
  blind.
Qed.

Lemma blind_get_public_ip v : eof_blind (_get_public_ip v).
Proof. unfold _get_public_ip. blind. Qed.

Lemma blind_tcp_connect_ok host port t : eof_blind (_tcp_connect_ok host port t).
Proof. unfold _tcp_connect_ok. blind. Qed.

#[local] Hint Resolve blind_cleanup blind_get_public_ip blind_tcp_connect_ok
  : blind.

Lemma blind_probe_targets targets t start :
  eof_blind (probe_targets targets t start).
Proof.
  induction targets as [|[host port] rest IH]; cbn [probe_targets]; blind.
Qed.

#[local] Hint Resolve blind_probe_targets : blind.

Lemma blind_internet_probe t r v : eof_blind (_internet_probe_ok t r v).
Proof. unfold _internet_probe_ok, _route_uses_utun. blind. Qed.

Lemma blind_stop_process p g1 g2 : eof_blind (stop_process p g1 g2).
Proof.
  unfold stop_process, signal_best_effort, wait_or_pass,
    _send_signal_to_process_group.
  blind.
Qed.

#[local] Hint Resolve blind_internet_probe blind_stop_process : blind.

Lemma blind_wait_init fuel p d : eof_blind (wait_init fuel p d).
Proof.
  induction fuel as [|fuel IH]; cbn [wait_init]; [blind|].
  unfold wait_init_body. blind.
Qed.

Lemma blind_probe_loop fuel p d v : forall last,
  eof_blind (probe_loop fuel p d v last).
Proof.
  induction fuel as [|fuel IH]; intros last; cbn [probe_loop]; [blind|].
  unfold probe_body. blind.
Qed.

#[local] Hint Resolve blind_wait_init blind_probe_loop : blind.

Lemma blind_supervise ovpn auth timeout ndl extra v probe ptimeout :
  eof_blind (supervise ovpn auth timeout ndl extra v probe ptimeout).
Proof. unfold supervise. cbv zeta. blind. Qed.

#[local] Hint Resolve blind_supervise : blind.

Lemma turns_S t i : turns t i = S (S (Z.to_nat (t / i))).
Proof. unfold turns. lia. Qed.



(** C5 (as amended).  [open_vpn] never reads the watcher's [exited]
    signal: whenever, and whether, the watcher sees the stream end,
    [open_vpn] makes the same calls and returns the same result.  The
    death of the child is detected by [proc.poll()] alone. *)
Theorem exit_event_never_read
    e ovpn auth timeout ndl extra v pre probe ptimeout w :
  open_vpn ovpn auth timeout ndl extra v pre probe ptimeout (with_eof e w)
  = lift_out (with_eof e)
      (open_vpn ovpn auth timeout ndl extra v pre probe ptimeout w).
Proof.
  revert e w.
  change (eof_blind
            (open_vpn ovpn auth timeout ndl extra v pre probe ptimeout)).
  unfold open_vpn. cbv zeta.
  (* the baseline lookup and the pre-flight cleanup *)
  apply blind_bind; [apply blind_get_public_ip | intros ip].
  apply blind_bind.
  - destruct pre; [apply blind_cleanup | apply blind_ret].
  - intros [cleanup_ok cleanup_reason].
    destruct (negb cleanup_ok).
    + apply blind_bind; [|intros _; apply blind_ret].
      destruct v; [apply blind_snapshot | apply blind_ret].
    + (* launch, init loop, liveness re-check, probe loop *)
      apply blind_supervise.
Qed.

(** C5, the claim as stated fails.  First, the watcher never sets
    [exited] (the stream is never seen to end), yet the supervisor detects
    the death of the child, by [proc.poll()], and reports it.  Second, the
    watcher sets [exited] at once while the child keeps running, and the
    supervisor reports nothing until the init deadline. *)
Lemma death_detected_by_poll :
  match open_vpn "c.ovpn" "pass.txt" 25000 marker None false true true 8000
          (world_of dies_at_once) with
  | Ok r w' =>
      r = mkResult false None ("openvpn-exited-early rc=1" ++ tail_label)%string
      /\ match OS.watcher_now w' with
         | Some sw => exit_event sw = false
         | None => False
         end
      /\ existsb (fun ev => match ev with EvPoll => true | _ => false end)
                 (trace w') = true
  | _ => False
  end
  /\ match OS.watcher_now (supervised closes_stream_early) with
     | Some sw => exit_event sw = true
     | None => False
     end
  /\ outcome (open_vpn "c.ovpn" "pass.txt" 5000 marker None false true true 8000
                (world_of closes_stream_early))
     = Some (mkResult false None
               ("timeout-waiting-init final_rc=0" ++ tail_label)%string).
Proof. vm_compute. repeat split. Qed.

(** ** The tail buffer *)

Lemma slice_last_length {A} k (l : list A) :
  1 <= k ->
  List.length (Py.slice_from (- k) l) = Nat.min (List.length l) (Z.to_nat k).
Proof.
  intros K. unfold Py.slice_from.
  replace (- k <? 0) with true by (symmetry; apply Z.ltb_lt; lia).
  rewrite length_skipn. lia.
Qed.

Lemma slice_last_suffix {A} k (l : list A) :
  exists pre, l = pre ++ Py.slice_from k l.
Proof.
  unfold Py.slice_from. eexists. symmetry. apply firstn_skipn.
Qed.

(** For [keep_last_n >= 1] the buffer holds at most [2 * keep_last_n]
    lines after every locked block, and exactly [keep_last_n] after a
    block that trimmed. *)
Lemma locked_append_bounded line sw :
  1 <= keep_last_n sw ->
  Z.of_nat (List.length (lines sw)) <= 2 * keep_last_n sw ->
  keep_last_n (Watcher.locked_append line sw) = keep_last_n sw
  /\ Z.of_nat (List.length (lines (Watcher.locked_append line sw)))
     <= 2 * keep_last_n sw
  /\ (Watcher.trims line sw = true ->
      Z.of_nat (List.length (lines (Watcher.locked_append line sw)))
      = keep_last_n sw).
Proof.
  intros K B. unfold Watcher.locked_append, Watcher.trims. cbn [keep_last_n lines].
  destruct (Z.gtb_spec (Z.of_nat (List.length (lines sw ++ [line])))
              (keep_last_n sw * 2)) as [G|G].
  - rewrite slice_last_length by exact K. repeat split; lia.
  - repeat split; lia || discriminate.
Qed.

Lemma run_line_lines line sw :
  lines (Watcher.run_line line sw) = lines (Watcher.locked_append line sw)
  /\ keep_last_n (Watcher.run_line line sw) = keep_last_n sw.
Proof.
  unfold Watcher.run_line, Watcher.signal_init.
  destruct (Py.contains _ line); split; reflexivity.
Qed.

Lemma observations_bounded stream : forall sw,
  1 <= keep_last_n sw ->
  Z.of_nat (List.length (lines sw)) <= 2 * keep_last_n sw ->
  Forall (fun o => Z.of_nat (List.length (lines o)) <= 2 * keep_last_n sw)
         (Watcher.observations stream sw).
Proof.
  induction stream as [|line rest IH]; intros sw K B; cbn; [constructor|].
  destruct (String.eqb line ""); [constructor|].
  destruct (locked_append_bounded line sw K B) as (E & L & _).
  destruct (run_line_lines line sw) as (RL & RK).
  constructor; [exact L|].
  rewrite <- RK. apply IH; rewrite RK; auto. now rewrite RL.
Qed.

(** For [keep_last_n >= 1], [tail()] joins at most the [keep_last_n] most
    recent lines of the buffer. *)
Lemma tail_at_most sw :
  1 <= keep_last_n sw ->
  exists older recent,
    lines sw = older ++ recent
    /\ Watcher.tail sw = Py.join recent
    /\ Z.of_nat (List.length recent) <= keep_last_n sw.
Proof.
  intros K. unfold Watcher.tail.
  destruct (slice_last_suffix (- keep_last_n sw) (lines sw)) as (pre & E).
  exists pre, (Py.slice_from (- keep_last_n sw) (lines sw)).
  repeat split; auto. rewrite slice_last_length by exact K. lia.
Qed.

(** C8, the failing input: with [keep_last_n = 0] the first line read
    makes the buffer longer than [2 * keep_last_n = 0]; the locked block
    trims, and the trim [lines[-0:]] keeps the whole buffer, so the length
    after the trim is 1, not [keep_last_n]. *)
Theorem tail_bound_fails_for_zero :
  let sw := Watcher.new marker false 0 in
  let line := ("a" ++ nl)%string in
  Watcher.observations [line] sw = [Watcher.locked_append line sw]
  /\ Watcher.trims line sw = true
  /\ lines (Watcher.locked_append line sw) = [line]
  /\ Z.of_nat (List.length (lines (Watcher.locked_append line sw)))
     > 2 * keep_last_n sw.
Proof. vm_compute. repeat split. Qed.

(** C10, the failing input: with [keep_last_n = 0], [tail()] returns all
    the buffered lines, here two, instead of at most [keep_last_n]. *)
Theorem tail_returns_all_for_zero :
  let sw := Watcher.run_lines [("a" ++ nl)%string; ("b" ++ nl)%string]
                              (Watcher.new marker false 0) in
  lines sw = [("a" ++ nl)%string; ("b" ++ nl)%string]
  /\ Watcher.tail sw = ("a" ++ nl ++ "b" ++ nl)%string
  /\ keep_last_n sw = 0.
Proof. vm_compute. repeat split. Qed.

(** * Further properties of [connection.py] *)

(** ** The command runner in [check] mode *)

(** X1. [_run_cmd] with [check=True] returns only when the command
    completed with exit code 0.  A non-zero exit code raises a
    [RuntimeError] that carries the label, the code and the whole output,
    with the sudo hint exactly when the output looks like a sudo prompt; a
    timeout raises a [RuntimeError] carrying the partial output and the
    timeout marker; any other failure of [subprocess.run] is raised again
    unchanged.  In every case exactly one command was run. *)
Theorem run_cmd_checked cmd timeout_s label print_cmd v w :
  match _run_cmd cmd timeout_s true label print_cmd v w with
  | Ok (rc, out) w' =>
      w' = ran cmd timeout_s w /\ rc = 0
      /\ exists stdout,
           fst (run_oracle w (runs w) cmd timeout_s) = Completed 0 stdout
           /\ out = or_empty stdout
  | Exc e w' =>
      w' = ran cmd timeout_s w
      /\ match fst (run_oracle w (runs w) cmd timeout_s) with
         | Completed rc stdout =>
             rc <> 0
             /\ e = RuntimeError
                      (label ++ " failed rc=" ++ Py.str rc
                       ++ (if _looks_like_sudo_tty_problem (or_empty stdout)
                           then sudo_hint else "")
                       ++ nl ++ or_empty stdout)%string
         | Raises (TimeoutExpired _ stdout stderr) =>
             e = RuntimeError
                   (label ++ " timed out" ++ nl
                    ++ (or_empty stdout ++ or_empty stderr
                        ++ nl ++ "[TIMEOUT]" ++ nl))%string
         | Raises x => e = x
         end
  | Hang | OutOfFuel => False
  end.
Proof.
  unfold _run_cmd, try_except, bind, OS.subprocess_run, ran.
  destruct (run_oracle w (runs w) cmd timeout_s) as [o d]. cbn [fst snd].
  destruct o as [rc out|x].
  - cbn [andb]. destruct (Z.eqb_spec rc 0) as [->|N]; cbn [negb].
    + unfold ret. repeat split. now exists out.
    + cbn. split; [reflexivity|]. split; [exact N | reflexivity].
  - destruct x; cbn; split; reflexivity.
Qed.

(** X2. [_sudo_cmd] never runs sudo interactively: in either mode it
    runs exactly one command, whose argv is the sudo found on the path (or
    plain [sudo] when none is found), then [-n], then the given command. *)
Theorem sudo_cmd_non_interactive cmd timeout_s check label v w :
  match _sudo_cmd cmd timeout_s check label v w with
  | Ok _ w' | Exc _ w' =>
      w' = sudo_ran cmd timeout_s w
      /\ trace w' = EvRun (sudo_path w :: "-n" :: cmd) timeout_s :: trace w
      /\ runs w' = S (runs w)
  | Hang | OutOfFuel => False
  end
  /\ sudo_path w <> ""
  /\ (which_sudo w = None -> sudo_path w = "sudo").
Proof.
  split; [|split].
  - unfold _sudo_cmd, bind, OS.which_sudo. fold (sudo_path w).
    destruct check.
    + pose proof (run_cmd_checked (sudo_path w :: "-n" :: cmd) timeout_s
                    label true v w) as H.
      destruct (_run_cmd _ timeout_s true label true v w)
        as [[rc out] w'|e w'| |]; try contradiction.
      * destruct H as (-> & _). now repeat split.
      * destruct H as (-> & _). now repeat split.
    + rewrite run_cmd_unchecked. now repeat split.
  - unfold sudo_path. destruct (which_sudo w) as [path|]; [|discriminate].
    destruct (String.eqb_spec path ""); [discriminate | assumption].
  - unfold sudo_path. now intros ->.
Qed.

(** ** Strings *)

Lemma length_app (a b : string) :
  String.length (a ++ b)%string = (String.length a + String.length b)%nat.
Proof. induction a as [|c a IH]; cbn; auto. Qed.

Lemma app_assoc_s (a b c : string) : ((a ++ b) ++ c = a ++ (b ++ c))%string.
Proof. induction a as [|x a IH]; cbn; congruence. Qed.

Lemma app_empty_r (a : string) : (a ++ "")%string = a.
Proof. induction a as [|x a IH]; cbn; congruence. Qed.

Lemma app_inv_tail_s (a b c : string) : (a ++ c = b ++ c)%string -> a = b.
Proof.
  revert b. induction a as [|x a IH]; intros [|y b] H; auto.
  - apply (f_equal String.length) in H. cbn in H. rewrite length_app in H. lia.
  - apply (f_equal String.length) in H. cbn in H. rewrite length_app in H. lia.
  - cbn in H. injection H as -> H. f_equal. now apply IH.
Qed.

Lemma prefix_app_r n s post :
  String.prefix n s = true -> String.prefix n (s ++ post)%string = true.
Proof.
  revert s. induction n as [|c n IH]; intros s H.
  - now destruct (s ++ post)%string.
  - destruct s as [|d s]; [discriminate|]. cbn in *.
    destruct (ascii_dec c d); [now apply IH | discriminate].
Qed.

Lemma contains_app_r n s post :
  Py.contains n s = true -> Py.contains n (s ++ post)%string = true.
Proof.
  induction s as [|c s IH]; cbn [Py.contains]; intros H.
  - apply orb_true_iff in H. destruct H as [H|H]; [|discriminate].
    destruct n; [|discriminate]. destruct (EmptyString ++ post)%string; reflexivity.
  - apply orb_true_iff in H. cbn [append Py.contains]. apply orb_true_iff.
    destruct H as [H|H].
    + left. now apply (prefix_app_r n (String c s)).
    + right. now apply IH.
Qed.

Lemma contains_app_l n pre s :
  Py.contains n s = true -> Py.contains n (pre ++ s)%string = true.
Proof.
  intros H. induction pre as [|c pre IH]; cbn [append]; auto.
  cbn [Py.contains]. rewrite IH. apply orb_true_r.
Qed.

Lemma contains_embedded n pre s post :
  Py.contains n s = true -> Py.contains n (pre ++ s ++ post)%string = true.
Proof. intros H. now apply contains_app_l, contains_app_r. Qed.

Lemma lower_app a b : Py.lower (a ++ b) = (Py.lower a ++ Py.lower b)%string.
Proof. induction a as [|c a IH]; cbn; congruence. Qed.

Lemma lower_ascii_idem c : Py.lower_ascii (Py.lower_ascii c) = Py.lower_ascii c.
Proof.
  destruct c as [[|] [|] [|] [|] [|] [|] [|] [|]]; reflexivity.
Qed.

Lemma lower_idem s : Py.lower (Py.lower s) = Py.lower s.
Proof.
  induction s as [|c s IH]; cbn; [reflexivity|].
  now rewrite lower_ascii_idem, IH.
Qed.

(** X3. [_looks_like_sudo_tty_problem] ignores letter case and does not
    depend on where in the output the message stands: an output it
    recognises is still recognised with any text before and after it. *)
Theorem sudo_problem_recognised_anywhere :
  (forall out,
     _looks_like_sudo_tty_problem (Py.lower out)
     = _looks_like_sudo_tty_problem out)
  /\ (forall pre out post,
        _looks_like_sudo_tty_problem out = true ->
        _looks_like_sudo_tty_problem (pre ++ out ++ post)%string = true).
Proof.
  split.
  - intros out. unfold _looks_like_sudo_tty_problem. now rewrite lower_idem.
  - intros pre out post. unfold _looks_like_sudo_tty_problem.
    rewrite !lower_app.
    set (a := Py.lower pre). set (b := Py.lower out). set (c := Py.lower post).
    intros H.
    repeat match type of H with
           | (_ || _) = true => apply orb_true_iff in H; destruct H as [H|H]
           end.
    + now rewrite (contains_embedded _ a b c H).
    + rewrite (contains_embedded _ a b c H). now rewrite orb_true_r.
    + apply andb_true_iff in H. destruct H as (H1 & H2).
      rewrite (contains_embedded _ a b c H1), (contains_embedded _ a b c H2).
      cbn. now rewrite orb_true_r.
    + rewrite (contains_embedded _ a b c H). now rewrite orb_true_r.
Qed.

Lemma sudo_problem_recognised_anywhere_witness :
  _looks_like_sudo_tty_problem "sudo: a password is required" = true
  /\ _looks_like_sudo_tty_problem
       ("$ route" ++ "sudo: a password is required" ++ nl)%string = true.
Proof.
  split; [reflexivity|].
  exact (proj2 sudo_problem_recognised_anywhere "$ route"
           "sudo: a password is required" nl eq_refl).
Defined.

(** ** Quoting *)

Lemma replace_squote_length s :
  (String.length s <= String.length (replace_squote s))%nat.
Proof.
  induction s as [|c s IH]; cbn; [lia|].
  destruct (Ascii.eqb c "039"); cbn; lia.
Qed.

Lemma replace_squote_inj a : forall b,
  replace_squote a = replace_squote b -> a = b.
Proof.
  induction a as [|x a IH]; intros [|y b]; cbn; auto.
  - destruct (Ascii.eqb y "039"); discriminate.
  - destruct (Ascii.eqb x "039"); discriminate.
  - destruct (Ascii.eqb_spec x "039"%char) as [->|Nx];
      destruct (Ascii.eqb_spec y "039"%char) as [->|Ny]; cbn.
    + intros [= H]. f_equal. now apply IH.
    + intros [= H _]. now subst.
    + intros [= H _]. now subst.
    + intros [= -> H]. f_equal. now apply IH.
Qed.

Lemma safe_not_squote s :
  s <> "" -> all_safe s = true -> forall r, s <> (squote ++ r)%string.
Proof.
  destruct s as [|c s]; [easy|]. cbn. intros _ H r [= -> _]. discriminate.
Qed.


(** ** The route probe *)

Lemma strip_prefix_app p r : Py.strip_prefix p (p ++ r)%string = Some r.
Proof.
  induction p as [|c p IH]; cbn; [reflexivity|].
  now rewrite Ascii.eqb_refl.
Qed.

Lemma strip_prefix_inv p : forall s r,
  Py.strip_prefix p s = Some r -> s = (p ++ r)%string.
Proof.
  induction p as [|c p IH]; intros s r; cbn.
  - now intros [= ->].
  - destruct s as [|d s]; [discriminate|].
    destruct (Ascii.eqb_spec c d) as [->|N]; [|discriminate].
    intros H. cbn. f_equal. now apply IH.
Qed.

Lemma drop_spaces_split s :
  exists ws, s = (ws ++ Py.drop_spaces s)%string /\ all_space ws = true.
Proof.
  induction s as [|c s (ws & E & A)]; cbn.
  - now exists "".
  - destruct (Py.is_space c) eqn:Sp.
    + exists (String c ws). cbn. rewrite Sp, A.
      split; [now f_equal | reflexivity].
    + now exists "".
Qed.

Lemma drop_spaces_app ws c r :
  all_space ws = true -> Py.is_space c = false ->
  Py.drop_spaces (ws ++ String c r) = String c r.
Proof.
  intros A N. induction ws as [|x ws IH]; cbn in *.
  - now rewrite N.
  - apply andb_true_iff in A. destruct A as (-> & A). now apply IH.
Qed.

Lemma utun_here_iff s :
  utun_here s = true <->
  exists ws d rest,
    s = ("interface:" ++ ws ++ "utun" ++ String d rest)%string
    /\ ws <> "" /\ all_space ws = true /\ Py.is_digit d = true.
Proof.
  unfold utun_here. split.
  - destruct (Py.strip_prefix "interface:" s) as [[|c r]|] eqn:P;
      try discriminate.
    apply strip_prefix_inv in P. intros H.
    apply andb_true_iff in H. destruct H as (Sp & H).
    destruct (Py.strip_prefix "utun" (Py.drop_spaces r)) as [[|d rest]|] eqn:U;
      try discriminate.
    apply strip_prefix_inv in U.
    destruct (drop_spaces_split r) as (ws & E & A).
    exists (String c ws), d, rest. repeat split; auto.
    + rewrite P, E, U. reflexivity.
    + discriminate.
    + cbn. now rewrite Sp, A.
  - intros (ws & d & rest & -> & N & A & D).
    rewrite strip_prefix_app.
    destruct ws as [|c ws]; [contradiction|]. cbn in A.
    apply andb_true_iff in A. destruct A as (Sp & A).
    cbn [append]. rewrite Sp. cbn [andb].
    change ("utun" ++ String d rest)%string
      with (String "u" ("tun" ++ String d rest)%string).
    rewrite (drop_spaces_app ws "u" _ A eq_refl).
    cbn. exact D.
Qed.

Lemma search_utun_iff out : search_utun out = true <-> utun_line out.
Proof.
  unfold utun_line. split.
  - assert (Here : forall s, utun_here s = true ->
              exists pre ws d rest,
                s = (pre ++ "interface:" ++ ws ++ "utun" ++ String d rest)%string
                /\ ws <> "" /\ all_space ws = true /\ Py.is_digit d = true).
    { intros s H. apply utun_here_iff in H.
      destruct H as (ws & d & rest & E & F). now exists "", ws, d, rest. }
    induction out as [|c out IH]; cbn [search_utun]; intros H;
      apply orb_true_iff in H; destruct H as [H|H].
    + now apply Here.
    + discriminate.
    + now apply Here.
    + destruct (IH H) as (pre & ws & d & rest & E & F).
      exists (String c pre), ws, d, rest. split; [|exact F].
      cbn. now rewrite E.
  - intros (pre & ws & d & rest & -> & F).
    assert (H : utun_here ("interface:" ++ ws ++ "utun" ++ String d rest)
                = true).
    { apply utun_here_iff. now exists ws, d, rest. }
    set (found := ("interface:" ++ ws ++ "utun" ++ String d rest)%string) in *.
    clearbody found.
    induction pre as [|c pre IH].
    + destruct found; cbn [append search_utun]; now rewrite H.
    + cbn [append search_utun]. rewrite IH. apply orb_true_r.
Qed.


(** ** The public address *)

Lemma ip_here_no_dquote c s :
  Ascii.eqb c "034"%char = false -> ip_here (String c s) = None.
Proof.
  intros N. unfold ip_here.
  change (dquote ++ "ip" ++ dquote)%string
    with (String "034" ("ip" ++ dquote)%string).
  cbn [Py.strip_prefix]. now rewrite Ascii.eqb_sym, N.
Qed.

Lemma search_ip_skip pre s :
  no_dquote pre = true -> s <> "" -> search_ip (pre ++ s) = search_ip s.
Proof.
  intros H N. induction pre as [|c pre IH]; [reflexivity|].
  cbn in H. apply andb_true_iff in H. destruct H as (C & H).
  apply negb_true_iff in C.
  cbn [append search_ip]. rewrite (ip_here_no_dquote _ _ C). now apply IH.
Qed.

Lemma no_dquote_search s : no_dquote s = true -> search_ip s = None.
Proof.
  induction s as [|c s IH]; intros H; [reflexivity|].
  cbn in H. apply andb_true_iff in H. destruct H as (C & H).
  apply negb_true_iff in C.
  cbn [search_ip]. rewrite (ip_here_no_dquote _ _ C). now apply IH.
Qed.

Lemma until_quote_app ip rest :
  no_dquote ip = true ->
  until_quote (ip ++ dquote ++ rest) = (ip, (dquote ++ rest)%string).
Proof.
  intros H. induction ip as [|c ip IH]; [reflexivity|].
  cbn in H. apply andb_true_iff in H. destruct H as (C & H).
  apply negb_true_iff in C.
  cbn [append until_quote]. rewrite C, (IH H). reflexivity.
Qed.

Lemma ip_here_json ws1 ws2 ip post :
  all_space ws1 = true -> all_space ws2 = true ->
  ip <> "" -> no_dquote ip = true ->
  ip_here (ip_json "" ws1 ws2 ip post) = Some ip.
Proof.
  intros A1 A2 N Q. unfold ip_json, ip_here. cbn [append].
  change (String "034" (String "i" (String "p" (String "034"
            (ws1 ++ ":" ++ ws2 ++ dquote ++ ip ++ dquote ++ post)))))%string
    with ((dquote ++ "ip" ++ dquote)
            ++ ws1 ++ ":" ++ ws2 ++ dquote ++ ip ++ dquote ++ post)%string.
  rewrite strip_prefix_app.
  change (":" ++ ws2 ++ dquote ++ ip ++ dquote ++ post)%string
    with (String ":" (ws2 ++ dquote ++ ip ++ dquote ++ post)%string).
  rewrite (drop_spaces_app ws1 ":" _ A1 eq_refl).
  cbn [Py.strip_prefix]. rewrite Ascii.eqb_refl.
  change (dquote ++ ip ++ dquote ++ post)%string
    with (String "034" (ip ++ dquote ++ post)%string).
  rewrite (drop_spaces_app ws2 "034" _ A2 eq_refl).
  unfold dquote at 1. cbn [Py.strip_prefix]. rewrite Ascii.eqb_refl.
  rewrite (until_quote_app ip post Q).
  destruct ip as [|c ip]; [contradiction|]. reflexivity.
Qed.



(** ** Stopping and closing *)

Lemma status_none w :
  status w = None ->
  returncode (child w) = None /\ OS.exited_by (now w) (child w) = None.
Proof.
  unfold status. destruct (returncode (child w)); [discriminate | auto].
Qed.

Lemma polled_running w : status w = None -> polled w = log EvPoll w.
Proof.
  intros H. destruct (status_none w H) as (R & E). unfold polled.
  now rewrite R, E.
Qed.

(** X7. A graceful stop does not escalate.  When the child is running,
    the group signal can be delivered and the child reacts to [SIGINT] by
    exiting within the grace period, [stop_process] returns the exit status
    of that reaction after the calls [poll], [killpg(SIGINT)] and one
    [wait]: no [SIGTERM], no [SIGKILL].  It returns at the instant the
    child exits, not at the end of the grace period. *)
Theorem stop_process_graceful p sigint_grace_s sigterm_grace_s w delay rc :
  status w = None ->
  exit_at (child w) = None ->
  os_nt w = false ->
  killpg_raises (behaviour (child w)) SIGINT = false ->
  reacts (behaviour (child w)) SIGINT = Some (delay, rc) ->
  0 <= delay <= sigint_grace_s ->
  exists w',
    stop_process p sigint_grace_s sigterm_grace_s w = Ok rc w'
    /\ trace w' = EvWait (Some sigint_grace_s) :: EvKillpg SIGINT :: EvPoll
                    :: trace w
    /\ now w' = now w + delay
    /\ returncode (child w') = Some rc.
Proof.
  intros St X NT K R D.
  destruct (status_none w St) as (RC & EB).
  unfold stop_process.
  rewrite (bind_ok _ _ _ _ _ (poll_ok p w)), St, (polled_running w St).
  assert (S1 : signal_best_effort p SIGINT (log EvPoll w)
               = Ok tt (set_child
                          (OS.set_exit_at (Some (now w + delay, rc)) (child w))
                          (log (EvKillpg SIGINT) (log EvPoll w)))).
  { unfold signal_best_effort, try_except, _send_signal_to_process_group,
      bind, OS.is_nt, OS.killpg. cbn. rewrite NT. cbn. rewrite K.
    unfold OS.deliver. rewrite EB, R, X.
    now replace (Z.max 0 delay) with delay by lia. }
  rewrite (bind_ok _ _ _ _ _ S1).
  set (w1 := set_child _ _) in *.
  assert (S2 : wait_or_pass p sigint_grace_s w1
               = Ok (Some rc)
                    (set_child (OS.set_returncode (Some rc) (child w1))
                       (set_now (now w + delay)
                          (log (EvWait (Some sigint_grace_s)) w1)))).
  { unfold wait_or_pass, try_except, bind, OS.wait_timeout, ret.
    subst w1. cbn. rewrite RC.
    replace (now w + delay <=? now w + Z.max 0 sigint_grace_s) with true
      by (symmetry; apply Z.leb_le; lia).
    now replace (Z.max (now w) (now w + delay)) with (now w + delay) by lia. }
  rewrite (bind_ok _ _ _ _ _ S2). unfold ret.
  eexists. split; [reflexivity|]. subst w1. cbn. now repeat split.
Qed.

Lemma stop_process_graceful_witness :
  exists w',
    stop_process 4242 5000 3000 (supervised never_ready) = Ok 0 w'
    /\ trace w' = EvWait (Some 5000) :: EvKillpg SIGINT :: EvPoll
                    :: trace (supervised never_ready)
    /\ now w' = now (supervised never_ready) + 100
    /\ returncode (child w') = Some 0.
Proof.
  apply (stop_process_graceful 4242 5000 3000 (supervised never_ready) 100 0);
    reflexivity || lia.
Defined.


Lemma now_slept ms w : now (slept ms w) = now w + Z.max 0 ms.
Proof. reflexivity. Qed.

Lemma now_sudo_ran cmd t w : now w <= now (sudo_ran cmd t w).
Proof. apply (fr_now _ _ (frame_sudo_ran cmd t w)). Qed.

Lemma now_swept w : now w + 500 <= now (swept w).
Proof.
  unfold swept. rewrite now_slept.
  do 5 (eapply Z.le_trans; [|apply Z.add_le_mono_r, now_sudo_ran]).
  rewrite now_slept.
  pose proof (now_sudo_ran ["pkill"; "-TERM"; "openvpn"] 3000 w). lia.
Qed.


(** ** A successful attempt *)

Lemma still_refl w : still w w.
Proof. constructor; auto; try lia. now exists []. Qed.

Lemma still_trans w1 w2 w3 : still w1 w2 -> still w2 w3 -> still w1 w3.
Proof.
  intros [C1 W1 N1 (d1 & T1 & Q1)] [C2 W2 N2 (d2 & T2 & Q2)].
  constructor; try congruence; try lia.
  exists (d2 ++ d1). split.
  - now rewrite T2, T1, app_assoc.
  - now rewrite forallb_app, Q2, Q1.
Qed.

Lemma still_log e w : calm e = true -> still w (log e w).
Proof.
  intros H. constructor; auto; cbn; try lia.
  exists [e]. split; [reflexivity|]. cbn. now rewrite H.
Qed.

Lemma still_advance d w : still w (advance d w).
Proof. constructor; auto; cbn; try lia. now exists []. Qed.

Lemma still_slept ms w : still w (slept ms w).
Proof.
  eapply still_trans; [apply (still_log (EvSleep ms)) | apply still_advance].
  reflexivity.
Qed.

Lemma still_ran cmd t w : still w (ran cmd t w).
Proof.
  unfold ran. set (d := snd _). clearbody d.
  constructor; auto; cbn; try lia. now exists [EvRun cmd t].
Qed.

Lemma still_connected host port t w : still w (connected host port t w).
Proof.
  unfold connected. set (d := snd _). clearbody d.
  constructor; auto; cbn; try lia. now exists [EvConnect host port t].
Qed.

Lemma still_swept w : still w (swept w).
Proof.
  unfold swept.
  eapply still_trans; [|apply still_slept].
  do 5 (eapply still_trans; [|apply still_ran]).
  eapply still_trans; [|apply still_slept].
  apply still_ran.
Qed.

Lemma still_cleaned v w : still w (cleaned v w).
Proof.
  unfold cleaned. destruct v; [|apply still_swept].
  unfold snapshotted.
  do 3 (eapply still_trans; [|apply still_ran]). apply still_swept.
Qed.

Lemma still_polled w : status w = None -> still w (polled w).
Proof. intros H. rewrite (polled_running w H). now apply still_log. Qed.

Lemma seen_eq w :
  seen w =
    match watcher w, launched (child w) with
    | Some sw0, Some t0 =>
        init_event
          (Watcher.run_lines
             (OS.consumed (now w - t0) (output (behaviour (child w)))) sw0)
    | _, _ => false
    end.
Proof.
  unfold seen, OS.watcher_now.
  destruct (watcher w); auto. destruct (launched (child w)); auto.
  match goal with |- context [if ?b then _ else _] => destruct b end;
    reflexivity.
Qed.

Lemma consumed_mono out : forall e e',
  e <= e' -> exists more, OS.consumed e' out = OS.consumed e out ++ more.
Proof.
  induction out as [|[t line] out IH]; intros e e' L; cbn.
  - now exists [].
  - destruct (Z.leb_spec t e).
    + replace (t <=? e') with true by (symmetry; apply Z.leb_le; lia).
      destruct (IH e e' L) as (more & ->). now exists more.
    + eexists. reflexivity.
Qed.

Lemma init_event_kept l : forall sw,
  init_event sw = true -> init_event (Watcher.run_lines l sw) = true.
Proof.
  induction l as [|line l IH]; intros sw H; cbn; auto.
  destruct (String.eqb line ""); auto. apply IH.
  unfold Watcher.run_line, Watcher.signal_init.
  destruct (Py.contains _ line); cbn; auto.
Qed.

Lemma init_event_more l more : forall sw,
  init_event (Watcher.run_lines l sw) = true ->
  init_event (Watcher.run_lines (l ++ more) sw) = true.
Proof.
  induction l as [|line l IH]; intros sw H; cbn in *.
  - now apply init_event_kept.
  - destruct (String.eqb line ""); auto.
Qed.

(** Once the marker is seen it stays seen. *)
Lemma seen_still w w' : still w w' -> seen w = true -> seen w' = true.
Proof.
  intros [C W N _]. rewrite !seen_eq, C, W.
  destruct (watcher w); auto. destruct (launched (child w)) as [t0|]; auto.
  destruct (consumed_mono (output (behaviour (child w)))
              (now w - t0) (now w' - t0)) as (more & ->); [lia|].
  apply init_event_more.
Qed.

Lemma internet_probe_still timeout v w :
  exists r w',
    _internet_probe_ok timeout true v w = Ok r w' /\ still w w'
    /\ (fst r = true -> probe_passed w (Z.min 3000 timeout)).
Proof.
  rewrite internet_probe_eq. unfold probe_passed. cbn [andb]. cbv zeta.
  set (w0 := ran (route_cmd "1.1.1.1") 3000 w).
  assert (S0 : still w (log EvMonotonic w0)).
  { eapply still_trans; [apply still_ran | now apply still_log]. }
  destruct (route_ok "1.1.1.1" w).
  2: { eexists _, _. split; [reflexivity|]. split; [apply still_ran|].
       discriminate. }
  cbn [negb].
  set (t := Z.min 3000 timeout).
  assert (S1 : still w (connected "api.ipify.org" 443 t (log EvMonotonic w0))).
  { eapply still_trans; [exact S0 | apply still_connected]. }
  destruct (connect_ok "api.ipify.org" 443 t (log EvMonotonic w0)).
  2: { eexists _, _. split; [reflexivity|]. split; [|discriminate].
       eapply still_trans; [exact S1 | now apply still_log]. }
  cbn [negb].
  destruct (connect_ok "1.1.1.1" 443 t _).
  2: { eexists _, _. split; [reflexivity|]. split; [|discriminate].
       eapply still_trans; [exact S1|].
       eapply still_trans; [apply still_connected | now apply still_log]. }
  eexists _, _. split; [reflexivity|]. split; [|now intros _].
  eapply still_trans; [exact S1 | apply still_connected].
Qed.

Lemma wait_init_break fuel p d : forall w w',
  wait_init fuel p d w = Ok None w' -> still w w' /\ seen w' = true.
Proof.
  induction fuel as [|fuel IH]; intros w w'; cbn [wait_init]; [discriminate|].
  unfold bind. rewrite wait_init_body_eq.
  destruct (seen w) eqn:Seen.
  { unfold ret. intros [= <-]. split; [now apply still_log | exact Seen]. }
  destruct (status w) as [rc|] eqn:St; [discriminate|].
  destruct (now w >=? d).
  { destruct (stop_process p 5000 3000 (log EvTail (checked w))); discriminate. }
  intros H. destruct (IH _ _ H) as (S & Sn). split; [|exact Sn].
  eapply still_trans; [|exact S].
  unfold checked.
  eapply still_trans; [|apply still_slept].
  eapply still_trans; [|now apply still_log].
  eapply still_trans; [now apply (still_log EvIsSet)|].
  now apply still_polled.
Qed.

Lemma probe_body_success p d v w r w' :
  probe_body p d v w = Ok (inl r) w' -> ok r = true ->
  r = mkResult true (Some p) "initialized+probe-ok"
  /\ still w w'
  /\ exists wp t,
       still w wp /\ still wp w' /\ status wp = None /\ probe_passed wp t.
Proof.
  unfold probe_body.
  rewrite (bind_ok _ _ _ _ _ (poll_ok p w)).
  destruct (status w) as [rc|] eqn:St.
  { rewrite (bind_ok _ _ _ _ _ (tail_ok _)).
    rewrite (bind_ok _ _ _ _ _ (best_effort_cleanup_ok false _)).
    unfold ret. intros [= <- _]. discriminate. }
  rewrite (bind_ok _ _ _ _ _ (monotonic_ok _)).
  set (w1 := log EvMonotonic (polled w)).
  assert (S1 : still w w1).
  { eapply still_trans; [now apply still_polled | now apply still_log]. }
  destruct (internet_probe_still (Z.min 5000 (d - now (polled w))) v w1)
    as ([b reason] & w2 & E & S2 & P).
  rewrite (bind_ok _ _ _ _ _ E).
  destruct b.
  - destruct (get_public_ip_ok v w2) as (ip & G).
    rewrite (bind_ok _ _ _ _ _ G). unfold ret. intros [= <- <-] _.
    split; [reflexivity|].
    assert (S3 : still w1 (ran curl_cmd 8000 w2)).
    { eapply still_trans; [exact S2 | apply still_ran]. }
    split; [eapply still_trans; eauto|].
    exists w1, (Z.min 3000 (Z.min 5000 (d - now (polled w)))).
    split; [exact S1|]. split; [exact S3|]. split; [|now apply P].
    change (status (polled w) = None). now rewrite status_polled.
  - rewrite (bind_ok _ _ _ _ _ (sleep_ok _ _)). unfold ret. discriminate.
Qed.

Lemma probe_body_again p d v w reason w' :
  probe_body p d v w = Ok (inr reason) w' -> still w w'.
Proof.
  unfold probe_body.
  rewrite (bind_ok _ _ _ _ _ (poll_ok p w)).
  destruct (status w) as [rc|] eqn:St.
  { rewrite (bind_ok _ _ _ _ _ (tail_ok _)).
    rewrite (bind_ok _ _ _ _ _ (best_effort_cleanup_ok false _)).
    unfold ret. discriminate. }
  rewrite (bind_ok _ _ _ _ _ (monotonic_ok _)).
  set (w1 := log EvMonotonic (polled w)).
  assert (S1 : still w w1).
  { eapply still_trans; [now apply still_polled | now apply still_log]. }
  destruct (internet_probe_still (Z.min 5000 (d - now (polled w))) v w1)
    as ([b r] & w2 & E & S2 & P).
  rewrite (bind_ok _ _ _ _ _ E).
  destruct b.
  - destruct (get_public_ip_ok v w2) as (ip & G).
    rewrite (bind_ok _ _ _ _ _ G). unfold ret. discriminate.
  - rewrite (bind_ok _ _ _ _ _ (sleep_ok _ _)). unfold ret. intros [= _ <-].
    eapply still_trans; [exact S1|].
    eapply still_trans; [exact S2 | apply still_slept].
Qed.

Lemma probe_loop_success fuel p d v : forall last w r w',
  probe_loop fuel p d v last w = Ok (inl r) w' -> ok r = true ->
  r = mkResult true (Some p) "initialized+probe-ok"
  /\ still w w'
  /\ exists wp t,
       still w wp /\ still wp w' /\ status wp = None /\ probe_passed wp t.
Proof.
  induction fuel as [|fuel IH]; intros last w r w'; cbn [probe_loop];
    [discriminate|].
  rewrite (bind_ok _ _ _ _ _ (monotonic_ok _)).
  destruct (now w <? d); [|unfold ret; discriminate].
  set (w1 := log EvMonotonic w).
  assert (S1 : still w w1) by now apply still_log.
  unfold bind at 1.
  destruct (probe_body p d v w1) as [[r1|reason] w2| | |] eqn:B;
    try discriminate.
  - unfold ret. intros [= <- <-] O.
    destruct (probe_body_success _ _ _ _ _ _ B O)
      as (-> & S2 & wp & t & Sa & Sb & St & P).
    split; [reflexivity|]. split; [eapply still_trans; eauto|].
    exists wp, t. split; [eapply still_trans; eauto | auto].
  - intros H O.
    pose proof (probe_body_again _ _ _ _ _ _ B) as S2.
    destruct (IH _ _ _ _ H O) as (-> & S3 & wp & t & Sa & Sb & St & P).
    split; [reflexivity|].
    split; [eapply still_trans; [exact S1|]; eapply still_trans; eauto|].
    exists wp, t. split; [|auto].
    eapply still_trans; [exact S1|]. eapply still_trans; eauto.
Qed.

Lemma supervise_success ovpn auth timeout ndl extra v probe ptimeout w r w' :
  supervise ovpn auth timeout ndl extra v probe ptimeout w = Ok r w' ->
  ok r = true ->
  let launch := EvWatcherStart :: EvPopen (openvpn_argv ovpn auth extra)
                  :: trace w in
  reason r = (if probe then "initialized+probe-ok" else "initialized")
  /\ proc r = Some (pid (child w))
  /\ seen w' = true
  /\ returncode (child w') = None
  /\ (exists after, trace w' = after ++ launch /\ forallb calm after = true)
  /\ (probe = true ->
      exists wp t,
        probe_passed wp t /\ status wp = None /\ seen wp = true
        /\ still wp w'
        /\ exists before, trace wp = before ++ launch).
Proof.
  unfold supervise. cbv zeta.
  set (argv := openvpn_argv ovpn auth extra).
  rewrite (bind_ok _ _ _ _ _ (popen_ok argv w)).
  rewrite (bind_ok _ _ _ _ _ (watcher_start_ok _ _ _)).
  rewrite (bind_ok _ _ _ _ _ (monotonic_ok _)).
  set (w2 := watching ndl v (spawned argv w)).
  set (w3 := log EvMonotonic w2).
  set (p := pid (child w)).
  assert (C3 : consistent w3) by (unfold consistent; cbn; discriminate).
  assert (R3 : returncode (child w3) = None) by reflexivity.
  assert (T3 : trace w3 = [EvMonotonic] ++ EvWatcherStart :: EvPopen argv
                            :: trace w) by reflexivity.
  assert (Launch : forall x, still w3 x ->
            exists after, trace x = after ++ EvWatcherStart :: EvPopen argv
                                      :: trace w
                          /\ forallb calm after = true).
  { intros x [_ _ _ (d & T & Q)]. exists (d ++ [EvMonotonic]). split.
    - now rewrite T, T3, <- app_assoc.
    - rewrite forallb_app, Q. reflexivity. }
  change (now w2) with (now w3).
  destruct (turns_50 timeout (now w3 + timeout) w3 eq_refl) as (F1 & F2).
  pose proof (wait_init_spec (turns timeout 50) p (now w3 + timeout) w3
                C3 F1 F2) as WI.
  clear F1 F2. unfold bind at 1.
  destruct (wait_init (turns timeout 50) p (now w3 + timeout) w3)
    as [[r0|] w4| | |] eqn:E; try discriminate.
  { unfold ret. intros [= <- <-] O. destruct WI as (_ & (O' & _) & _).
    congruence. }
  clear WI. destruct (wait_init_break _ _ _ _ _ E) as (S4 & Seen4).
  rewrite (bind_ok _ _ _ _ _ (poll_ok p w4)).
  destruct (status w4) as [rc|] eqn:St.
  { rewrite (bind_ok _ _ _ _ _ (tail_ok _)).
    rewrite (bind_ok _ _ _ _ _ (best_effort_cleanup_ok false _)).
    unfold ret. intros [= <- _]. discriminate. }
  assert (S5 : still w3 (polled w4)).
  { eapply still_trans; [exact S4 | now apply still_polled]. }
  destruct probe.
  - rewrite (bind_ok _ _ _ _ _ (monotonic_ok _)).
    set (w5 := log EvMonotonic (polled w4)).
    assert (S35 : still w3 w5).
    { eapply still_trans; [exact S5 | now apply still_log]. }
    change (now (polled w4)) with (now w5).
    unfold bind at 1.
    destruct (probe_loop (turns ptimeout 250) p (now w5 + ptimeout) v
                "probe-not-run" w5) as [[r1|last] w6| | |] eqn:PL;
      try discriminate.
    + unfold ret. intros [= <- <-] O.
      destruct (probe_loop_success _ _ _ _ _ _ _ _ PL O)
        as (-> & S6 & wp & t & Sa & Sb & Stp & P).
      pose proof (still_trans _ _ _ S35 S6) as S36.
      pose proof (still_trans _ _ _ S35 Sa) as S3p.
      assert (S45 : still w4 w5).
      { eapply still_trans; [now apply still_polled | now apply still_log]. }
      cbn [reason proc].
      split; [reflexivity|]. split; [reflexivity|].
      split; [exact (seen_still _ _ (still_trans _ _ _ S45 S6) Seen4)|].
      split; [now rewrite (st_child _ _ S36)|].
      split; [exact (Launch _ S36)|].
      intros _. exists wp, t.
      split; [exact P|]. split; [exact Stp|].
      split; [exact (seen_still _ _ (still_trans _ _ _ S45 Sa) Seen4)|].
      split; [exact Sb|].
      destruct (Launch wp S3p) as (b & T & _). now exists b.
    + rewrite (bind_ok _ _ _ _ _ (tail_ok _)).
      unfold bind at 1.
      destruct (stop_process p 5000 3000 (log EvTail w6)); try discriminate.
      rewrite (bind_ok _ _ _ _ _ (best_effort_cleanup_ok false _)).
      destruct v.
      * rewrite (bind_ok _ _ _ _ _ (snapshot_ok _ _ _)).
        unfold ret. intros [= <- _]. discriminate.
      * unfold ret at 1. unfold bind at 1. unfold ret.
        intros [= <- _]. discriminate.
  - unfold ret. intros [= <- <-] _. cbn [reason proc].
    split; [reflexivity|]. split; [reflexivity|].
    split; [exact (seen_still _ _ (still_polled _ St) Seen4)|].
    split; [now rewrite (st_child _ _ S5)|].
    split; [exact (Launch _ S5) | discriminate].
Qed.

(** X10. A successful attempt.  When [open_vpn] returns [ok=True]: the
    reason is [initialized+probe-ok] (or [initialized] when the probe is
    switched off) and the handle is that of the child it launched; the
    marker has been seen by the watcher; the handle has not been reaped;
    since the launch no signal was sent and nothing was waited for; in
    the whole attempt exactly one process was launched, with the fixed
    argument vector followed by the caller's extra arguments; and, with
    the probe on, at some instant after the launch and after the marker the
    child was running, the route to 1.1.1.1 used a [utun] interface and
    both TCP targets accepted a connection. *)
Theorem open_vpn_success
    ovpn auth timeout ndl extra v pre probe ptimeout w r w' :
  open_vpn ovpn auth timeout ndl extra v pre probe ptimeout w = Ok r w' ->
  ok r = true ->
  exists before,
    let launch :=
      EvWatcherStart :: EvPopen (openvpn_argv ovpn auth (given_args extra))
        :: before ++ trace w in
    forallb calm before = true
    /\ reason r = (if probe then "initialized+probe-ok" else "initialized")
    /\ proc r = Some (pid (child w))
    /\ seen w' = true
    /\ returncode (child w') = None
    /\ (exists after, trace w' = after ++ launch /\ forallb calm after = true)
    /\ (probe = true ->
        exists wp t,
          probe_passed wp t /\ status wp = None /\ seen wp = true
          /\ still wp w'
          /\ exists since, trace wp = since ++ launch).
Proof.
  unfold open_vpn. cbv zeta. fold (given_args extra).
  destruct (get_public_ip_ok v w) as (ip & G).
  rewrite (bind_ok _ _ _ _ _ G).
  assert (Pre : exists b w2,
             (if pre then _best_effort_cleanup v else ret (true, ""))
               (ran curl_cmd 8000 w) = Ok (true, b) w2 /\ still w w2).
  { destruct pre.
    - eexists _, _. split; [apply best_effort_cleanup_ok|].
      eapply still_trans; [apply still_ran | apply still_cleaned].
    - eexists _, _. split; [reflexivity | apply still_ran]. }
  destruct Pre as (b & w2 & E & [C2 _ _ (before & T2 & Q2)]).
  rewrite (bind_ok _ _ _ _ _ E). cbn [negb].
  intros H O. exists before. cbv zeta.
  destruct (supervise_success _ _ _ _ _ _ _ _ _ _ _ H O)
    as (Rn & P & Sn & Rc & A & Pr).
  rewrite C2 in P. rewrite T2 in A, Pr.
  split; [exact Q2|]. split; [exact Rn|]. split; [exact P|].
  split; [exact Sn|]. split; [exact Rc|]. split; [exact A | exact Pr].
Qed.

Lemma open_vpn_success_witness :
  match open_vpn "c.ovpn" "pass.txt" 25000 marker None false true true 8000
          (world_with utun_run ready_at_2s) with
  | Ok r w' =>
      ok r = true /\ reason r = "initialized+probe-ok"
      /\ seen w' = true /\ returncode (child w') = None
  | _ => False
  end.
Proof.
  destruct (open_vpn "c.ovpn" "pass.txt" 25000 marker None false true true 8000
              (world_with utun_run ready_at_2s)) as [r w'| | |] eqn:E;
    try (vm_compute in E; discriminate E).
  assert (O : ok r = true).
  { pose proof scenario_a as A. rewrite E in A. now injection A as ->. }
  destruct (open_vpn_success _ _ _ _ _ _ _ _ _ _ _ _ E O)
    as (before & _ & Rn & _ & Sn & Rc & _).
  now repeat split.
Defined.

(** * Properties of the configuration helpers *)

Lemma lookup_setdefault {A} k key (x : A) out :
  lookup k (setdefault_append key x out)
  = if String.eqb key k
    then Some (match lookup k out with
               | Some xs => xs ++ [x]
               | None => [x]
               end)
    else lookup k out.
Proof.
  induction out as [|[k' xs] out IH]; cbn.
  - destruct (String.eqb_spec key k); reflexivity.
  - destruct (String.eqb_spec k' key) as [->|N]; cbn.
    + destruct (String.eqb_spec key k); reflexivity.
    + rewrite IH. destruct (String.eqb_spec k' k) as [->|N'];
        destruct (String.eqb_spec key k) as [->|N'']; congruence.
Qed.

Lemma keys_setdefault {A} key (x : A) out :
  map fst (setdefault_append key x out)
  = if existsb (String.eqb key) (map fst out) then map fst out
    else map fst out ++ [key].
Proof.
  induction out as [|[k' xs] out IH]; cbn; [reflexivity|].
  destruct (String.eqb_spec k' key) as [->|N]; cbn.
  - now rewrite String.eqb_refl.
  - rewrite IH. destruct (String.eqb_spec key k'); [congruence|]. cbn.
    now destruct (existsb (String.eqb key) (map fst out)).
Qed.

Lemma values_setdefault {A} key (x : A) out :
  Permutation (List.concat (map snd (setdefault_append key x out)))
              (List.concat (map snd out) ++ [x]).
Proof.
  induction out as [|[k' xs] out IH]; cbn; [reflexivity|].
  destruct (String.eqb k' key); cbn.
  - rewrite <- !app_assoc. apply Permutation_app_head, Permutation_app_comm.
  - rewrite <- app_assoc. now apply Permutation_app_head.
Qed.

Lemma group_by_fold {A} (key : A -> string) configs : forall out,
  NoDup (map fst out) ->
  let d := fold_left (fun out x => setdefault_append (key x) x out) configs out in
  (forall k,
     lookup k d
     = match lookup k out, filter (fun x => String.eqb (key x) k) configs with
       | None, [] => None
       | None, l => Some l
       | Some xs, l => Some (xs ++ l)
       end)
  /\ NoDup (map fst d)
  /\ Permutation (List.concat (map snd d)) (List.concat (map snd out) ++ configs).
Proof.
  induction configs as [|x configs IH]; intros out ND; cbn.
  - split; [|split; [exact ND | now rewrite app_nil_r]].
    intros k. destruct (lookup k out); [now rewrite app_nil_r | reflexivity].
  - assert (ND' : NoDup (map fst (setdefault_append (key x) x out))).
    { rewrite keys_setdefault.
      destruct (existsb (String.eqb (key x)) (map fst out)) eqn:E; auto.
      apply NoDup_app; auto.
      - repeat constructor. intros [].
      - intros k Hin [<-|[]].
        assert (existsb (String.eqb (key x)) (map fst out) = true);
          [|congruence].
        apply existsb_exists. exists (key x). split; auto.
        apply String.eqb_refl. }
    destruct (IH _ ND') as (L & N & P). split; [|split; [exact N|]].
    + intros k. rewrite L, lookup_setdefault.
      destruct (String.eqb (key x) k).
      * destruct (lookup k out); [now rewrite <- app_assoc | reflexivity].
      * reflexivity.
    + rewrite P, values_setdefault, <- app_assoc. reflexivity.
Qed.

Lemma group_by_partitions {A} (key : A -> string) (configs : list A) :
  partitions key configs (group_by key configs).
Proof.
  destruct (group_by_fold key configs [] (NoDup_nil _)) as (L & N & P).
  split; [|split; [exact N | exact P]].
  intros k. unfold group_by. rewrite L. cbn.
  now destruct (filter _ configs).
Qed.

(** X11. Grouping by country loses nothing and mixes nothing.  When the
    listing succeeds, the dictionary returned by either
    [get_vpn_configs_per_country] (file names in [connection.py], configs
    in [list_configs.py]) maps a country to exactly the entries of that
    country, in the order of the listing, and has no key for a country
    without entries; its keys are distinct and its values together are a
    rearrangement of the listing.  An error of the listing is passed on
    unchanged. *)
Theorem per_country_partitions dirs only_tcp only_udp :
  match Connection.get_vpn_configs dirs only_tcp only_udp with
  | inl files =>
      exists d,
        Connection.get_vpn_configs_per_country dirs only_tcp only_udp = inl d
        /\ partitions before_digit files d
  | inr e =>
      Connection.get_vpn_configs_per_country dirs only_tcp only_udp = inr e
  end
  /\ match ListConfigs.get_vpn_configs dirs only_tcp only_udp with
     | inl configs =>
         exists d,
           ListConfigs.get_vpn_configs_per_country dirs only_tcp only_udp = inl d
           /\ partitions country configs d
     | inr e =>
         ListConfigs.get_vpn_configs_per_country dirs only_tcp only_udp = inr e
     end.
Proof.
  split.
  - unfold Connection.get_vpn_configs_per_country.
    destruct (Connection.get_vpn_configs dirs only_tcp only_udp) as [files|e];
      [|reflexivity].
    eexists. split; [reflexivity | apply group_by_partitions].
  - unfold ListConfigs.get_vpn_configs_per_country.
    destruct (ListConfigs.get_vpn_configs dirs only_tcp only_udp) as [configs|e];
      [|reflexivity].
    eexists. split; [reflexivity | apply group_by_partitions].
Qed.

(** ** Names and countries *)

Lemma before_digit_no_digit s : has_digit (before_digit s) = false.
Proof.
  induction s as [|c s IH]; cbn; [reflexivity|].
  destruct (Py.is_digit c) eqn:D; cbn; [reflexivity|]. now rewrite D.
Qed.

Lemma before_digit_prefix s : exists rest, s = (before_digit s ++ rest)%string.
Proof.
  induction s as [|c s (rest & E)]; cbn.
  - now exists "".
  - destruct (Py.is_digit c).
    + now exists (String c s).
    + exists rest. cbn. now f_equal.
Qed.

Lemma before_digit_app a b :
  has_digit a = true -> before_digit (a ++ b) = before_digit a.
Proof.
  induction a as [|c a IH]; cbn; [discriminate|].
  destruct (Py.is_digit c); cbn; [reflexivity|]. intros H. f_equal. now apply IH.
Qed.

(** X12. The country of a config has no digit and is the beginning of
    its name.  When the server id contains a digit the country is the
    text of the server id before its first digit, whatever the connection
    type; a server id without any digit gives the whole name as country. *)
Theorem country_of_config c :
  has_digit (country c) = false
  /\ (exists rest, name c = (country c ++ rest)%string)
  /\ (has_digit (server_id c) = true ->
      country c = before_digit (server_id c))
  /\ (has_digit (server_id c) = false -> country c = name c).
Proof.
  unfold country. split; [apply before_digit_no_digit|].
  split; [apply before_digit_prefix|]. split.
  - intros H. unfold name. now apply before_digit_app.
  - intros H. unfold name.
    assert (G : forall a b, has_digit a = false -> has_digit b = false ->
                before_digit (a ++ b) = (a ++ b)%string).
    { intros a b Ha Hb. induction a as [|x a IH]; cbn in *.
      - induction b as [|y b IHb]; cbn in *; [reflexivity|].
        apply orb_false_iff in Hb. destruct Hb as (-> & Hb). f_equal. auto.
      - apply orb_false_iff in Ha. destruct Ha as (-> & Ha). f_equal. auto. }
    apply G; [exact H|]. now destruct (connection_type c).
Qed.

(** ** Parsing names *)

Lemma endswith_app a b : endswith (a ++ b) b = true.
Proof.
  induction a as [|c a IH]; cbn [append].
  - destruct b; [reflexivity|]. cbn [endswith]. now rewrite String.eqb_refl.
  - cbn [endswith]. rewrite IH. apply orb_true_r.
Qed.

Lemma before_dot_app a r : before_dot (a ++ String "." r) = before_dot a.
Proof.
  induction a as [|c a IH]; cbn; [reflexivity|].
  destruct (Ascii.eqb c "."); [reflexivity | now rewrite IH].
Qed.

Lemma before_dot_id a : before_dot a = a <-> no_dot a = true.
Proof.
  induction a as [|c a IH]; cbn; [tauto|].
  destruct (Ascii.eqb c "."); cbn.
  - split; discriminate.
  - rewrite <- IH. split; [now intros [= ->] | now intros ->].
Qed.

Lemma before_dot_no_dot a : no_dot (before_dot a) = true.
Proof.
  induction a as [|c a IH]; cbn; [reflexivity|].
  destruct (Ascii.eqb c ".") eqn:E; cbn; [reflexivity|]. now rewrite E.
Qed.

Lemma before_dot_prefix a : exists rest, a = (before_dot a ++ rest)%string.
Proof.
  induction a as [|c a (rest & E)]; cbn.
  - now exists "".
  - destruct (Ascii.eqb c ".").
    + now exists (String c a).
    + exists rest. cbn. now f_equal.
Qed.

Lemma prefix_tcp_dot c a r :
  String.prefix "tcp" (String c (a ++ String "." r))
  = String.prefix "tcp" (String c a).
Proof.
  destruct a as [|c1 [|c2 a]]; cbn [String.prefix append];
    repeat match goal with
           | |- context [ascii_dec ?x ?y] => destruct (ascii_dec x y)
           end; try reflexivity; try discriminate.
  now destruct a.
Qed.

Lemma contains_tcp_dot a r :
  Py.contains "tcp" (a ++ String "." r)
  = Py.contains "tcp" a || Py.contains "tcp" (String "." r).
Proof.
  induction a as [|c a IH].
  - reflexivity.
  - cbn [append]. cbn [Py.contains]. rewrite prefix_tcp_dot, IH.
    now rewrite orb_assoc.
Qed.

Lemma contains_false_app n a b :
  Py.contains n (a ++ b) = false -> Py.contains n a = false.
Proof.
  intros H. destruct (Py.contains n a) eqn:E; [|reflexivity].
  now rewrite (contains_app_r _ _ b E) in H.
Qed.

Lemma from_name_of_name c :
  from_name (name c)
  = inl (mkConfig (before_dot (server_id c))
                  (match connection_type c with
                   | TCP => TCP
                   | UDP => if Py.contains "tcp" (server_id c) then TCP else UDP
                   end)).
Proof.
  destruct c as [sid t]. unfold from_name, name. cbn [server_id connection_type].
  destruct t; cbn [value].
  - change (".nordvpn.com." ++ "tcp")%string with ".nordvpn.com.tcp".
    rewrite before_dot_app, contains_tcp_dot, endswith_app. cbn [negb andb].
    replace (Py.contains "tcp" ".nordvpn.com.tcp") with true by reflexivity.
    now rewrite orb_true_r.
  - change (".nordvpn.com." ++ "udp")%string with ".nordvpn.com.udp".
    rewrite before_dot_app, contains_tcp_dot, endswith_app.
    rewrite andb_false_r.
    replace (Py.contains "tcp" ".nordvpn.com.udp") with false by reflexivity.
    now rewrite orb_false_r.
Qed.


(** ** Paths of config files *)

Lemma has_slash_app a b : has_slash (a ++ b) = has_slash a || has_slash b.
Proof.
  induction a as [|c a IH]; cbn; [reflexivity|]. now rewrite IH, orb_assoc.
Qed.

Lemma basename_no_slash f : has_slash f = false -> basename f = f.
Proof.
  destruct f as [|c f]; cbn; [reflexivity|]. intros H.
  apply orb_false_iff in H. destruct H as (-> & ->). reflexivity.
Qed.

Lemma basename_app d f :
  has_slash f = false -> basename (d ++ "/" ++ f) = f.
Proof.
  intros H. induction d as [|c d IH]; cbn.
  - now rewrite H.
  - change (d ++ String "/" f)%string with (d ++ "/" ++ f)%string.
    rewrite has_slash_app. cbn. now rewrite orb_true_r.
Qed.

Lemma endswith_inv d x : endswith d x = true -> exists d', d = (d' ++ x)%string.
Proof.
  induction d as [|c d IH]; cbn [endswith]; intros H.
  - rewrite orb_false_r in H. apply String.eqb_eq in H. now exists "".
  - apply orb_true_iff in H. destruct H as [H|H].
    + apply String.eqb_eq in H. exists "". now rewrite <- H.
    + destruct (IH H) as (d' & ->). now exists (String c d').
Qed.

Lemma basename_join2 d f :
  has_slash f = false -> basename (join2 d f) = f.
Proof.
  intros H. unfold join2.
  destruct f as [|c f].
  - cbn [String.prefix].
    destruct (String.eqb d "" || endswith d "/") eqn:E.
    + rewrite app_empty_r. apply orb_true_iff in E. destruct E as [E|E].
      * apply String.eqb_eq in E. now subst.
      * destruct (endswith_inv _ _ E) as (d' & ->).
        now apply (basename_app d' "").
    + now apply (basename_app d "").
  - cbn in H. apply orb_false_iff in H. destruct H as (C & H).
    assert (P : String.prefix "/" (String c f) = false).
    { cbn [String.prefix].
      destruct (ascii_dec "/" c) as [<-|]; [discriminate | reflexivity]. }
    rewrite P.
    assert (S : has_slash (String c f) = false) by (cbn; now rewrite C, H).
    destruct (String.eqb d "" || endswith d "/") eqn:E.
    + apply orb_true_iff in E. destruct E as [E|E].
      * apply String.eqb_eq in E. subst. now apply basename_no_slash.
      * destruct (endswith_inv _ _ E) as (d' & ->).
        rewrite app_assoc_s. now apply basename_app.
    + now apply basename_app.
Qed.



(** ** The two views per country *)

Lemma setdefault_append_map {A B} (f : A -> B) key x out :
  setdefault_append key (f x) (map (fun g => (fst g, map f (snd g))) out)
  = map (fun g => (fst g, map f (snd g))) (setdefault_append key x out).
Proof.
  induction out as [|[k xs] out IH]; cbn; [reflexivity|].
  destruct (String.eqb k key); cbn; [now rewrite map_app | now rewrite IH].
Qed.

Lemma group_by_map {A B} (f : A -> B) key1 key2 l :
  (forall x, In x l -> key2 (f x) = key1 x) ->
  group_by key2 (map f l)
  = map (fun g => (fst g, map f (snd g))) (group_by key1 l).
Proof.
  unfold group_by.
  change (@nil (string * list B))
    with (map (fun g : string * list A => (fst g, map f (snd g))) []).
  generalize (@nil (string * list A)).
  induction l as [|x l IH]; intros out H; cbn [map fold_left]; [reflexivity|].
  rewrite (H x) by now left. rewrite setdefault_append_map.
  apply IH. intros y Hy. apply H. now right.
Qed.

Lemma country_of_file f :
  plain f = true -> country (from_file_name (basename f)) = before_digit f.
Proof.
  unfold plain. intros H. apply andb_true_iff in H. destruct H as (D & S).
  apply negb_true_iff in S. rewrite (basename_no_slash _ S).
  unfold country, name, from_file_name. cbn [server_id connection_type].
  rewrite (before_digit_app _ _ D).
  destruct (before_dot_prefix f) as (rest & E).
  rewrite E at 2. now rewrite (before_digit_app _ _ D).
Qed.

(** X15. The two views per country agree.  When every listed file name
    has a digit before its first dot (and no slash), the dictionary of
    [list_configs.get_vpn_configs_per_country] is that of
    [connection.get_vpn_configs_per_country] with every file name parsed:
    the same countries in the same order, and under each country the
    configs of the files that [connection.py] lists there. *)
Theorem per_country_views_agree dirs only_tcp only_udp files :
  Connection.get_vpn_configs dirs only_tcp only_udp = inl files ->
  forallb plain files = true ->
  exists d,
    Connection.get_vpn_configs_per_country dirs only_tcp only_udp = inl d
    /\ ListConfigs.get_vpn_configs_per_country dirs only_tcp only_udp
       = inl (parse_groups d)
    /\ map fst (parse_groups d) = map fst d.
Proof.
  intros G P. exists (group_by before_digit files).
  unfold Connection.get_vpn_configs_per_country,
    ListConfigs.get_vpn_configs_per_country, ListConfigs.get_vpn_configs.
  change (ListConfigs._get_vpn_config_paths dirs only_tcp only_udp)
    with (Connection.get_vpn_configs dirs only_tcp only_udp).
  rewrite G. split; [reflexivity|]. split.
  - f_equal. unfold parse_groups. apply group_by_map.
    intros f Hf. apply country_of_file.
    rewrite forallb_forall in P. now apply P.
  - unfold parse_groups. rewrite map_map. reflexivity.
Qed.

Lemma per_country_views_agree_witness :
  exists d,
    Connection.get_vpn_configs_per_country
      (mkDirs (inl ["us1.nordvpn.com.tcp.ovpn"; "de2.nordvpn.com.tcp.ovpn"])
              (inl ["us1.nordvpn.com.udp.ovpn"])) false false = inl d
    /\ ListConfigs.get_vpn_configs_per_country
         (mkDirs (inl ["us1.nordvpn.com.tcp.ovpn"; "de2.nordvpn.com.tcp.ovpn"])
                 (inl ["us1.nordvpn.com.udp.ovpn"])) false false
       = inl (parse_groups d)
    /\ map fst (parse_groups d) = map fst d.
Proof.
  apply (per_country_views_agree
           (mkDirs (inl ["us1.nordvpn.com.tcp.ovpn"; "de2.nordvpn.com.tcp.ovpn"])
                   (inl ["us1.nordvpn.com.udp.ovpn"])) false false
           ["us1.nordvpn.com.tcp.ovpn"; "de2.nordvpn.com.tcp.ovpn";
            "us1.nordvpn.com.udp.ovpn"]); reflexivity.
Defined.

(** ** The history of connections *)

Lemma history_after_snoc l c :
  history_after (l ++ [c]) = VpnConnectionsHistory.add c (history_after l).
Proof. unfold history_after. now rewrite fold_left_app. Qed.

Lemma tl_skipn {A} k (l : list A) : tl (skipn k l) = skipn (S k) l.
Proof.
  revert l. induction k as [|k IH]; intros [|x l]; cbn [skipn tl]; auto.
Qed.

Lemma history_after_lastn l :
  history_after l = lastn VpnConnectionsHistory.maxlen l.
Proof.
  induction l as [|c l IH] using rev_ind; [reflexivity|].
  rewrite history_after_snoc, IH. unfold VpnConnectionsHistory.add, lastn.
  rewrite length_skipn, List.length_app. cbn [List.length].
  unfold VpnConnectionsHistory.maxlen.
  destruct (Nat.leb_spec 100 (List.length l - (List.length l - 100))) as [L|L].
  - replace (List.length l + 1 - 100)%nat with (S (List.length l - 100)) by lia.
    rewrite skipn_app.
    replace (S (List.length l - 100) - List.length l)%nat with 0%nat by lia.
    now rewrite tl_skipn.
  - replace (List.length l - 100)%nat with 0%nat by lia.
    replace (List.length l + 1 - 100)%nat with 0%nat by lia. reflexivity.
Qed.

Lemma lastn_lastn {A} k m (l : list A) :
  (k <= m)%nat -> lastn k (lastn m l) = lastn k l.
Proof.
  intros H. unfold lastn. rewrite length_skipn, skipn_skipn. f_equal. lia.
Qed.

Lemma slice_from_last {A} n (l : list A) :
  0 < n -> Py.slice_from (- n) l = lastn (Z.to_nat n) l.
Proof.
  intros H. unfold Py.slice_from, lastn.
  destruct (Z.ltb_spec (- n) 0); [|lia]. f_equal. lia.
Qed.

(** X16. The history keeps the last hundred connections, and
    [get_history] sees the last [last_n] of them.  After any sequence of
    additions to a new history the deque holds at most 100 configs.
    [get_history(last_n)] raises [ValueError] exactly when [last_n] is not
    between 1 and 100; otherwise it returns a set whose members are
    exactly the configs among the last [last_n] additions. *)
Theorem history_keeps_last added last_n :
  (List.length (history_after added) <= 100)%nat
  /\ match VpnConnectionsHistory.get_history last_n (history_after added) with
     | inl recent =>
         1 <= last_n <= 100
         /\ NoDup recent
         /\ (forall c, In c recent <-> In c (lastn (Z.to_nat last_n) added))
     | inr e =>
         (last_n <= 0 \/ 100 < last_n) /\ exists msg, e = ValueError msg
     end.
Proof.
  rewrite history_after_lastn. split.
  - unfold lastn, VpnConnectionsHistory.maxlen. rewrite length_skipn. lia.
  - unfold VpnConnectionsHistory.get_history.
    destruct (Z.leb_spec last_n 0) as [L|L]; [split; [lia | eauto]|].
    unfold VpnConnectionsHistory.maxlen at 1 2.
    destruct (Z.gtb_spec last_n (Z.of_nat 100)) as [G|G];
      [split; [lia | eauto]|].
    split; [lia|]. unfold set_of. split; [apply NoDup_nodup|].
    intros c. rewrite nodup_In, slice_from_last by lia.
    rewrite lastn_lastn; [reflexivity|].
    unfold VpnConnectionsHistory.maxlen. lia.
Qed.

(** ** The choice of a server *)

Lemma config_eqb_eq a b : config_eqb a b = true <-> a = b.
Proof.
  destruct a as [s1 t1], b as [s2 t2]. unfold config_eqb.
  cbn [server_id connection_type]. rewrite andb_true_iff, String.eqb_eq.
  split.
  - intros (-> & T). now destruct t1, t2.
  - intros [= -> ->]. split; [reflexivity | now destruct t2].
Qed.

Lemma mem_config_In c l : mem_config c l = true <-> In c l.
Proof.
  unfold mem_config. rewrite existsb_exists. split.
  - intros (x & I & E). apply config_eqb_eq in E. now subst.
  - intros I. exists c. split; [exact I | now apply config_eqb_eq].
Qed.

Lemma mem_config_set c l : mem_config c (set_of l) = true <-> In c l.
Proof. rewrite mem_config_In. apply nodup_In. Qed.

Lemma mem_str_In x l : mem_str x l = true <-> In x l.
Proof.
  unfold mem_str. rewrite existsb_exists. split.
  - intros (y & I & E). apply String.eqb_eq in E. now subst.
  - intros I. exists x. split; [exact I | apply String.eqb_refl].
Qed.

Lemma drop_countries_In bl l c :
  In c (drop_countries bl l)
  <-> In c l /\ (forall b, bl = Some b -> ~ In (country c) b).
Proof.
  destruct bl as [b|]; cbn [drop_countries].
  - rewrite filter_In, negb_true_iff. split.
    + intros (I & N). split; [exact I|]. intros ? [= <-] M.
      apply mem_str_In in M. congruence.
    + intros (I & N). split; [exact I|].
      destruct (mem_str (country c) b) eqn:M; [|reflexivity].
      apply mem_str_In in M. now destruct (N b eq_refl).
  - split; [intros I; split; [exact I | discriminate] | tauto].
Qed.

Lemma keep_countries_In wl l c :
  In c (keep_countries wl l)
  <-> In c l /\ (forall b, wl = Some b -> In (country c) b).
Proof.
  destruct wl as [b|]; cbn [keep_countries].
  - rewrite filter_In, mem_str_In. split.
    + intros (I & N). split; [exact I|]. now intros ? [= <-].
    + intros (I & N). split; [exact I | now apply N].
  - split; [intros I; split; [exact I | discriminate] | tauto].
Qed.

Lemma drop_hosts_spec hb l :
  match drop_hosts hb l with
  | inl l' =>
      forall c, In c l'
                <-> In c l
                    /\ (forall hosts, hb = Some hosts ->
                          exists parsed, VpnManager.parse_hosts hosts = inl parsed
                                         /\ ~ In c parsed)
  | inr _ =>
      forall c, ~ (forall hosts, hb = Some hosts ->
                     exists parsed, VpnManager.parse_hosts hosts = inl parsed
                                    /\ ~ In c parsed)
  end.
Proof.
  destruct hb as [hosts|]; cbn [drop_hosts].
  - destruct (VpnManager.parse_hosts hosts) as [parsed|e] eqn:E;
      cbn [VpnManager.rbind].
    + intros c. rewrite filter_In, negb_true_iff. split.
      * intros (I & N). split; [exact I|]. intros ? [= <-].
        exists parsed. split; [exact E|]. rewrite <- mem_config_set.
        now rewrite N.
      * intros (I & N). split; [exact I|].
        destruct (N hosts eq_refl) as (p' & E' & N').
        rewrite E in E'. injection E' as <-.
        rewrite <- mem_config_set in N'.
        now destruct (mem_config c (set_of parsed)).
    + intros c N. destruct (N hosts eq_refl) as (p' & E' & _). congruence.
  - intros c. split; [intros I; split; [exact I | discriminate] | tauto].
Qed.

Lemma keep_hosts_spec hw l :
  match keep_hosts hw l with
  | inl l' =>
      forall c, In c l'
                <-> In c l
                    /\ (forall hosts, hw = Some hosts ->
                          exists parsed, VpnManager.parse_hosts hosts = inl parsed
                                         /\ In c parsed)
  | inr _ =>
      forall c, ~ (forall hosts, hw = Some hosts ->
                     exists parsed, VpnManager.parse_hosts hosts = inl parsed
                                    /\ In c parsed)
  end.
Proof.
  destruct hw as [hosts|]; cbn [keep_hosts].
  - destruct (VpnManager.parse_hosts hosts) as [parsed|e] eqn:E;
      cbn [VpnManager.rbind].
    + intros c. rewrite filter_In, mem_config_set. split.
      * intros (I & N). split; [exact I|]. intros ? [= <-]. now exists parsed.
      * intros (I & N). split; [exact I|].
        destruct (N hosts eq_refl) as (p' & E' & N').
        rewrite E in E'. now injection E' as <-.
    + intros c N. destruct (N hosts eq_refl) as (p' & E' & _). congruence.
  - intros c. split; [intros I; split; [exact I | discriminate] | tauto].
Qed.

Lemma drop_recent_spec avoid history l :
  match drop_recent avoid history l with
  | inl l' =>
      forall c, In c l'
                <-> In c l
                    /\ (0 < avoid ->
                        avoid <= 100 /\ ~ In c (Py.slice_from (- avoid) history))
  | inr _ =>
      forall c, ~ (0 < avoid ->
                   avoid <= 100 /\ ~ In c (Py.slice_from (- avoid) history))
  end.
Proof.
  unfold drop_recent. destruct (Z.gtb_spec avoid 0) as [G|G].
  - unfold VpnConnectionsHistory.get_history.
    destruct (Z.leb_spec avoid 0) as [L|L]; [lia|].
    unfold VpnConnectionsHistory.maxlen.
    destruct (Z.gtb_spec avoid (Z.of_nat 100)) as [M|M]; cbn [VpnManager.rbind].
    + intros c N. destruct (N G). lia.
    + intros c. rewrite filter_In, negb_true_iff. split.
      * intros (I & N). split; [exact I|]. intros _. split; [lia|].
        rewrite <- mem_config_set. now rewrite N.
      * intros (I & N). split; [exact I|]. destruct (N G) as (_ & N').
        rewrite <- mem_config_set in N'.
        now destruct (mem_config c (set_of (Py.slice_from (- avoid) history))).
  - intros c. split; [intros I; split; [exact I | lia] | tauto].
Qed.

Lemma choice_In {A} i (l : list A) x : choice i l = inl x -> In x l.
Proof.
  destruct l as [|y l]; [discriminate|]. unfold choice. intros H.
  assert (E : x = nth (i mod List.length (y :: l)) (y :: l) y) by congruence.
  rewrite E. apply nth_In. apply Nat.mod_upper_bound. discriminate.
Qed.

Lemma choice_any {A} (l : list A) x : In x l -> exists i, choice i l = inl x.
Proof.
  intros I. destruct l as [|y l]; [contradiction|].
  destruct (In_nth _ _ y I) as (i & L & E). exists i. unfold choice.
  now rewrite Nat.mod_small, E.
Qed.

Lemma choose_server_eq dirs history cb cw hb hw only_tcp only_udp avoid pick :
  VpnManager.choose_server dirs history cb cw hb hw only_tcp only_udp avoid pick
  = VpnManager.rbind (ListConfigs.get_vpn_configs dirs only_tcp only_udp)
      (fun configs =>
       VpnManager.rbind
         (drop_hosts hb (keep_countries cw (drop_countries cb configs)))
         (fun configs =>
          VpnManager.rbind (keep_hosts hw configs) (fun configs =>
          VpnManager.rbind (drop_recent avoid history configs) (fun configs =>
          if (List.length configs =? 0)%nat
          then inr (ValueError "No available servers found")
          else choice pick configs)))).
Proof. reflexivity. Qed.

(** X17. The choice of a random server.  The selection of
    [_connect_to_random_vpn] can return a server exactly when the server
    is eligible: it is among the available servers, its country is not in
    the country blacklist and is in the country whitelist, it is not in
    the host blacklist and is in the host whitelist (each list only when
    given, the host lists with every name accepted by [from_name]), and,
    when [avoid_last_n_servers] is positive, that number is at most 100
    and the server is not among the last that many entries of the
    history.  So a black-listed or recently used server is never chosen,
    every eligible server can be drawn, and the selection raises whenever
    no server is eligible. *)
Theorem chosen_server_iff_eligible
    dirs history cb cw hb hw only_tcp only_udp avoid c :
  (exists pick,
     VpnManager.choose_server dirs history cb cw hb hw only_tcp only_udp
                              avoid pick = inl c)
  <-> eligible dirs history cb cw hb hw only_tcp only_udp avoid c.
Proof.
  unfold eligible. split.
  - intros (pick & H). rewrite choose_server_eq in H.
    destruct (ListConfigs.get_vpn_configs dirs only_tcp only_udp)
      as [configs|e]; [|discriminate].
    cbn [VpnManager.rbind] in H.
    pose proof (drop_hosts_spec hb (keep_countries cw (drop_countries cb configs)))
      as S3.
    destruct (drop_hosts hb (keep_countries cw (drop_countries cb configs)))
      as [l3|e]; [|discriminate].
    cbn [VpnManager.rbind] in H.
    pose proof (keep_hosts_spec hw l3) as S4.
    destruct (keep_hosts hw l3) as [l4|e]; [|discriminate].
    cbn [VpnManager.rbind] in H.
    pose proof (drop_recent_spec avoid history l4) as S5.
    destruct (drop_recent avoid history l4) as [l5|e]; [|discriminate].
    cbn [VpnManager.rbind] in H.
    destruct (List.length l5 =? 0)%nat; [discriminate|].
    apply choice_In in H.
    apply S5 in H. destruct H as (H & R).
    apply S4 in H. destruct H as (H & W).
    apply S3 in H. destruct H as (H & B).
    apply keep_countries_In in H. destruct H as (H & CW).
    apply drop_countries_In in H. destruct H as (H & CB).
    split; [now exists configs|]. tauto.
  - intros ((configs & G & I) & CB & CW & B & W & R).
    assert (I2 : In c (keep_countries cw (drop_countries cb configs))).
    { apply keep_countries_In. split; [|exact CW].
      apply drop_countries_In. now split. }
    pose proof (drop_hosts_spec hb (keep_countries cw (drop_countries cb configs)))
      as S3.
    destruct (drop_hosts hb (keep_countries cw (drop_countries cb configs)))
      as [l3|e] eqn:E3; [|now destruct (S3 c)].
    assert (I3 : In c l3) by (apply S3; now split).
    pose proof (keep_hosts_spec hw l3) as S4.
    destruct (keep_hosts hw l3) as [l4|e] eqn:E4; [|now destruct (S4 c)].
    assert (I4 : In c l4) by (apply S4; now split).
    pose proof (drop_recent_spec avoid history l4) as S5.
    destruct (drop_recent avoid history l4) as [l5|e] eqn:E5;
      [|now destruct (S5 c)].
    assert (I5 : In c l5) by (apply S5; now split).
    destruct (choice_any l5 c I5) as (pick & P). exists pick.
    rewrite choose_server_eq, G. cbn [VpnManager.rbind].
    rewrite E3. cbn [VpnManager.rbind]. rewrite E4. cbn [VpnManager.rbind].
    rewrite E5. cbn [VpnManager.rbind].
    destruct l5; [contradiction | exact P].
Qed.

(** ** Disconnecting *)

Lemma close_vpn_reaps p v w :
  match close_vpn p v w with
  | Ok rc w' => returncode (child w') = Some rc /\ cleanup_last w'
  | Hang => status w = None /\ kill_effective w = false
  | Exc _ _ | OutOfFuel => False
  end.
Proof.
  unfold close_vpn.
  pose proof (stop_process_spec p 5000 3000 w) as SP.
  unfold bind at 1.
  destruct (stop_process p 5000 3000 w) as [rc w1| | |]; try contradiction.
  - destruct SP as (F & R & _).
    rewrite (bind_ok _ _ _ _ _ (best_effort_cleanup_ok v _)). unfold ret.
    split; [now rewrite child_cleaned|].
    unfold cleaned. destruct v;
      [apply cleanup_last_snapshotted | apply cleanup_last_swept].
  - exact SP.
Qed.


(** ** Config files that are present *)

(** X19. When [config_files_are_present] answers [True], the servers
    can be listed and one can be drawn: for every choice of flags that
    are not both set, [list_configs.get_vpn_configs] returns a non-empty
    list, and [get_random_vpn_config] returns the path of a file listed
    in the folder it chose, below the folder [configs] of the package;
    the folder is [ovpn_tcp] under [only_tcp] and [ovpn_udp] under
    [only_udp]. *)
Theorem present_configs_usable dirs only_tcp only_udp :
  VpnManagerUtilities.config_files_are_present dirs = inl true ->
  only_tcp && only_udp = false ->
  (exists configs,
     ListConfigs.get_vpn_configs dirs only_tcp only_udp = inl configs
     /\ configs <> [])
  /\ (forall here coin pick,
        exists folder files cfg,
          get_random_vpn_config here dirs only_tcp only_udp coin pick
          = inl (join2 (join2 (join2 here "configs") folder) cfg)
          /\ In cfg files
          /\ (folder = "ovpn_tcp" /\ ovpn_tcp dirs = inl files
              \/ folder = "ovpn_udp" /\ ovpn_udp dirs = inl files)
          /\ (only_tcp = true -> folder = "ovpn_tcp")
          /\ (only_udp = true -> folder = "ovpn_udp")).
Proof.
  unfold VpnManagerUtilities.config_files_are_present. intros P F.
  destruct (ovpn_tcp dirs) as [tcp|[]] eqn:T; try discriminate.
  destruct (ovpn_udp dirs) as [udp|[]] eqn:U; try discriminate.
  injection P as P. apply andb_true_iff in P. destruct P as (NT & NU).
  apply Nat.ltb_lt in NT, NU.
  destruct tcp as [|t0 tcp]; [cbn in NT; lia|].
  destruct udp as [|u0 udp]; [cbn in NU; lia|].
  split.
  - unfold ListConfigs.get_vpn_configs, ListConfigs._get_vpn_config_paths.
    rewrite F, T, U.
    destruct only_tcp, only_udp; try discriminate;
      (eexists; split; [reflexivity | discriminate]).
  - intros here coin pick. unfold get_random_vpn_config. rewrite F, T, U.
    cbv zeta.
    assert (Tcp : exists cfg, choice pick (t0 :: tcp) = inl cfg
                              /\ In cfg (t0 :: tcp)).
    { eexists. split; [reflexivity|]. apply nth_In.
      apply Nat.mod_upper_bound. discriminate. }
    assert (Udp : exists cfg, choice pick (u0 :: udp) = inl cfg
                              /\ In cfg (u0 :: udp)).
    { eexists. split; [reflexivity|]. apply nth_In.
      apply Nat.mod_upper_bound. discriminate. }
    destruct Tcp as (ct & Ct & It), Udp as (cu & Cu & Iu).
    destruct only_tcp, only_udp; try discriminate.
    + rewrite Ct. exists "ovpn_tcp", (t0 :: tcp), ct.
      repeat split; auto; discriminate.
    + rewrite Cu. exists "ovpn_udp", (u0 :: udp), cu.
      repeat split; auto; discriminate.
    + destruct (nth (coin mod 2) [true; false] true).
      * rewrite Ct. exists "ovpn_tcp", (t0 :: tcp), ct.
        repeat split; auto; discriminate.
      * rewrite Cu. exists "ovpn_udp", (u0 :: udp), cu.
        repeat split; auto; discriminate.
Qed.

Lemma present_configs_usable_witness :
  (exists configs,
     ListConfigs.get_vpn_configs
       (mkDirs (inl ["us1.nordvpn.com.tcp.ovpn"]) (inl ["us1.nordvpn.com.udp.ovpn"]))
       true false = inl configs
     /\ configs <> [])
  /\ (forall here coin pick,
        exists folder files cfg,
          get_random_vpn_config here
            (mkDirs (inl ["us1.nordvpn.com.tcp.ovpn"])
                    (inl ["us1.nordvpn.com.udp.ovpn"]))
            true false coin pick
          = inl (join2 (join2 (join2 here "configs") folder) cfg)
          /\ In cfg files
          /\ (folder = "ovpn_tcp"
              /\ ovpn_tcp (mkDirs (inl ["us1.nordvpn.com.tcp.ovpn"])
                                  (inl ["us1.nordvpn.com.udp.ovpn"])) = inl files
              \/ folder = "ovpn_udp"
                 /\ ovpn_udp (mkDirs (inl ["us1.nordvpn.com.tcp.ovpn"])
                                     (inl ["us1.nordvpn.com.udp.ovpn"])) = inl files)
          /\ (true = true -> folder = "ovpn_tcp")
          /\ (false = true -> folder = "ovpn_udp")).
Proof.
  apply (present_configs_usable
           (mkDirs (inl ["us1.nordvpn.com.tcp.ovpn"])
                   (inl ["us1.nordvpn.com.udp.ovpn"])) true false);
    reflexivity.
Defined.

(** * Further properties of the stream watcher *)

Lemma run_line_fields line sw :
  needle (Watcher.run_line line sw) = needle sw
  /\ init_event (Watcher.run_line line sw)
     = init_event sw || Py.contains (needle sw) line
  /\ exit_event (Watcher.run_line line sw) = exit_event sw.
Proof.
  unfold Watcher.run_line, Watcher.signal_init, Watcher.locked_append.
  cbn [needle]. destruct (Py.contains (needle sw) line); cbn;
    repeat split; auto using orb_true_r, orb_false_r.
Qed.

Lemma run_lines_fields stream : forall sw,
  needle (Watcher.run_lines stream sw) = needle sw
  /\ keep_last_n (Watcher.run_lines stream sw) = keep_last_n sw
  /\ exit_event (Watcher.run_lines stream sw) = exit_event sw
  /\ init_event (Watcher.run_lines stream sw)
     = init_event sw || existsb (Py.contains (needle sw)) (read_lines stream).
Proof.
  induction stream as [|line rest IH]; intros sw; cbn [Watcher.run_lines read_lines].
  - cbn. now rewrite orb_false_r.
  - destruct (String.eqb line "").
    + cbn. now rewrite orb_false_r.
    + destruct (IH (Watcher.run_line line sw)) as (N & K & E & I).
      destruct (run_line_fields line sw) as (N1 & I1 & E1).
      destruct (run_line_lines line sw) as (_ & K1).
      rewrite N, K, E, I, N1, K1, E1, I1. cbn [existsb].
      now rewrite orb_assoc.
Qed.

(** X20. What the watcher signals.  After [run] has consumed a stream,
    [exit_event] is set, and [init_event] is set exactly when one of the
    lines read (those before the first empty read) contains the needle;
    lines after the end of the stream do not count, and the needle and
    [keep_last_n] are those the watcher was created with. *)
Theorem watcher_signals ndl v k stream :
  let sw := Watcher.run stream (Watcher.new ndl v k) in
  exit_event sw = true
  /\ init_event sw = existsb (Py.contains ndl) (read_lines stream)
  /\ needle sw = ndl
  /\ keep_last_n sw = k.
Proof.
  cbv zeta. unfold Watcher.run, Watcher.set_exit.
  cbn [exit_event init_event needle keep_last_n].
  destruct (run_lines_fields stream (Watcher.new ndl v k)) as (N & K & _ & I).
  rewrite N, K, I. repeat split.
Qed.

Lemma lastn_suffix {A} k (older l : list A) :
  (Nat.min k (List.length (older ++ l)) <= List.length l)%nat ->
  lastn k (older ++ l) = lastn k l.
Proof.
  unfold lastn. rewrite List.length_app. intros H.
  destruct (Nat.le_gt_cases k (List.length l)) as [L|L].
  - rewrite skipn_app, skipn_all2 by lia. cbn [app]. f_equal. lia.
  - assert (Z : List.length older = 0%nat) by lia.
    apply length_zero_iff_nil in Z. subst. reflexivity.
Qed.

Lemma locked_append_suffix line sw consumed :
  1 <= keep_last_n sw ->
  (exists older, consumed = older ++ lines sw) ->
  (Nat.min (Z.to_nat (keep_last_n sw)) (List.length consumed)
   <= List.length (lines sw))%nat ->
  (exists older, consumed ++ [line] = older ++ lines (Watcher.locked_append line sw))
  /\ (Nat.min (Z.to_nat (keep_last_n sw)) (List.length (consumed ++ [line]))
      <= List.length (lines (Watcher.locked_append line sw)))%nat.
Proof.
  intros K (older & ->) M. unfold Watcher.locked_append. cbn [lines].
  rewrite !List.length_app in *. cbn [List.length] in *.
  destruct (Z.gtb_spec (Z.of_nat (List.length (lines sw) + 1))
              (keep_last_n sw * 2)) as [G|G].
  - rewrite slice_last_length, List.length_app by exact K. cbn [List.length].
    split; [|lia].
    destruct (slice_last_suffix (- keep_last_n sw) (lines sw ++ [line]))
      as (pre & E).
    exists (older ++ pre). rewrite <- !app_assoc. f_equal. exact E.
  - rewrite List.length_app. cbn [List.length]. split; [|lia].
    exists older. now rewrite app_assoc.
Qed.

Lemma run_lines_suffix stream : forall sw consumed,
  1 <= keep_last_n sw ->
  Z.of_nat (List.length (lines sw)) <= 2 * keep_last_n sw ->
  (exists older, consumed = older ++ lines sw) ->
  (Nat.min (Z.to_nat (keep_last_n sw)) (List.length consumed)
   <= List.length (lines sw))%nat ->
  let sw' := Watcher.run_lines stream sw in
  Z.of_nat (List.length (lines sw')) <= 2 * keep_last_n sw
  /\ (exists older, consumed ++ read_lines stream = older ++ lines sw')
  /\ (Nat.min (Z.to_nat (keep_last_n sw))
              (List.length (consumed ++ read_lines stream))
      <= List.length (lines sw'))%nat.
Proof.
  induction stream as [|line rest IH]; intros sw consumed K B S M;
    cbn [Watcher.run_lines read_lines]; cbv zeta.
  - rewrite app_nil_r. auto.
  - destruct (String.eqb line ""); [rewrite app_nil_r; auto|].
    destruct (locked_append_bounded line sw K B) as (_ & B1 & _).
    destruct (locked_append_suffix line sw consumed K S M) as (S1 & M1).
    destruct (run_line_lines line sw) as (RL & RK).
    rewrite <- RL in B1, S1, M1. rewrite <- RK in K, B1, M1.
    specialize (IH (Watcher.run_line line sw) (consumed ++ [line]) K B1 S1 M1).
    cbv zeta in IH. rewrite RK in IH. rewrite <- app_assoc in IH. exact IH.
Qed.

(** X21. The tail is the recent output.  For [keep_last_n >= 1], after a
    new watcher has consumed a stream, [tail()] is the concatenation of
    the last [keep_last_n] lines read (all of them when fewer were read):
    trimming the buffer never drops a line the tail would show.  The
    buffer holds at most [2 * keep_last_n] lines and is an end piece of
    what was read. *)
Theorem watcher_tail_is_recent ndl v k stream :
  1 <= k ->
  let sw := Watcher.run stream (Watcher.new ndl v k) in
  Watcher.tail sw = Py.join (lastn (Z.to_nat k) (read_lines stream))
  /\ Z.of_nat (List.length (lines sw)) <= 2 * k
  /\ exists older, read_lines stream = older ++ lines sw.
Proof.
  intros K. cbv zeta.
  destruct (run_lines_suffix stream (Watcher.new ndl v k) [])
    as (B & (older & S) & M); cbn [Watcher.new keep_last_n lines List.length];
    try lia.
  { now exists []. }
  cbn [Watcher.new keep_last_n lines app] in B, S, M.
  unfold Watcher.run, Watcher.set_exit, Watcher.tail. cbn [lines keep_last_n].
  destruct (run_lines_fields stream (Watcher.new ndl v k)) as (_ & KK & _).
  rewrite KK. cbn [Watcher.new keep_last_n].
  split; [|split; [exact B | now exists older]].
  f_equal. rewrite slice_from_last by lia. rewrite S.
  symmetry. apply lastn_suffix. now rewrite <- S.
Qed.

Lemma watcher_tail_is_recent_witness :
  let sw := Watcher.run ["a"; "b"; "c"; "d"; ""; "e"] (Watcher.new "x" false 1) in
  Watcher.tail sw = Py.join (lastn (Z.to_nat 1) (read_lines ["a"; "b"; "c"; "d"; ""; "e"]))
  /\ Z.of_nat (List.length (lines sw)) <= 2 * 1
  /\ exists older, read_lines ["a"; "b"; "c"; "d"; ""; "e"] = older ++ lines sw.
Proof.
  apply (watcher_tail_is_recent "x" false 1 ["a"; "b"; "c"; "d"; ""; "e"]). lia.
Defined.

(** * Failed attempts of [open_vpn] *)

Lemma later_trans w1 w2 w3 : later w1 w2 -> later w2 w3 -> later w1 w3.
Proof.
  intros (L1 & N1 & d1 & T1) (L2 & N2 & d2 & T2).
  split; [congruence|]. split; [lia|].
  exists (d2 ++ d1). now rewrite T2, T1, app_assoc.
Qed.

Lemma calmly_trans w1 w2 w3 : calmly w1 w2 -> calmly w2 w3 -> calmly w1 w3.
Proof.
  intros (L1 & N1 & d1 & T1 & Q1) (L2 & N2 & d2 & T2 & Q2).
  split; [congruence|]. split; [lia|].
  exists (d2 ++ d1). split; [now rewrite T2, T1, app_assoc|].
  now rewrite forallb_app, Q1, Q2.
Qed.

Lemma calmly_later w w' : calmly w w' -> later w w'.
Proof. intros (L & N & d & T & _). split; [exact L|]. split; eauto. Qed.

Lemma still_calmly w w' : still w w' -> calmly w w'.
Proof.
  intros [C _ N T]. split; [now rewrite C|]. split; [exact N | exact T].
Qed.

Lemma frame_later w w' : frame w w' -> later w w'.
Proof.
  intros F. split; [apply (fr_launched _ _ F)|].
  split; [apply (fr_now _ _ F) | apply (fr_trace _ _ F)].
Qed.

Lemma calmly_polled w : calmly w (polled w).
Proof.
  split; [apply (fr_launched _ _ (frame_polled w))|].
  split; [rewrite now_polled; lia|].
  exists [EvPoll]. split; [apply trace_polled | reflexivity].
Qed.

Lemma calmly_log e w : calm e = true -> calmly w (log e w).
Proof. intros H. now apply still_calmly, still_log. Qed.

Lemma calmly_swept w : calmly w (swept w).
Proof. apply still_calmly, still_swept. Qed.

(** The world in which a loop finds the child dead: after the poll and
    the reading of the tail comes the cleanup. *)
Lemma calmly_found_dead w : calmly w (swept (log EvTail (polled w))).
Proof.
  eapply calmly_trans; [apply calmly_polled|].
  eapply calmly_trans; [now apply (calmly_log EvTail) | apply calmly_swept].
Qed.

Lemma returncode_found_dead w rc :
  status w = Some rc ->
  returncode (child (swept (log EvTail (polled w)))) = Some rc.
Proof. intros H. rewrite child_swept. now apply returncode_polled. Qed.

Lemma wait_init_return fuel p d : forall w r w',
  wait_init fuel p d w = Ok (Some r) w' ->
  ok r = false
  /\ (died "openvpn-exited-early rc=" r w' /\ calmly w w'
      \/ died "timeout-waiting-init final_rc=" r w'
         /\ d <= now w' /\ later w w').
Proof.
  induction fuel as [|fuel IH]; intros w r w'; cbn [wait_init]; [discriminate|].
  unfold bind. rewrite wait_init_body_eq.
  destruct (seen w) eqn:Seen; [unfold ret; discriminate|].
  destruct (status w) as [rc|] eqn:St.
  { unfold ret. intros [= <- <-]. split; [reflexivity|]. left. split.
    - exists rc, (tail_now w). split; [reflexivity|].
      apply (returncode_found_dead (log EvIsSet w)). exact St.
    - eapply calmly_trans; [now apply (calmly_log EvIsSet)|].
      apply calmly_found_dead. }
  destruct (Z.geb_spec (now w) d) as [D|D].
  { pose proof (stop_process_spec p 5000 3000 (log EvTail (checked w))) as SP.
    destruct (stop_process p 5000 3000 (log EvTail (checked w)))
      as [rc w2| | |]; try discriminate.
    unfold ret. intros [= <- <-]. destruct SP as (F & R & _).
    split; [reflexivity|]. right. split.
    - exists rc, (tail_now w). split; [reflexivity|].
      now rewrite child_swept.
    - assert (L : later w (swept w2)).
      { eapply later_trans; [|apply calmly_later, calmly_swept].
        eapply later_trans; [|apply frame_later; exact F].
        apply calmly_later.
        eapply calmly_trans; [now apply (calmly_log EvIsSet)|].
        eapply calmly_trans; [apply calmly_polled|].
        eapply calmly_trans; [now apply (calmly_log EvMonotonic)|].
        now apply (calmly_log EvTail). }
      split; [|exact L]. destruct L as (_ & N & _). lia. }
  intros H. destruct (IH _ _ _ H) as (O & C). split; [exact O|].
  assert (S1 : calmly w (slept 50 (checked w))).
  { apply still_calmly. unfold checked.
    eapply still_trans; [|apply still_slept].
    eapply still_trans; [|now apply still_log].
    eapply still_trans; [now apply (still_log EvIsSet)|].
    now apply still_polled. }
  destruct C as [(Dd & C)|(Dd & N & L)].
  - left. split; [exact Dd | eapply calmly_trans; eauto].
  - right. split; [exact Dd|]. split; [exact N|].
    eapply later_trans; [apply calmly_later; exact S1 | exact L].
Qed.

Lemma probe_body_return p d v w r w' :
  probe_body p d v w = Ok (inl r) w' -> ok r = false ->
  died "died-during-probe rc=" r w' /\ calmly w w'.
Proof.
  unfold probe_body.
  rewrite (bind_ok _ _ _ _ _ (poll_ok p w)).
  destruct (status w) as [rc|] eqn:St.
  { rewrite (bind_ok _ _ _ _ _ (tail_ok _)).
    rewrite (bind_ok _ _ _ _ _ (best_effort_cleanup_ok false _)).
    unfold ret, cleaned. intros [= <- <-] _. split.
    - exists rc, (tail_now (polled w)). split; [reflexivity|].
      now apply returncode_found_dead.
    - apply calmly_found_dead. }
  rewrite (bind_ok _ _ _ _ _ (monotonic_ok _)).
  destruct (internet_probe_still (Z.min 5000 (d - now (polled w))) v
              (log EvMonotonic (polled w)))
    as ([b reason] & w2 & E & S2 & P).
  rewrite (bind_ok _ _ _ _ _ E).
  destruct b.
  - destruct (get_public_ip_ok v w2) as (ip & G).
    rewrite (bind_ok _ _ _ _ _ G). unfold ret. intros [= <- _]. discriminate.
  - rewrite (bind_ok _ _ _ _ _ (sleep_ok _ _)). unfold ret. discriminate.
Qed.

Lemma probe_loop_return fuel p d v : forall last w r w',
  probe_loop fuel p d v last w = Ok (inl r) w' -> ok r = false ->
  died "died-during-probe rc=" r w' /\ calmly w w'.
Proof.
  induction fuel as [|fuel IH]; intros last w r w'; cbn [probe_loop];
    [discriminate|].
  rewrite (bind_ok _ _ _ _ _ (monotonic_ok _)).
  destruct (now w <? d); [|unfold ret; discriminate].
  assert (S1 : calmly w (log EvMonotonic w)) by now apply calmly_log.
  unfold bind at 1.
  destruct (probe_body p d v (log EvMonotonic w)) as [[r1|reason] w2| | |] eqn:B;
    try discriminate.
  - unfold ret. intros [= <- <-] O.
    destruct (probe_body_return _ _ _ _ _ _ B O) as (Dd & C).
    split; [exact Dd | eapply calmly_trans; eauto].
  - intros H O.
    pose proof (still_calmly _ _ (probe_body_again _ _ _ _ _ _ B)) as S2.
    destruct (IH _ _ _ _ H O) as (Dd & C). split; [exact Dd|].
    eapply calmly_trans; [exact S1|]. eapply calmly_trans; eauto.
Qed.

Lemma probe_loop_exhausted fuel p d v : forall last w last' w',
  probe_loop fuel p d v last w = Ok (inr last') w' ->
  still w w' /\ d <= now w'.
Proof.
  induction fuel as [|fuel IH]; intros last w last' w'; cbn [probe_loop];
    [discriminate|].
  rewrite (bind_ok _ _ _ _ _ (monotonic_ok _)).
  assert (S1 : still w (log EvMonotonic w)) by now apply still_log.
  destruct (Z.ltb_spec (now w) d) as [D|D].
  - unfold bind at 1.
    destruct (probe_body p d v (log EvMonotonic w)) as [[r1|reason] w2| | |] eqn:B;
      try discriminate.
    intros H. pose proof (probe_body_again _ _ _ _ _ _ B) as S2.
    destruct (IH _ _ _ _ H) as (S3 & N). split; [|exact N].
    eapply still_trans; [exact S1|]. eapply still_trans; eauto.
  - unfold ret. intros [= _ <-]. split; [exact S1 | exact D].
Qed.

Lemma supervise_failure ovpn auth timeout ndl extra v probe ptimeout w r w' :
  supervise ovpn auth timeout ndl extra v probe ptimeout w = Ok r w' ->
  ok r = false ->
  exists after,
    trace w' = after ++ EvWatcherStart :: EvPopen (openvpn_argv ovpn auth extra)
                       :: trace w
    /\ launched (child w') = Some (now w)
    /\ ((died "openvpn-exited-early rc=" r w'
         \/ died "exited-after-init rc=" r w'
         \/ died "died-during-probe rc=" r w')
        /\ forallb calm after = true
        \/ died "timeout-waiting-init final_rc=" r w'
           /\ now w + timeout <= now w'
        \/ (exists last,
              died ("init-seen-but-probe-failed: " ++ last ++ "; stopped rc=") r w')
           /\ probe = true /\ now w + ptimeout <= now w').
Proof.
  unfold supervise. cbv zeta.
  set (argv := openvpn_argv ovpn auth extra).
  rewrite (bind_ok _ _ _ _ _ (popen_ok argv w)).
  rewrite (bind_ok _ _ _ _ _ (watcher_start_ok _ _ _)).
  rewrite (bind_ok _ _ _ _ _ (monotonic_ok _)).
  set (w2 := watching ndl v (spawned argv w)).
  set (w3 := log EvMonotonic w2).
  set (p := pid (child w)).
  assert (N3 : now w3 = now w) by reflexivity.
  assert (L3 : launched (child w3) = Some (now w)) by reflexivity.
  assert (T3 : trace w3 = [EvMonotonic] ++ EvWatcherStart :: EvPopen argv
                            :: trace w) by reflexivity.
  assert (Later : forall x, later w3 x ->
            (exists after, trace x = after ++ EvWatcherStart :: EvPopen argv
                                       :: trace w)
            /\ launched (child x) = Some (now w) /\ now w <= now x).
  { intros x (L & N & d & T). split; [|split; [congruence | lia]].
    exists (d ++ [EvMonotonic]). now rewrite T, T3, <- app_assoc. }
  assert (Calmly : forall x, calmly w3 x ->
            exists after, (trace x = after ++ EvWatcherStart :: EvPopen argv
                                       :: trace w
                           /\ launched (child x) = Some (now w))
                          /\ forallb calm after = true).
  { intros x (L & N & d & T & Q). exists (d ++ [EvMonotonic]).
    split; [split; [|congruence]|].
    - now rewrite T, T3, <- app_assoc.
    - rewrite forallb_app, Q. reflexivity. }
  change (now w2) with (now w3).
  unfold bind at 1.
  destruct (wait_init (turns timeout 50) p (now w3 + timeout) w3)
    as [[r0|] w4| | |] eqn:E; try discriminate.
  { unfold ret. intros [= <- <-] _.
    destruct (wait_init_return _ _ _ _ _ _ E) as (_ & [(Dd & C)|(Dd & N & L)]).
    - destruct (Calmly _ C) as (after & (T & La) & Q). exists after.
      split; [exact T|]. split; [exact La|]. left. auto.
    - destruct (Later _ L) as ((after & T) & La & _). exists after.
      split; [exact T|]. split; [exact La|]. right. left.
      split; [exact Dd | lia]. }
  destruct (wait_init_break _ _ _ _ _ E) as (S4 & _).
  rewrite (bind_ok _ _ _ _ _ (poll_ok p w4)).
  destruct (status w4) as [rc|] eqn:St.
  { rewrite (bind_ok _ _ _ _ _ (tail_ok _)).
    rewrite (bind_ok _ _ _ _ _ (best_effort_cleanup_ok false _)).
    unfold ret, cleaned. intros [= <- <-] _.
    assert (C : calmly w3 (swept (log EvTail (polled w4)))).
    { eapply calmly_trans; [apply still_calmly; exact S4|].
      apply calmly_found_dead. }
    destruct (Calmly _ C) as (after & (T & La) & Q). exists after.
    split; [exact T|]. split; [exact La|]. left. split; [|exact Q].
    right. left. exists rc, (tail_now (polled w4)). split; [reflexivity|].
    now apply returncode_found_dead. }
  assert (S5 : still w3 (polled w4)).
  { eapply still_trans; [exact S4 | now apply still_polled]. }
  destruct probe; [|unfold ret; intros [= <- _]; discriminate].
  rewrite (bind_ok _ _ _ _ _ (monotonic_ok _)).
  set (w5 := log EvMonotonic (polled w4)).
  assert (S35 : still w3 w5).
  { eapply still_trans; [exact S5 | now apply still_log]. }
  change (now (polled w4)) with (now w5).
  unfold bind at 1.
  destruct (probe_loop (turns ptimeout 250) p (now w5 + ptimeout) v
              "probe-not-run" w5) as [[r1|last] w6| | |] eqn:PL;
    try discriminate.
  - unfold ret. intros [= <- <-] O.
    destruct (probe_loop_return _ _ _ _ _ _ _ _ PL O) as (Dd & C).
    assert (C' : calmly w3 w6) by
      (eapply calmly_trans; [apply still_calmly; exact S35 | exact C]).
    destruct (Calmly _ C') as (after & (T & La) & Q). exists after.
    split; [exact T|]. split; [exact La|]. left. auto.
  - destruct (probe_loop_exhausted _ _ _ _ _ _ _ _ PL) as (S6 & N6).
    rewrite (bind_ok _ _ _ _ _ (tail_ok _)).
    pose proof (stop_process_spec p 5000 3000 (log EvTail w6)) as SP.
    unfold bind at 1.
    destruct (stop_process p 5000 3000 (log EvTail w6)) as [rc w7| | |];
      try discriminate.
    destruct SP as (F & R & _).
    rewrite (bind_ok _ _ _ _ _ (best_effort_cleanup_ok false _)).
    assert (L7 : later w3 (swept w7)).
    { eapply later_trans; [|apply calmly_later, calmly_swept].
      eapply later_trans; [|apply frame_later; exact F].
      apply calmly_later, still_calmly.
      eapply still_trans; [exact S35|].
      eapply still_trans; [exact S6 | now apply still_log]. }
    assert (N7 : now w + ptimeout <= now (swept w7)).
    { pose proof (st_now _ _ S35) as A1.
      pose proof (fr_now _ _ F) as A2.
      pose proof (fr_now _ _ (frame_swept w7)) as A3.
      change (now (log EvTail w6)) with (now w6) in A2. lia. }
    assert (Fin : forall x, later (swept w7) x ->
              child x = child (swept w7) ->
              exists after,
                trace x = after ++ EvWatcherStart :: EvPopen argv :: trace w
                /\ launched (child x) = Some (now w)
                /\ returncode (child x) = Some rc
                /\ now w + ptimeout <= now x).
    { intros x Lx Cx.
      destruct (Later x (later_trans _ _ _ L7 Lx)) as ((after & T) & La & _).
      exists after. split; [exact T|]. split; [exact La|].
      split; [now rewrite Cx, child_swept|].
      destruct Lx as (_ & Nx & _). lia. }
    assert (Reason : forall x,
              returncode (child x) = Some rc ->
              exists last0,
                died ("init-seen-but-probe-failed: " ++ last0 ++ "; stopped rc=")
                  (mkResult false None
                     ("init-seen-but-probe-failed: " ++ last ++ "; stopped rc="
                      ++ Py.str rc ++ tail_label ++ tail_now w6)%string) x).
    { intros x Rx. exists last, rc, (tail_now w6). split; [|exact Rx].
      cbn [reason]. now rewrite !app_assoc_s. }
    destruct v.
    + rewrite (bind_ok _ _ _ _ _ (snapshot_ok _ _ _)).
      unfold ret, cleaned. intros [= <- <-] _.
      destruct (Fin (snapshotted (swept w7))) as (after & T & La & Rc & N).
      { apply frame_later, frame_snapshotted. }
      { reflexivity. }
      exists after. split; [exact T|]. split; [exact La|]. right. right.
      split; [now apply Reason | split; [reflexivity | exact N]].
    + unfold ret at 1. unfold bind at 1. unfold ret, cleaned.
      intros [= <- <-] _.
      destruct (Fin (swept w7)) as (after & T & La & Rc & N).
      { split; [reflexivity|]. split; [lia | now exists []]. }
      { reflexivity. }
      exists after. split; [exact T|]. split; [exact La|]. right. right.
      split; [now apply Reason | split; [reflexivity | exact N]].
Qed.



(** * The grace periods of the stopper *)

Lemma wait_or_pass_expired p g w w' :
  wait_or_pass p g w = Ok None w' -> now w' = now w + Z.max 0 g.
Proof.
  unfold wait_or_pass, try_except, bind, OS.wait_timeout, ret.
  destruct (returncode (child w)) as [rc|]; [discriminate|].
  destruct (exit_at (child w)) as [[te rc]|].
  - destruct (te <=? now w + Z.max 0 g); [discriminate|].
    now intros [= <-].
  - now intros [= <-].
Qed.

Lemma attempts_signals sig a other :
  attempts sig a -> Signal_eqb sig other = false ->
  existsb (signals other) (rev a) = false.
Proof.
  intros [-> | [-> | [-> | ->]]] H; cbn; now rewrite H.
Qed.

(** X23. The stopper honours its grace periods.  Whenever [stop_process]
    returns, a [SIGTERM] among its calls means that at least
    [sigint_grace_s] have passed since it was called, and a [SIGKILL]
    means that at least [sigint_grace_s + sigterm_grace_s] have passed:
    the child is never terminated, and never killed, before it was given
    the whole time to end by itself. *)
Theorem stop_process_honours_grace p sigint_grace_s sigterm_grace_s w rc w' :
  stop_process p sigint_grace_s sigterm_grace_s w = Ok rc w' ->
  exists d,
    trace w' = d ++ trace w
    /\ (existsb (signals SIGTERM) d = true ->
        now w + Z.max 0 sigint_grace_s <= now w')
    /\ (existsb (signals SIGKILL) d = true ->
        now w + Z.max 0 sigint_grace_s + Z.max 0 sigterm_grace_s <= now w').
Proof.
  unfold stop_process.
  rewrite (bind_ok _ _ _ _ _ (poll_ok p w)).
  destruct (status w) as [rc0|] eqn:S.
  { unfold ret. intros [= <- <-]. exists [EvPoll].
    split; [apply trace_polled|]. split; discriminate. }
  pose proof (trace_polled w) as T0.
  pose proof (now_polled w) as N0.
  destruct (signal_best_effort_spec p SIGINT (polled w))
    as (w1 & E1 & F1 & N1 & (a1 & A1 & T1) & _ & _).
  rewrite (bind_ok _ _ _ _ _ E1).
  destruct (wait_or_pass_spec p sigint_grace_s w1)
    as (r1 & w2 & E2 & F2 & T2 & _ & _).
  rewrite (bind_ok _ _ _ _ _ E2).
  pose proof (attempts_signals SIGINT a1 SIGTERM A1 eq_refl) as I1.
  pose proof (attempts_signals SIGINT a1 SIGKILL A1 eq_refl) as I2.
  destruct r1 as [rc1|].
  { unfold ret. intros [= <- <-].
    exists (EvWait (Some sigint_grace_s) :: rev a1 ++ [EvPoll]). split.
    - rewrite T2, T1, T0. now norm_lists.
    - cbn [existsb signals orb]. rewrite !existsb_app, I1, I2.
      split; discriminate. }
  pose proof (wait_or_pass_expired _ _ _ _ E2) as N2.
  destruct (signal_best_effort_spec p SIGTERM w2)
    as (w3 & E3 & F3 & N3 & (a2 & A2 & T3) & _ & _).
  rewrite (bind_ok _ _ _ _ _ E3).
  destruct (wait_or_pass_spec p sigterm_grace_s w3)
    as (r2 & w4 & E4 & F4 & T4 & _ & _).
  rewrite (bind_ok _ _ _ _ _ E4).
  pose proof (attempts_signals SIGTERM a2 SIGKILL A2 eq_refl) as I3.
  pose proof (fr_now _ _ F4) as N4.
  destruct r2 as [rc2|].
  { unfold ret. intros [= <- <-].
    exists (EvWait (Some sigterm_grace_s) :: rev a2
              ++ EvWait (Some sigint_grace_s) :: rev a1 ++ [EvPoll]). split.
    - rewrite T4, T3, T2, T1, T0. now norm_lists.
    - split; [intros _; lia|].
      cbn [existsb signals orb]. rewrite !existsb_app. cbn [existsb signals orb].
      rewrite !existsb_app, I2, I3. discriminate. }
  pose proof (wait_or_pass_expired _ _ _ _ E4) as N4'.
  destruct (signal_best_effort_spec p SIGKILL w4)
    as (w5 & E5 & F5 & N5 & (a3 & A3 & T5) & _ & _).
  rewrite (bind_ok _ _ _ _ _ E5).
  pose proof (wait_spec p w5) as W.
  destruct (OS.wait p w5) as [rc3 w6| | |]; try discriminate.
  intros [= <- <-]. destruct W as (F6 & T6 & _).
  pose proof (fr_now _ _ F6) as N6.
  exists (EvWait None :: rev a3 ++ EvWait (Some sigterm_grace_s) :: rev a2
            ++ EvWait (Some sigint_grace_s) :: rev a1 ++ [EvPoll]). split.
  - rewrite T6, T5, T4, T3, T2, T1, T0. now norm_lists.
  - split; intros _; lia.
Qed.

Lemma stop_process_honours_grace_witness :
  match stop_process 4242 5000 3000 (supervised stubborn) with
  | Ok rc w' => rc = 15 /\ now (supervised stubborn) + 5000 <= now w'
  | _ => False
  end.
Proof.
  destruct (stop_process 4242 5000 3000 (supervised stubborn))
    as [rc w'| | |] eqn:E; try (vm_compute in E; discriminate E).
  destruct (stop_process_honours_grace _ _ _ _ _ _ E) as (d & T & G & _).
  pose proof E as E2. vm_compute in E2. injection E2 as <- <-.
  split; [reflexivity|].
  apply (app_inv_tail _
           [EvWait (Some 3000); EvKillpg SIGTERM; EvWait (Some 5000);
            EvKillpg SIGINT; EvPoll] d) in T.
  subst d. now apply G.
Defined.
